(** * The snapping engine of the PDF canvas editor

    A shallow embedding of the alignment code of [src/app/page.tsx]:
    [snapToValue], [getSnapPoints] and [applySnapping], together with the
    part of the component state they read; and, in a second part, of the
    other functions of the component that compute on its state: grid
    snapping, region detection, the handlers of a placed image, cropping,
    the selection of pages and extracted images, and the batch imports.
    What the program takes from the browser (the clock, random numbers,
    canvases, the Konva node of an image) enters those functions as an
    argument.

    Numbers.  The program computes on JavaScript numbers, which are IEEE 754
    doubles.  The snapping functions are embedded twice.

    In the first part a number is an exact rational ([Q]): [+], [-], [/ 2],
    [Math.abs], [<=] and [<] are the exact operations, so neither rounding
    nor the values NaN and +-Infinity of the proposed geometry are
    represented.  The one place where the program itself writes [Infinity]
    (the initial [minDistance]) is modelled by the type [Dist].  Two
    rationals that denote the same number may differ as terms ([1#2] and
    [2#4]); a statement that two results differ is therefore made with
    [Position.eqv] (componentwise [==]), and bounds are stated with the
    order of [Q].  Equalities are Leibniz equalities: they hold where the
    program hands a value through unchanged, and on the concrete inputs of
    the examples.  This part carries the statements that do not turn on how
    a rounded distance compares: which points the provider builds, the
    guard, the shape of the selection rule, the state updates.

    In [Module Double] a number is a double (the primitive floats of Rocq,
    specified by [SpecFloat]): every operation rounds as the program's does,
    and NaN and the infinities are values.  This part carries the
    statements that depend on the outcome of the program's comparisons of
    computed distances: the first match of [snapToValue], settled
    positions, the bound on the displacement, the tie-break among the
    scenarios, and the guides of [onDragStart]. *)

From Stdlib Require Import QArith Qabs Lqa List String Bool Lia.
From Stdlib Require Import ZArith Arith Ascii Qround Qminmax.
From Stdlib Require Import DecimalString DecimalNat.
From Stdlib Require Floats.
Import ListNotations.

Local Open Scope Q_scope.

(** ** Numbers *)

(** [a < b] as a test; the library only ships [Qle_bool]. *)
Definition Qlt_bool (a b : Q) : bool := negb (Qle_bool b a).

(** The values [minDistance] ranges over: [Infinity] until a scenario has
    been accepted, a finite score afterwards. *)
Inductive Dist : Type :=
| Infinity : Dist
| Finite : Q -> Dist.

(** [a < m] for a finite [a]; every finite number is below [Infinity]. *)
Definition lt_Dist (a : Q) (m : Dist) : bool :=
  match m with
  | Infinity => true
  | Finite d => Qlt_bool a d
  end.

(** ** Data model *)

(** [interface CanvasImage]. *)
Module CanvasImage.
Record t : Type := mk {
    id : string;
    src : string;
    x : Q;
    y : Q;
    width : Q;
    height : Q;
    scaleX : Q;
    scaleY : Q;
    rotation : Q;
    cropX : option Q;
    cropY : option Q;
    cropWidth : option Q;
    cropHeight : option Q
  }.
End CanvasImage.

(** The object type [{x: number, y: number}] returned by [applySnapping]. *)
Module Position.
Record t : Type := mk { x : Q; y : Q }.

(** Same position as numbers. *)
Definition eqv (p q : t) : Prop := x p == x q /\ y p == y q.
End Position.

(** A snap scenario [{x, y, priority}]. *)
Module Scenario.
Record t : Type := mk { x : Q; y : Q; priority : Q }.
End Scenario.

(** The object [{vertical: number[], horizontal: number[]}]. *)
Module SnapPoints.
Record t : Type := mk { vertical : list Q; horizontal : list Q }.
End SnapPoints.

(** [canvasSize], a [{width, height}] pair. *)
Module Size.
Record t : Type := mk { width : Q; height : Q }.
End Size.

(** The part of the state of [PDFCanvasEditor] that is in scope of the
    snapping functions.  Only [canvasImages], [snapEnabled] and [canvasSize]
    are read by them; the other fields are kept so that this can be stated. *)
Record EditorState : Type := mkEditorState {
  canvasImages : list CanvasImage.t;
  selectedImageId : option string;
  cropMode : bool;
  snapEnabled : bool;
  activeSnapGuides : list Q * list Q;
  multiSelectMode : bool;
  canvasSize : Size.t
}.

(** ** Snapping configuration *)

Definition SNAP_TOLERANCE : Q := 10.
Definition GRID_SIZE : Q := 20.

(** ** Snapping utility functions *)

(** [snapToValue(value, snapPoints, tolerance)]: the [for ... of] loop
    returns from inside at the first point within [tolerance]. *)
Fixpoint snapToValue (value : Q) (snapPoints : list Q) (tolerance : Q) : Q :=
  match snapPoints with
  | [] => value
  | point :: rest =>
      if Qle_bool (Qabs (value - point)) tolerance
      then point
      else snapToValue value rest tolerance
  end.

(** [array.push(v)]. *)
Definition push {A : Type} (a : list A) (v : A) : list A := a ++ [v].

(** [img.id !== excludeId] for an optional [excludeId]: a string is never
    [undefined]. *)
Definition id_differs (i : string) (excludeId : option string) : bool :=
  match excludeId with
  | None => true
  | Some e => negb (String.eqb i e)
  end.

(** The body of the [forEach] callback of [getSnapPoints]: six pushes. *)
Definition pushImagePoints (snapPoints : SnapPoints.t) (img : CanvasImage.t)
  : SnapPoints.t :=
  let v := SnapPoints.vertical snapPoints in
  let v := push v (CanvasImage.x img) in
  let v := push v (CanvasImage.x img + CanvasImage.width img / 2) in
  let v := push v (CanvasImage.x img + CanvasImage.width img) in
  let h := SnapPoints.horizontal snapPoints in
  let h := push h (CanvasImage.y img) in
  let h := push h (CanvasImage.y img + CanvasImage.height img / 2) in
  let h := push h (CanvasImage.y img + CanvasImage.height img) in
  SnapPoints.mk v h.

(** [getSnapPoints(excludeId?)]. *)
Definition getSnapPoints (st : EditorState) (excludeId : option string)
  : SnapPoints.t :=
  let snapPoints :=
    SnapPoints.mk
      [0; Size.width (canvasSize st); Size.width (canvasSize st) / 2]
      [0; Size.height (canvasSize st); Size.height (canvasSize st) / 2] in
  fold_left pushImagePoints
    (filter (fun img => id_differs (CanvasImage.id img) excludeId)
            (canvasImages st))
    snapPoints.

(** The array literal [snapScenarios] of [applySnapping], in source order:
    left edge, right edge, center, bottom edge. *)
Definition snapScenarios (snapPoints : SnapPoints.t)
  (newX newY width height : Q) : list Scenario.t :=
  let left := newX in
  let right := newX + width in
  let centerX := newX + width / 2 in
  let top := newY in
  let bottom := newY + height in
  let centerY := newY + height / 2 in
  let vertical := SnapPoints.vertical snapPoints in
  let horizontal := SnapPoints.horizontal snapPoints in
  [ Scenario.mk (snapToValue left vertical SNAP_TOLERANCE)
                (snapToValue top horizontal SNAP_TOLERANCE)
                1;
    Scenario.mk (snapToValue right vertical SNAP_TOLERANCE - width)
                (snapToValue top horizontal SNAP_TOLERANCE)
                1;
    Scenario.mk (snapToValue centerX vertical SNAP_TOLERANCE - width / 2)
                (snapToValue centerY horizontal SNAP_TOLERANCE - height / 2)
                2;
    Scenario.mk (snapToValue left vertical SNAP_TOLERANCE)
                (snapToValue bottom horizontal SNAP_TOLERANCE - height)
                1 ].

(** The quantities the [forEach] callback of [applySnapping] computes for a
    scenario. *)
Definition distanceX (newX : Q) (scenario : Scenario.t) : Q :=
  Qabs (Scenario.x scenario - newX).

Definition distanceY (newY : Q) (scenario : Scenario.t) : Q :=
  Qabs (Scenario.y scenario - newY).

Definition totalDistance (newX newY : Q) (scenario : Scenario.t) : Q :=
  distanceX newX scenario + distanceY newY scenario.

Definition withinTolerance (newX newY : Q) (scenario : Scenario.t) : bool :=
  Qle_bool (distanceX newX scenario) SNAP_TOLERANCE
  || Qle_bool (distanceY newY scenario) SNAP_TOLERANCE.

Definition adjustedDistance (newX newY : Q) (scenario : Scenario.t) : Q :=
  totalDistance newX newY scenario + (Scenario.priority scenario - 1) * 5.

(** One run of the callback on the loop state [(bestSnap, minDistance)]. *)
Definition considerScenario (newX newY : Q) (acc : Position.t * Dist)
  (scenario : Scenario.t) : Position.t * Dist :=
  if withinTolerance newX newY scenario then
    let adjusted := adjustedDistance newX newY scenario in
    if lt_Dist adjusted (snd acc) && Qlt_bool adjusted 50
    then (Position.mk (Scenario.x scenario) (Scenario.y scenario), Finite adjusted)
    else acc
  else acc.

(** The whole [forEach], from [bestSnap = {x: newX, y: newY}] and
    [minDistance = Infinity]. *)
Definition findBestSnap (newX newY : Q) (scenarios : list Scenario.t)
  : Position.t * Dist :=
  fold_left (considerScenario newX newY) scenarios (Position.mk newX newY, Infinity).

(** [applySnapping(imageId, newX, newY, width, height)].  [!canvasSize.width]
    holds of the number zero.  The arrays built by [getSnapPoints] are
    objects, so the guard on [snapPoints] never fires, and nothing inside the
    [try] block throws: neither branch has a counterpart here. *)
Definition applySnapping (st : EditorState) (imageId : string)
  (newX newY width height : Q) : Position.t :=
  if negb (snapEnabled st)
     || Qeq_bool (Size.width (canvasSize st)) 0
     || Qeq_bool (Size.height (canvasSize st)) 0
  then Position.mk newX newY
  else
    let snapPoints := getSnapPoints st (Some imageId) in
    fst (findBestSnap newX newY
           (snapScenarios snapPoints newX newY width height)).

(** ** Concrete states used in the examples *)

Definition image (i : string) (x y w h : Q) : CanvasImage.t :=
  CanvasImage.mk i EmptyString x y w h 1 1 0 None None None None.

Definition editor (imgs : list CanvasImage.t) (enabled : bool) (cw ch : Q)
  : EditorState :=
  mkEditorState imgs None false enabled ([], []) true (Size.mk cw ch).

(** Canvas 800x600 with one placed object at (100,100), 200 wide, 150 high. *)
Definition oneObject : EditorState :=
  editor [image "other" 100 100 200 150] true 800 600.

(** The same canvas, the moving object being in the list as well. *)
Definition oneObjectAndMover : EditorState :=
  editor [image "other" 100 100 200 150; image "moving" 400 400 50 50]
    true 800 600.

(** A state that agrees with [oneObject] on the object's id, position and
    size, on the canvas and on the snap flag, and on nothing else. *)
Definition oneObjectElsewhere : EditorState :=
  mkEditorState
    [CanvasImage.mk "other" "page-3" 100 100 200 150 2 (1 # 2) 90
       (Some 10) (Some 10) (Some 50) (Some 50)]
    (Some "other"%string) true true ([100; 300], [100]) false
    (Size.mk 800 600).

(** The same canvas with snapping switched off. *)
Definition snappingOff : EditorState :=
  editor [image "other" 100 100 200 150] false 800 600.

(** Canvas 800x600; [mover] already sits at (5,0), 5 wide and 50 high, and a
    second object has its left edge on the same line [x = 5]. *)
Definition sharedEdge : EditorState :=
  editor [image "mover" 5 0 5 50; image "b" 5 50 100 100] true 800 600.

(** ** Vocabulary of the statements

    None of the definitions below is part of the program; they name what the
    theorems talk about. *)

(** [p] is the first element of [points] within [t] of [v]. *)
Definition first_within (v : Q) (points : list Q) (t : Q) (p : Q) : Prop :=
  exists before after,
    points = before ++ p :: after
    /\ Forall (fun q => ~ Qabs (v - q) <= t) before
    /\ Qabs (v - p) <= t.

(** The three vertical lines of an object: left edge, center, right edge. *)
Definition verticalPointsOf (img : CanvasImage.t) : list Q :=
  [ CanvasImage.x img;
    CanvasImage.x img + CanvasImage.width img / 2;
    CanvasImage.x img + CanvasImage.width img ].

(** The three horizontal lines of an object: top edge, center, bottom edge. *)
Definition horizontalPointsOf (img : CanvasImage.t) : list Q :=
  [ CanvasImage.y img;
    CanvasImage.y img + CanvasImage.height img / 2;
    CanvasImage.y img + CanvasImage.height img ].

(** The placed objects other than [excludeId], in list order. *)
Definition otherImages (st : EditorState) (excludeId : option string)
  : list CanvasImage.t :=
  filter (fun img => id_differs (CanvasImage.id img) excludeId)
         (canvasImages st).

(** The list without the objects called [i]. *)
Definition withoutId (i : string) (imgs : list CanvasImage.t)
  : list CanvasImage.t :=
  filter (fun img => negb (String.eqb (CanvasImage.id img) i)) imgs.

(** The same state with another list of placed objects. *)
Definition withImages (st : EditorState) (imgs : list CanvasImage.t)
  : EditorState :=
  mkEditorState imgs (selectedImageId st) (cropMode st) (snapEnabled st)
    (activeSnapGuides st) (multiSelectMode st) (canvasSize st).

(** What the snapping functions read of a placed object. *)
Definition geometry (img : CanvasImage.t) : string * Q * Q * Q * Q :=
  (CanvasImage.id img, CanvasImage.x img, CanvasImage.y img,
   CanvasImage.width img, CanvasImage.height img).


(** A scenario the loop can accept: within tolerance on one axis at least,
    and with an adjusted distance under the ceiling. *)
Definition qualifies (newX newY : Q) (s : Scenario.t) : Prop :=
  withinTolerance newX newY s = true /\ adjustedDistance newX newY s < 50.

(** The position a scenario proposes. *)
Definition positionOf (s : Scenario.t) : Position.t :=
  Position.mk (Scenario.x s) (Scenario.y s).

(** *** The selection rule, in the words of the specification *)

(** A scenario is eligible when it is within the tolerance of the proposed
    position on the x axis or on the y axis. *)
Definition eligible (newX newY : Q) (s : Scenario.t) : Prop :=
  Qabs (Scenario.x s - newX) <= SNAP_TOLERANCE
  \/ Qabs (Scenario.y s - newY) <= SNAP_TOLERANCE.

(** The score of a scenario: both distances, and 5 for each priority level
    above 1. *)
Definition score (newX newY : Q) (s : Scenario.t) : Q :=
  (Qabs (Scenario.x s - newX) + Qabs (Scenario.y s - newY))
  + (Scenario.priority s - 1) * 5.


(** [r] is the position of the earliest scenario, in the order of the list,
    among the eligible scenarios of least score. *)
Definition earliest_minimum (newX newY : Q) (scenarios : list Scenario.t)
  (r : Position.t) : Prop :=
  exists before s after,
    scenarios = before ++ s :: after
    /\ eligible newX newY s
    /\ (forall s', In s' before -> eligible newX newY s' ->
                   score newX newY s < score newX newY s')
    /\ (forall s', In s' after -> eligible newX newY s' ->
                   score newX newY s <= score newX newY s')
    /\ r = positionOf s.

(** * The rest of the component *)

(** ** Grid snapping and region detection *)

(** [Math.round]: the nearest integer, a value midway between two integers
    going to the larger one. *)
Definition Math_round (v : Q) : Z := Qfloor (v + (1 # 2)).

(** [snapToGrid(value)]. *)
Definition snapToGrid (value : Q) : Q :=
  inject_Z (Math_round (value / GRID_SIZE)) * GRID_SIZE.

(** The values [0, 1, ..., n - 1] of the counter of a loop
    [for (let i = 0; i < n; i++)]; none when [n <= 0]. *)
Definition loopIndices (n : Z) : list Z := map Z.of_nat (seq 0 (Z.to_nat n)).

(** An element of [regions] in [detectImageRegions]. *)
Module Region.
Record t : Type := mk { x : Q; y : Q; width : Q; height : Q }.
End Region.

(** [detectImageRegions(imageData, width, height)].  The pixels are not
    read by the program.  For [Math.min(width, height) = 0] the program
    divides by zero and goes on with NaN or an infinite loop bound; that is
    outside the arithmetic modelled here, and the result is [None]. *)
Definition detectImageRegions (imageData : list Z) (width height : Q)
  : option (list Region.t) :=
  let blockSize := Qmin width height / 4 in
  if Qeq_bool blockSize 0 then None
  else
    let cols := Qfloor (width / blockSize) in
    let rows := Qfloor (height / blockSize) in
    Some
      (flat_map
         (fun row =>
            flat_map
              (fun col =>
                 let x := inject_Z col * blockSize in
                 let y := inject_Z row * blockSize in
                 let regionWidth := Qmin blockSize (width - x) in
                 let regionHeight := Qmin blockSize (height - y) in
                 if Qlt_bool 50 regionWidth && Qlt_bool 50 regionHeight
                 then [Region.mk x y regionWidth regionHeight]
                 else [])
              (loopIndices cols))
         (loopIndices rows)).

(** ** State updates of the canvas *)

(** Truthiness of a [string | null]: neither [null] nor the empty string. *)
Definition truthy (s : option string) : bool :=
  match s with
  | None => false
  | Some s => negb (String.eqb s EmptyString)
  end.

(** [img.id === selectedImageId] for a [string | null]. *)
Definition id_equals (i : string) (selected : option string) : bool :=
  match selected with
  | None => false
  | Some s => String.eqb i s
  end.

(** The state setters of the component. *)
Definition setCanvasImages (st : EditorState) (imgs : list CanvasImage.t)
  : EditorState :=
  mkEditorState imgs (selectedImageId st) (cropMode st) (snapEnabled st)
    (activeSnapGuides st) (multiSelectMode st) (canvasSize st).

Definition setSelectedImageId (st : EditorState) (i : option string)
  : EditorState :=
  mkEditorState (canvasImages st) i (cropMode st) (snapEnabled st)
    (activeSnapGuides st) (multiSelectMode st) (canvasSize st).

Definition setCropMode (st : EditorState) (b : bool) : EditorState :=
  mkEditorState (canvasImages st) (selectedImageId st) b (snapEnabled st)
    (activeSnapGuides st) (multiSelectMode st) (canvasSize st).

Definition setActiveSnapGuides (st : EditorState) (guides : list Q * list Q)
  : EditorState :=
  mkEditorState (canvasImages st) (selectedImageId st) (cropMode st)
    (snapEnabled st) guides (multiSelectMode st) (canvasSize st).

(** [Partial<CanvasImage>]: [None] for a key that is absent. *)
Module PartialImage.
Record t : Type := mk {
  id : option string;
  src : option string;
  x : option Q;
  y : option Q;
  width : option Q;
  height : option Q;
  scaleX : option Q;
  scaleY : option Q;
  rotation : option Q;
  cropX : option Q;
  cropY : option Q;
  cropWidth : option Q;
  cropHeight : option Q
}.

(** The object literal [{}]. *)
Definition empty : t :=
  mk None None None None None None None None None None None None None.
End PartialImage.

(** One key of a spread [{...img, ...newAttrs}]. *)
Definition spreadKey {A : Type} (old : A) (new : option A) : A :=
  match new with
  | Some v => v
  | None => old
  end.

(** [{ ...img, ...newAttrs }]. *)
Definition spreadImage (img : CanvasImage.t) (newAttrs : PartialImage.t)
  : CanvasImage.t :=
  CanvasImage.mk
    (spreadKey (CanvasImage.id img) (PartialImage.id newAttrs))
    (spreadKey (CanvasImage.src img) (PartialImage.src newAttrs))
    (spreadKey (CanvasImage.x img) (PartialImage.x newAttrs))
    (spreadKey (CanvasImage.y img) (PartialImage.y newAttrs))
    (spreadKey (CanvasImage.width img) (PartialImage.width newAttrs))
    (spreadKey (CanvasImage.height img) (PartialImage.height newAttrs))
    (spreadKey (CanvasImage.scaleX img) (PartialImage.scaleX newAttrs))
    (spreadKey (CanvasImage.scaleY img) (PartialImage.scaleY newAttrs))
    (spreadKey (CanvasImage.rotation img) (PartialImage.rotation newAttrs))
    (match PartialImage.cropX newAttrs with
     | Some v => Some v | None => CanvasImage.cropX img end)
    (match PartialImage.cropY newAttrs with
     | Some v => Some v | None => CanvasImage.cropY img end)
    (match PartialImage.cropWidth newAttrs with
     | Some v => Some v | None => CanvasImage.cropWidth img end)
    (match PartialImage.cropHeight newAttrs with
     | Some v => Some v | None => CanvasImage.cropHeight img end).

(** [deleteSelected()]. *)
Definition deleteSelected (st : EditorState) : EditorState :=
  if truthy (selectedImageId st) then
    let st1 :=
      setCanvasImages st
        (filter (fun img => id_differs (CanvasImage.id img) (selectedImageId st))
                (canvasImages st)) in
    setSelectedImageId st1 None
  else st.

(** [updateImage(id, newAttrs)]. *)
Definition updateImage (st : EditorState) (id : string)
  (newAttrs : PartialImage.t) : EditorState :=
  setCanvasImages st
    (map (fun img =>
            if String.eqb (CanvasImage.id img) id
            then spreadImage img newAttrs
            else img)
         (canvasImages st)).

(** [selectImage(id)]. *)
Definition selectImage (st : EditorState) (id : string) : EditorState :=
  setSelectedImageId st (Some id).

(** ** Event handlers of a placed image *)

(** The attributes of the Konva node of an image that the handlers read and
    write through [node.x()], [node.x(v)] and the like: a call with an
    argument stores it, a call without returns what is stored. *)
Module Node.
Record t : Type := mk {
  x : Q;
  y : Q;
  width : Q;
  height : Q;
  scaleX : Q;
  scaleY : Q;
  rotation : Q
}.
End Node.

(** The [onChange] prop: [(newAttrs) => !cropMode && updateImage(image.id,
    newAttrs)]. *)
Definition onChange (st : EditorState) (imageId : string)
  (newAttrs : PartialImage.t) : EditorState :=
  if negb (cropMode st) then updateImage st imageId newAttrs else st.

(** The object literal [{x: ..., y: ...}] handed to [onChange]. *)
Definition positionAttrs (x y : Q) : PartialImage.t :=
  PartialImage.mk None None (Some x) (Some y) None None None None None
    None None None None.

(** [onDragMove]: the node is moved to the snapped position first, and the
    test for new guides reads the node afterwards. *)
Definition onDragMove (st : EditorState) (image : CanvasImage.t)
  (node : Node.t) : EditorState * Node.t :=
  let snapped :=
    applySnapping st (CanvasImage.id image) (Node.x node) (Node.y node)
      (CanvasImage.width image) (CanvasImage.height image) in
  let node :=
    Node.mk (Position.x snapped) (Node.y node) (Node.width node)
      (Node.height node) (Node.scaleX node) (Node.scaleY node)
      (Node.rotation node) in
  let node :=
    Node.mk (Node.x node) (Position.y snapped) (Node.width node)
      (Node.height node) (Node.scaleX node) (Node.scaleY node)
      (Node.rotation node) in
  if Qlt_bool 1 (Qabs (Position.x snapped - Node.x node))
     || Qlt_bool 1 (Qabs (Position.y snapped - Node.y node))
  then
    (setActiveSnapGuides st
       ([Position.x snapped; Position.x snapped + CanvasImage.width image],
        [Position.y snapped; Position.y snapped + CanvasImage.height image]),
     node)
  else (st, node).

(** [onDragEnd]. *)
Definition onDragEnd (st : EditorState) (image : CanvasImage.t)
  (node : Node.t) : EditorState :=
  let snapped :=
    applySnapping st (CanvasImage.id image) (Node.x node) (Node.y node)
      (CanvasImage.width image) (CanvasImage.height image) in
  let st1 :=
    onChange st (CanvasImage.id image)
      (positionAttrs (Position.x snapped) (Position.y snapped)) in
  setActiveSnapGuides st1 ([], []).

(** [onTransformEnd], for a mounted node. *)
Definition onTransformEnd (st : EditorState) (image : CanvasImage.t)
  (node : Node.t) : EditorState * Node.t :=
  let scaleX := Node.scaleX node in
  let scaleY := Node.scaleY node in
  let newWidth := Qmax 5 (Node.width node * scaleX) in
  let newHeight := Qmax 5 (Node.height node * scaleY) in
  let node :=
    Node.mk (Node.x node) (Node.y node) (Node.width node) (Node.height node)
      1 1 (Node.rotation node) in
  let snapped :=
    applySnapping st (CanvasImage.id image) (Node.x node) (Node.y node)
      newWidth newHeight in
  let st1 :=
    onChange st (CanvasImage.id image)
      (PartialImage.mk None None
         (Some (Position.x snapped)) (Some (Position.y snapped))
         (Some newWidth) (Some newHeight) None None
         (Some (Node.rotation node)) None None None None) in
  (setActiveSnapGuides st1 ([], []), node).

(** A box of the transformer. *)
Module Box.
Record t : Type := mk { x : Q; y : Q; width : Q; height : Q; rotation : Q }.
End Box.

(** [boundBoxFunc] of the transformer of an image. *)
Definition boundBoxFunc (oldBox newBox : Box.t) : Box.t :=
  if Qlt_bool (Qabs (Box.width newBox)) 5
     || Qlt_bool (Qabs (Box.height newBox)) 5
  then oldBox
  else newBox.


(** ** Cropping *)

(** [cropRect], when it is not [null]. *)
Module Rect.
Record t : Type := mk { x : Q; y : Q; width : Q; height : Q }.
End Rect.

(** What a call of [cropImage] does: it sets state, or hands over to
    [applyCrop], or alerts. *)
Inductive CropEffect : Type :=
| CropState : EditorState -> option Rect.t -> CropEffect
| CropApply : CropEffect
| CropAlert : string -> CropEffect.

(** [cropImage()], on the state and the current [cropRect]. *)
Definition cropImage (st : EditorState) (cropRect : option Rect.t)
  : CropEffect :=
  if truthy (selectedImageId st) && negb (cropMode st) then
    let st1 := setCropMode st true in
    match find (fun img => id_equals (CanvasImage.id img) (selectedImageId st))
               (canvasImages st) with
    | Some selectedImage =>
        CropState st1
          (Some (Rect.mk (CanvasImage.x selectedImage + 20)
                         (CanvasImage.y selectedImage + 20)
                         (CanvasImage.width selectedImage - 40)
                         (CanvasImage.height selectedImage - 40)))
    | None => CropState st1 cropRect
    end
  else if cropMode st then CropApply
  else CropAlert "Please select an image first".

(** [applyCrop()], as far as the state goes: the state and [cropRect] once
    the image has loaded and has been drawn on a canvas with a 2d context,
    [croppedSrc] standing for [canvas.toDataURL()]. *)
Definition applyCrop (st : EditorState) (cropRect : option Rect.t)
  (croppedSrc : string) : EditorState * option Rect.t :=
  match selectedImageId st, cropRect with
  | Some selected, Some rect =>
      if truthy (selectedImageId st) then
        match find (fun img =>
                      id_equals (CanvasImage.id img) (selectedImageId st))
                   (canvasImages st) with
        | Some selectedImage =>
            let st1 :=
              updateImage st selected
                (PartialImage.mk None (Some croppedSrc)
                   (Some (Rect.x rect)) (Some (Rect.y rect))
                   (Some (Rect.width rect)) (Some (Rect.height rect))
                   None None None None None None None) in
            (setCropMode st1 false, None)
        | None => (st, cropRect)
        end
      else (st, cropRect)
  | _, _ => (st, cropRect)
  end.

(** [cancelCrop()]. *)
Definition cancelCrop (st : EditorState) (cropRect : option Rect.t)
  : EditorState * option Rect.t :=
  (setCropMode st false, None).

(** [checkDeselect(e)], [clickedOnEmpty] telling whether the target of the
    event is the stage. *)
Definition checkDeselect (st : EditorState) (clickedOnEmpty : bool)
  : EditorState :=
  if clickedOnEmpty then setSelectedImageId st None else st.

(** The rectangle [cropImage] proposes for a placed object. *)
Definition insetRect (img : CanvasImage.t) : Rect.t :=
  Rect.mk (CanvasImage.x img + 20) (CanvasImage.y img + 20)
    (CanvasImage.width img - 40) (CanvasImage.height img - 40).

(** The placed object [old] with the source [src] and the position and size
    of [rect], everything else kept. *)
Definition croppedTo (rect : Rect.t) (src : string) (old : CanvasImage.t)
  : CanvasImage.t :=
  CanvasImage.mk (CanvasImage.id old) src
    (Rect.x rect) (Rect.y rect) (Rect.width rect) (Rect.height rect)
    (CanvasImage.scaleX old) (CanvasImage.scaleY old)
    (CanvasImage.rotation old)
    (CanvasImage.cropX old) (CanvasImage.cropY old)
    (CanvasImage.cropWidth old) (CanvasImage.cropHeight old).

(** ** Pages, extracted images and their selection *)

(** What the program reads of an [HTMLCanvasElement]: its size and the
    result of [toDataURL()]. *)
Module HTMLCanvas.
Record t : Type := mk { width : Q; height : Q; dataURL : string }.
End HTMLCanvas.

(** [interface ExtractedImage]. *)
Module ExtractedImage.
Record t : Type := mk {
  id : string;
  src : string;
  x : Q;
  y : Q;
  width : Q;
  height : Q;
  pageNumber : Z;
  selected : bool
}.

(** [{ ...img, selected: b }]. *)
Definition setSelected (img : t) (b : bool) : t :=
  mk (id img) (src img) (x img) (y img) (width img) (height img)
     (pageNumber img) b.
End ExtractedImage.

(** [interface PageInfo]. *)
Module PageInfo.
Record t : Type := mk {
  pageNumber : Z;
  canvas : HTMLCanvas.t;
  selected : bool;
  extractedImages : option (list ExtractedImage.t)
}.

(** [{ ...page, selected: b }]. *)
Definition setSelected (page : t) (b : bool) : t :=
  mk (pageNumber page) (canvas page) b (extractedImages page).
End PageInfo.

(** The state of [PDFCanvasEditor] that the import dialogs and the bottom
    bar work on. *)
Record ImportState : Type := mkImportState {
  pages : list PageInfo.t;
  selectedPages : list PageInfo.t;
  bulkImportMode : bool;
  imageSelectionMode : bool;
  extractedImages : list ExtractedImage.t;
  selectedExtractedImages : list ExtractedImage.t;
  bottomBarMultiSelect : bool;
  selectedBottomBarImages : list PageInfo.t;
  pageSelectionModalOpen : bool
}.

Definition setPages (s : ImportState) (v : list PageInfo.t) : ImportState :=
  mkImportState v (selectedPages s) (bulkImportMode s) (imageSelectionMode s)
    (extractedImages s) (selectedExtractedImages s) (bottomBarMultiSelect s)
    (selectedBottomBarImages s) (pageSelectionModalOpen s).

Definition setSelectedPages (s : ImportState) (v : list PageInfo.t)
  : ImportState :=
  mkImportState (pages s) v (bulkImportMode s) (imageSelectionMode s)
    (extractedImages s) (selectedExtractedImages s) (bottomBarMultiSelect s)
    (selectedBottomBarImages s) (pageSelectionModalOpen s).

Definition setBulkImportMode (s : ImportState) (v : bool) : ImportState :=
  mkImportState (pages s) (selectedPages s) v (imageSelectionMode s)
    (extractedImages s) (selectedExtractedImages s) (bottomBarMultiSelect s)
    (selectedBottomBarImages s) (pageSelectionModalOpen s).

Definition setImageSelectionMode (s : ImportState) (v : bool) : ImportState :=
  mkImportState (pages s) (selectedPages s) (bulkImportMode s) v
    (extractedImages s) (selectedExtractedImages s) (bottomBarMultiSelect s)
    (selectedBottomBarImages s) (pageSelectionModalOpen s).

Definition setExtractedImages (s : ImportState) (v : list ExtractedImage.t)
  : ImportState :=
  mkImportState (pages s) (selectedPages s) (bulkImportMode s)
    (imageSelectionMode s) v (selectedExtractedImages s)
    (bottomBarMultiSelect s) (selectedBottomBarImages s)
    (pageSelectionModalOpen s).

Definition setSelectedExtractedImages (s : ImportState)
  (v : list ExtractedImage.t) : ImportState :=
  mkImportState (pages s) (selectedPages s) (bulkImportMode s)
    (imageSelectionMode s) (extractedImages s) v (bottomBarMultiSelect s)
    (selectedBottomBarImages s) (pageSelectionModalOpen s).

Definition setBottomBarMultiSelect (s : ImportState) (v : bool) : ImportState :=
  mkImportState (pages s) (selectedPages s) (bulkImportMode s)
    (imageSelectionMode s) (extractedImages s) (selectedExtractedImages s) v
    (selectedBottomBarImages s) (pageSelectionModalOpen s).

Definition setSelectedBottomBarImages (s : ImportState) (v : list PageInfo.t)
  : ImportState :=
  mkImportState (pages s) (selectedPages s) (bulkImportMode s)
    (imageSelectionMode s) (extractedImages s) (selectedExtractedImages s)
    (bottomBarMultiSelect s) v (pageSelectionModalOpen s).

Definition setPageSelectionModalOpen (s : ImportState) (v : bool)
  : ImportState :=
  mkImportState (pages s) (selectedPages s) (bulkImportMode s)
    (imageSelectionMode s) (extractedImages s) (selectedExtractedImages s)
    (bottomBarMultiSelect s) (selectedBottomBarImages s) v.

(** [array.map((element, index) => ...)], the index counted from [start]. *)
Fixpoint mapFrom {A B : Type} (f : A -> nat -> B) (start : nat) (l : list A)
  : list B :=
  match l with
  | [] => []
  | a :: rest => f a start :: mapFrom f (S start) rest
  end.

Definition mapWithIndex {A B : Type} (f : A -> nat -> B) (l : list A)
  : list B :=
  mapFrom f 0 l.

(** [togglePageSelection(pageIndex)], for an index as the page grid passes
    it (a natural number).  In single-select mode [pages[pageIndex]] is
    [undefined] for an index beyond the array, and the array [[undefined]] is
    no list of pages: [None]. *)
Definition togglePageSelection (st : EditorState) (s : ImportState)
  (pageIndex : nat) : option ImportState :=
  if multiSelectMode st then
    let updatedPages :=
      mapWithIndex
        (fun page index =>
           if Nat.eqb index pageIndex
           then PageInfo.setSelected page (negb (PageInfo.selected page))
           else page)
        (pages s) in
    Some (setPages s updatedPages)
  else
    match nth_error (pages s) pageIndex with
    | Some selectedPage => Some (setSelectedPages s [selectedPage])
    | None => None
    end.

(** [importSelectedPagesToBottomBar()]; the second component is the text of
    the alert, if there is one. *)
Definition importSelectedPagesToBottomBar (s : ImportState)
  : ImportState * option string :=
  let selectedPagesToImport := filter PageInfo.selected (pages s) in
  if Nat.eqb (List.length selectedPagesToImport) 0 then
    (s, Some "Please select at least one page to import"%string)
  else
    let s := setSelectedPages s selectedPagesToImport in
    let updatedPages :=
      map (fun page => PageInfo.setSelected page false) (pages s) in
    let s := setPages s updatedPages in
    (setPageSelectionModalOpen s false, None).

(** [selectAllPages()]. *)
Definition selectAllPages (s : ImportState) : ImportState :=
  let updatedPages :=
    map (fun page => PageInfo.setSelected page true) (pages s) in
  setSelectedPages (setPages s updatedPages) updatedPages.

(** [deselectAllPages()]. *)
Definition deselectAllPages (s : ImportState) : ImportState :=
  let updatedPages :=
    map (fun page => PageInfo.setSelected page false) (pages s) in
  setSelectedPages (setPages s updatedPages) [].

(** [toggleExtractedImageSelection(imageId)]. *)
Definition toggleExtractedImageSelection (s : ImportState) (imageId : string)
  : ImportState :=
  let updatedImages :=
    map (fun img =>
           if String.eqb (ExtractedImage.id img) imageId
           then ExtractedImage.setSelected img
                  (negb (ExtractedImage.selected img))
           else img)
        (extractedImages s) in
  let s := setExtractedImages s updatedImages in
  let newSelectedImages := filter ExtractedImage.selected updatedImages in
  setSelectedExtractedImages s newSelectedImages.

(** [selectAllExtractedImages()]. *)
Definition selectAllExtractedImages (s : ImportState) : ImportState :=
  let updatedImages :=
    map (fun img => ExtractedImage.setSelected img true) (extractedImages s) in
  setSelectedExtractedImages (setExtractedImages s updatedImages) updatedImages.

(** [deselectAllExtractedImages()]. *)
Definition deselectAllExtractedImages (s : ImportState) : ImportState :=
  let updatedImages :=
    map (fun img => ExtractedImage.setSelected img false) (extractedImages s) in
  setSelectedExtractedImages (setExtractedImages s updatedImages) [].

(** ** Putting pages and images on the canvas *)

(** A natural number as a number of the program. *)
Definition Qnat (n : nat) : Q := inject_Z (Z.of_nat n).

(** [`${n}`] for a natural number [n]. *)
Definition decimal (n : nat) : string :=
  NilZero.string_of_uint (Nat.to_uint n).

(** [Math.ceil(Math.sqrt(n))] for the length [n] of an array: the least [c]
    with [n <= c * c]. *)
Definition ceilSqrt (n : nat) : nat := Nat.sqrt_up n.

(** [addImageToCanvas(pageInfo)].  [stamp] stands for
    [`${Date.now()}-${Math.random()}`], [randomX] and [randomY] for the two
    later results of [Math.random()]; [toDataURL()] is taken not to throw. *)
Definition addImageToCanvas (st : EditorState) (stamp : string)
  (randomX randomY : Q) (pageInfo : PageInfo.t) : EditorState :=
  let newImage :=
    CanvasImage.mk
      ("img-" ++ stamp)
      (HTMLCanvas.dataURL (PageInfo.canvas pageInfo))
      (randomX * 200)
      (randomY * 200)
      (HTMLCanvas.width (PageInfo.canvas pageInfo) * (3 # 10))
      (HTMLCanvas.height (PageInfo.canvas pageInfo) * (3 # 10))
      1 1 0 None None None None in
  setCanvasImages st (canvasImages st ++ [newImage]).

(** [toggleBottomBarImageSelection(pageInfo)], with the random inputs of
    [addImageToCanvas]. *)
Definition toggleBottomBarImageSelection (st : EditorState) (s : ImportState)
  (stamp : string) (randomX randomY : Q) (pageInfo : PageInfo.t)
  : EditorState * ImportState :=
  if bottomBarMultiSelect s then
    let isSelected :=
      existsb (fun img =>
                 Z.eqb (PageInfo.pageNumber img) (PageInfo.pageNumber pageInfo))
              (selectedBottomBarImages s) in
    if isSelected then
      (st,
       setSelectedBottomBarImages s
         (filter (fun img =>
                    negb (Z.eqb (PageInfo.pageNumber img)
                                (PageInfo.pageNumber pageInfo)))
                 (selectedBottomBarImages s)))
    else
      (st,
       setSelectedBottomBarImages s (selectedBottomBarImages s ++ [pageInfo]))
  else (addImageToCanvas st stamp randomX randomY pageInfo, s).

(** [selectAllBottomBarImages()]. *)
Definition selectAllBottomBarImages (s : ImportState) : ImportState :=
  setSelectedBottomBarImages s (selectedPages s).

(** [deselectAllBottomBarImages()]. *)
Definition deselectAllBottomBarImages (s : ImportState) : ImportState :=
  setSelectedBottomBarImages s [].

(** [addSelectedBottomBarImagesToCanvas()].  [stamp index] stands for
    [`${Date.now()}-${Math.random()}`] as evaluated for the element at
    [index].  The constant [rows] of the program is never read. *)
Definition addSelectedBottomBarImagesToCanvas (st : EditorState)
  (s : ImportState) (stamp : nat -> string)
  : EditorState * ImportState * option string :=
  if Nat.eqb (List.length (selectedBottomBarImages s)) 0 then
    (st, s, Some "Please select at least one image to add to canvas"%string)
  else
    let cols := ceilSqrt (List.length (selectedBottomBarImages s)) in
    let spacing := 50 in
    let baseWidth := 300 in
    let baseHeight := 400 in
    let newImages :=
      mapWithIndex
        (fun pageInfo index =>
           let col := Nat.modulo index cols in
           let row := Nat.div index cols in
           CanvasImage.mk
             ("img-" ++ stamp index ++ "-" ++ decimal index)
             (HTMLCanvas.dataURL (PageInfo.canvas pageInfo))
             (Qnat col * (baseWidth + spacing) + 50)
             (Qnat row * (baseHeight + spacing) + 50)
             (HTMLCanvas.width (PageInfo.canvas pageInfo) * (3 # 10))
             (HTMLCanvas.height (PageInfo.canvas pageInfo) * (3 # 10))
             1 1 0 None None None None)
        (selectedBottomBarImages s) in
    let st := setCanvasImages st (canvasImages st ++ newImages) in
    let s := setSelectedBottomBarImages s [] in
    let s := setBottomBarMultiSelect s false in
    (st, s, None).

(** [addMultipleImagesToCanvas()]. *)
Definition addMultipleImagesToCanvas (st : EditorState) (s : ImportState)
  (stamp : nat -> string) : EditorState * ImportState * option string :=
  let selectedPagesToAdd := filter PageInfo.selected (pages s) in
  if Nat.eqb (List.length selectedPagesToAdd) 0 then
    (st, s, Some "Please select at least one page to import"%string)
  else
    let cols := ceilSqrt (List.length selectedPagesToAdd) in
    let spacing := 50 in
    let baseWidth := 300 in
    let baseHeight := 400 in
    let newImages :=
      mapWithIndex
        (fun pageInfo index =>
           let col := Nat.modulo index cols in
           let row := Nat.div index cols in
           CanvasImage.mk
             ("img-" ++ stamp index ++ "-" ++ decimal index)
             (HTMLCanvas.dataURL (PageInfo.canvas pageInfo))
             (Qnat col * (baseWidth + spacing) + 50)
             (Qnat row * (baseHeight + spacing) + 50)
             (HTMLCanvas.width (PageInfo.canvas pageInfo) * (3 # 10))
             (HTMLCanvas.height (PageInfo.canvas pageInfo) * (3 # 10))
             1 1 0 None None None None)
        selectedPagesToAdd in
    let st := setCanvasImages st (canvasImages st ++ newImages) in
    let s := setBulkImportMode s false in
    let s := deselectAllPages s in
    (st, setPageSelectionModalOpen s false, None).

(** [addSelectedExtractedImagesToCanvas()]. *)
Definition addSelectedExtractedImagesToCanvas (st : EditorState)
  (s : ImportState) (stamp : nat -> string)
  : EditorState * ImportState * option string :=
  let selectedImages := filter ExtractedImage.selected (extractedImages s) in
  if Nat.eqb (List.length selectedImages) 0 then
    (st, s, Some "Please select at least one image to import"%string)
  else
    let cols := ceilSqrt (List.length selectedImages) in
    let spacing := 50 in
    let baseWidth := 200 in
    let baseHeight := 200 in
    let newImages :=
      mapWithIndex
        (fun extractedImage index =>
           let col := Nat.modulo index cols in
           let row := Nat.div index cols in
           CanvasImage.mk
             ("extracted-img-" ++ stamp index ++ "-" ++ decimal index)
             (ExtractedImage.src extractedImage)
             (Qnat col * (baseWidth + spacing) + 50)
             (Qnat row * (baseHeight + spacing) + 50)
             (ExtractedImage.width extractedImage * (1 # 2))
             (ExtractedImage.height extractedImage * (1 # 2))
             1 1 0 None None None None)
        selectedImages in
    let st := setCanvasImages st (canvasImages st ++ newImages) in
    let s := setImageSelectionMode s false in
    (st, deselectAllExtractedImages s, None).

(** The image a batch import creates for the element [a] at [index]: in a
    grid of [cols] columns with the given pitch, 50 from the top left
    corner. *)
Definition gridImage {A : Type} (idOf : nat -> string) (srcOf : A -> string)
  (widthOf heightOf : A -> Q) (cols : nat) (pitchX pitchY : Q)
  (a : A) (index : nat) : CanvasImage.t :=
  CanvasImage.mk (idOf index) (srcOf a)
    (Qnat (Nat.modulo index cols) * pitchX + 50)
    (Qnat (Nat.div index cols) * pitchY + 50)
    (widthOf a) (heightOf a) 1 1 0 None None None None.

(** No character of the string is a hyphen. *)
Fixpoint noDash (s : string) : Prop :=
  match s with
  | EmptyString => True
  | String c rest => c <> "-"%char /\ noDash rest
  end.

(** What a batch import appends for a nonempty list [l]: one image per
    element, in order, the image of the element at index [k] in column
    [k mod cols] and row [k / cols] of a grid with [cols] columns, [cols]
    the least number whose square is at least the length of [l]; the grid
    has no more rows than columns, and no two images are at the same
    place. *)
Definition gridLayout {A : Type} (srcOf : A -> string)
  (widthOf heightOf : A -> Q) (pitchX pitchY : Q) (l : list A)
  (newImages : list CanvasImage.t) : Prop :=
  let cols := ceilSqrt (List.length l) in
  List.length newImages = List.length l
  /\ (0 < cols)%nat
  /\ (List.length l <= cols * cols)%nat
  /\ ((cols - 1) * (cols - 1) < List.length l)%nat
  /\ (forall k a,
         nth_error l k = Some a ->
         exists img,
           nth_error newImages k = Some img
           /\ CanvasImage.src img = srcOf a
           /\ CanvasImage.x img = Qnat (k mod cols) * pitchX + 50
           /\ CanvasImage.y img = Qnat (k / cols) * pitchY + 50
           /\ (k mod cols < cols)%nat
           /\ (k / cols < cols)%nat
           /\ CanvasImage.width img = widthOf a
           /\ CanvasImage.height img = heightOf a
           /\ CanvasImage.scaleX img = 1
           /\ CanvasImage.scaleY img = 1
           /\ CanvasImage.rotation img = 0)
  /\ (forall j k imgj imgk,
         nth_error newImages j = Some imgj ->
         nth_error newImages k = Some imgk ->
         CanvasImage.x imgj == CanvasImage.x imgk ->
         CanvasImage.y imgj == CanvasImage.y imgk ->
         j = k).

(** ** Concrete import states used in the examples *)

Definition examplePage (n : Z) (selected : bool) : PageInfo.t :=
  PageInfo.mk n (HTMLCanvas.mk 1000 1500 "data:page") selected None.

Definition exampleExtracted (i : string) (selected : bool)
  : ExtractedImage.t :=
  ExtractedImage.mk i "data:region" 0 0 200 300 1 selected.

(** Three pages, the first and the third marked; two extracted images, the
    first marked; all three pages in the bottom bar, two of them selected
    there, in multi-select mode. *)
Definition exampleImport : ImportState :=
  mkImportState
    [examplePage 1 true; examplePage 2 false; examplePage 3 true]
    [examplePage 1 true; examplePage 2 true; examplePage 3 true]
    false false
    [exampleExtracted "extracted-1-0-17" true;
     exampleExtracted "extracted-1-1-17" false]
    [exampleExtracted "extracted-1-0-17" true]
    true
    [examplePage 1 true; examplePage 3 true]
    true.

(** [oneObjectAndMover] with the object [other] selected. *)
Definition otherSelected : EditorState :=
  setSelectedImageId oneObjectAndMover (Some "other"%string).

(** The same in crop mode. *)
Definition otherInCropMode : EditorState := setCropMode otherSelected true.

(** A node dropped at (105, 98), scaled to half its size of 200 by 150. *)
Definition droppedNode : Node.t := Node.mk 105 98 200 150 (1 # 2) (1 # 2) 0.

(** * The snapping functions on doubles

    The same functions once more, on IEEE 754 binary64 numbers, which are
    the numbers of the program: [+], [-], [*], [/] round to the nearest
    double, ties to even, [Math.abs], [<=] and [<] are those of the
    standard, NaN and the infinities included.  Nothing is idealised here;
    the rational model above agrees with this one wherever the program's
    arithmetic is exact. *)
Module Double.

Import PrimFloat.
Local Open Scope float_scope.

(** [!x] for a number: zero, minus zero and NaN are falsy. *)
Definition falsy (x : float) : bool :=
  PrimFloat.eqb x 0 || negb (PrimFloat.eqb x x).

Module CanvasImage.
Record t : Type := mk {
  id : string;
  src : string;
  x : float;
  y : float;
  width : float;
  height : float;
  scaleX : float;
  scaleY : float;
  rotation : float;
  cropX : option float;
  cropY : option float;
  cropWidth : option float;
  cropHeight : option float
}.
End CanvasImage.

Module Position.
Record t : Type := mk { x : float; y : float }.
End Position.

Module Scenario.
Record t : Type := mk { x : float; y : float; priority : float }.
End Scenario.

Module SnapPoints.
Record t : Type := mk { vertical : list float; horizontal : list float }.
End SnapPoints.

Module Size.
Record t : Type := mk { width : float; height : float }.
End Size.

Record EditorState : Type := mkEditorState {
  canvasImages : list CanvasImage.t;
  selectedImageId : option string;
  cropMode : bool;
  snapEnabled : bool;
  activeSnapGuides : list float * list float;
  multiSelectMode : bool;
  canvasSize : Size.t
}.

Definition SNAP_TOLERANCE : float := 10.

(** [snapToValue(value, snapPoints, tolerance)]: the [for ... of] loop
    returns from inside at the first point for which
    [Math.abs(value - point) <= tolerance]. *)
Fixpoint snapToValue (value : float) (snapPoints : list float)
  (tolerance : float) : float :=
  match snapPoints with
  | [] => value
  | point :: rest =>
      if PrimFloat.leb (PrimFloat.abs (value - point)) tolerance
      then point
      else snapToValue value rest tolerance
  end.

(** The body of the [forEach] callback of [getSnapPoints]: six pushes. *)
Definition pushImagePoints (snapPoints : SnapPoints.t) (img : CanvasImage.t)
  : SnapPoints.t :=
  let v := SnapPoints.vertical snapPoints in
  let v := push v (CanvasImage.x img) in
  let v := push v (CanvasImage.x img + CanvasImage.width img / 2) in
  let v := push v (CanvasImage.x img + CanvasImage.width img) in
  let h := SnapPoints.horizontal snapPoints in
  let h := push h (CanvasImage.y img) in
  let h := push h (CanvasImage.y img + CanvasImage.height img / 2) in
  let h := push h (CanvasImage.y img + CanvasImage.height img) in
  SnapPoints.mk v h.

(** [getSnapPoints(excludeId?)]: the canvas points, then the points of the
    images that pass the filter, in their order. *)
Definition getSnapPoints (st : EditorState) (excludeId : option string)
  : SnapPoints.t :=
  let snapPoints :=
    SnapPoints.mk
      [0; Size.width (canvasSize st); Size.width (canvasSize st) / 2]
      [0; Size.height (canvasSize st); Size.height (canvasSize st) / 2] in
  fold_left pushImagePoints
    (filter (fun img => id_differs (CanvasImage.id img) excludeId)
            (canvasImages st))
    snapPoints.

(** The array literal [snapScenarios] of [applySnapping]: left edge, right
    edge, center, bottom edge. *)
Definition snapScenarios (snapPoints : SnapPoints.t)
  (newX newY width height : float) : list Scenario.t :=
  let left := newX in
  let right := newX + width in
  let centerX := newX + width / 2 in
  let top := newY in
  let bottom := newY + height in
  let centerY := newY + height / 2 in
  let vertical := SnapPoints.vertical snapPoints in
  let horizontal := SnapPoints.horizontal snapPoints in
  [ Scenario.mk (snapToValue left vertical SNAP_TOLERANCE)
                (snapToValue top horizontal SNAP_TOLERANCE)
                1;
    Scenario.mk (snapToValue right vertical SNAP_TOLERANCE - width)
                (snapToValue top horizontal SNAP_TOLERANCE)
                1;
    Scenario.mk (snapToValue centerX vertical SNAP_TOLERANCE - width / 2)
                (snapToValue centerY horizontal SNAP_TOLERANCE - height / 2)
                2;
    Scenario.mk (snapToValue left vertical SNAP_TOLERANCE)
                (snapToValue bottom horizontal SNAP_TOLERANCE - height)
                1 ].

Definition distanceX (newX : float) (scenario : Scenario.t) : float :=
  PrimFloat.abs (Scenario.x scenario - newX).

Definition distanceY (newY : float) (scenario : Scenario.t) : float :=
  PrimFloat.abs (Scenario.y scenario - newY).

Definition totalDistance (newX newY : float) (scenario : Scenario.t) : float :=
  distanceX newX scenario + distanceY newY scenario.

Definition withinTolerance (newX newY : float) (scenario : Scenario.t)
  : bool :=
  PrimFloat.leb (distanceX newX scenario) SNAP_TOLERANCE
  || PrimFloat.leb (distanceY newY scenario) SNAP_TOLERANCE.

Definition adjustedDistance (newX newY : float) (scenario : Scenario.t)
  : float :=
  totalDistance newX newY scenario + (Scenario.priority scenario - 1) * 5.

(** One run of the callback of [snapScenarios.forEach] on the loop state
    [(bestSnap, minDistance)]. *)
Definition considerScenario (newX newY : float) (acc : Position.t * float)
  (scenario : Scenario.t) : Position.t * float :=
  if withinTolerance newX newY scenario then
    let adjusted := adjustedDistance newX newY scenario in
    if PrimFloat.ltb adjusted (snd acc) && PrimFloat.ltb adjusted 50
    then (Position.mk (Scenario.x scenario) (Scenario.y scenario), adjusted)
    else acc
  else acc.

(** The whole [forEach], from [bestSnap = {x: newX, y: newY}] and
    [minDistance = Infinity]. *)
Definition findBestSnap (newX newY : float) (scenarios : list Scenario.t)
  : Position.t * float :=
  fold_left (considerScenario newX newY) scenarios
    (Position.mk newX newY, PrimFloat.infinity).

(** [applySnapping(imageId, newX, newY, width, height)].  The tests
    [!snapPoints || ...] and the [catch] branch cannot be reached:
    [getSnapPoints] returns an object with two arrays and nothing in the
    body throws. *)
Definition applySnapping (st : EditorState) (imageId : string)
  (newX newY width height : float) : Position.t :=
  if negb (snapEnabled st)
     || falsy (Size.width (canvasSize st))
     || falsy (Size.height (canvasSize st))
  then Position.mk newX newY
  else
    let snapPoints := getSnapPoints st (Some imageId) in
    fst (findBestSnap newX newY
           (snapScenarios snapPoints newX newY width height)).

(** The position of the Konva node of an image, as [node.x()] and
    [node.y()] return it. *)
Module Node.
Record t : Type := mk {
  x : float;
  y : float;
  width : float;
  height : float;
  scaleX : float;
  scaleY : float;
  rotation : float
}.
End Node.

Definition setActiveSnapGuides (st : EditorState)
  (guides : list float * list float) : EditorState :=
  mkEditorState (canvasImages st) (selectedImageId st) (cropMode st)
    (snapEnabled st) guides (multiSelectMode st) (canvasSize st).

(** [onDragStart] of a placed image: the guides are the snap points for
    which [Math.abs(p - node.x()) <= snapTolerance * 3] (resp. [node.y()]);
    the component is given [SNAP_TOLERANCE] as its [snapTolerance]. *)
Definition onDragStart (st : EditorState) (image : CanvasImage.t)
  (node : Node.t) : EditorState :=
  let snapPoints := getSnapPoints st (Some (CanvasImage.id image)) in
  setActiveSnapGuides st
    (filter (fun x =>
               PrimFloat.leb (PrimFloat.abs (x - Node.x node))
                             (SNAP_TOLERANCE * 3))
            (SnapPoints.vertical snapPoints),
     filter (fun y =>
               PrimFloat.leb (PrimFloat.abs (y - Node.y node))
                             (SNAP_TOLERANCE * 3))
            (SnapPoints.horizontal snapPoints)).

(** ** Concrete states *)

Definition image (i : string) (x y w h : float) : CanvasImage.t :=
  CanvasImage.mk i EmptyString x y w h 1 1 0 None None None None.

Definition editor (imgs : list CanvasImage.t) (enabled : bool)
  (cw ch : float) : EditorState :=
  mkEditorState imgs None false enabled ([], []) true (Size.mk cw ch).

(** Canvas 800x600 with one placed object at (100,100), 200 wide, 150 high. *)
Definition oneObject : EditorState :=
  editor [image "other" 100 100 200 150] true 800 600.

(** Two objects that share the line x = 5; [mover] is 5 wide and sits on
    it. *)
Definition sharedEdge : EditorState :=
  editor [image "mover" 5 0 5 50; image "b" 5 50 100 100] true 800 600.

(** Canvas 800x600 with objects at x = 0.3 and x = 10.3 (the doubles
    nearest to these), whose difference rounds to 10. *)
Definition atTolerance : EditorState :=
  editor [image "a" 0x1.3333333333333p-2 0 1000 50;
          image "c" 0x1.499999999999ap+3 0 200 50] true 800 600.

(** Canvas 800x600 with one object at (0.3, 0.3). *)
Definition cornerObject : EditorState :=
  editor [image "a" 0x1.3333333333333p-2 0x1.3333333333333p-2 1000 1000]
    true 800 600.

(** A Konva node at a position, at the size of an image. *)
Definition nodeAt (x y : float) (img : CanvasImage.t) : Node.t :=
  Node.mk x y (CanvasImage.width img) (CanvasImage.height img) 1 1 0.

(** ** Vocabulary of the statements on doubles *)

(** A number in the sense of [x === x]: anything but NaN. *)
Definition isNumber (x : float) : Prop :=
  FloatOps.Prim2SF x <> SpecFloat.S754_nan.

(** Not negative: zero of either sign, a positive number, plus infinity,
    or NaN. *)
Definition SFnonneg (f : SpecFloat.spec_float) : Prop :=
  match f with
  | SpecFloat.S754_zero _ => True
  | SpecFloat.S754_nan => True
  | SpecFloat.S754_infinity s => s = false
  | SpecFloat.S754_finite s _ _ => s = false
  end.

Definition nonneg (x : float) : Prop := SFnonneg (FloatOps.Prim2SF x).

(** [p] is the first point of [points] with [Math.abs(v - p) <= t], the
    difference being the rounded one the program computes. *)
Definition first_within (v : float) (points : list float) (t p : float)
  : Prop :=
  exists before after,
    points = before ++ p :: after
    /\ Forall (fun q => PrimFloat.leb (PrimFloat.abs (v - q)) t = false) before
    /\ PrimFloat.leb (PrimFloat.abs (v - p)) t = true.

(** [x] is a member of [points], and no earlier member is within the
    tolerance of it: the program's test [Math.abs(x - q) <= 10] fails for
    every member [q] before it. *)
Definition settled (x : float) (points : list float) : Prop :=
  exists before after,
    points = before ++ x :: after
    /\ Forall (fun q =>
                 PrimFloat.leb (PrimFloat.abs (x - q)) SNAP_TOLERANCE = false)
              before.

(** The position a scenario proposes. *)
Definition positionOf (s : Scenario.t) : Position.t :=
  Position.mk (Scenario.x s) (Scenario.y s).

(** A scenario is eligible when it is within the tolerance of the proposed
    position on the x axis or on the y axis. *)
Definition eligible (newX newY : float) (s : Scenario.t) : Prop :=
  PrimFloat.leb (PrimFloat.abs (Scenario.x s - newX)) 10 = true
  \/ PrimFloat.leb (PrimFloat.abs (Scenario.y s - newY)) 10 = true.

(** The score of a scenario: both distances, and 5 for each priority level
    above 1. *)
Definition score (newX newY : float) (s : Scenario.t) : float :=
  (PrimFloat.abs (Scenario.x s - newX) + PrimFloat.abs (Scenario.y s - newY))
  + (Scenario.priority s - 1) * 5.

(** The callback can accept a scenario: it is within tolerance and its
    adjusted distance is under the ceiling of 50. *)
Definition qualifies (newX newY : float) (s : Scenario.t) : Prop :=
  withinTolerance newX newY s = true
  /\ PrimFloat.ltb (adjustedDistance newX newY s) 50 = true.

(** [r] is the position of the earliest scenario, in the order of the list,
    among the eligible scenarios of least score, that score being under 50;
    scores that are NaN compare with nothing and take no part.  When no
    eligible scenario has a score under 50, [r] is the proposed position. *)
Definition earliest_minimum (newX newY : float) (scenarios : list Scenario.t)
  (r : Position.t) : Prop :=
  (exists before s after,
      scenarios = before ++ s :: after
      /\ eligible newX newY s
      /\ PrimFloat.ltb (score newX newY s) 50 = true
      /\ (forall s', In s' before -> eligible newX newY s' ->
                     isNumber (score newX newY s') ->
                     PrimFloat.ltb (score newX newY s) (score newX newY s')
                     = true)
      /\ (forall s', In s' after -> eligible newX newY s' ->
                     isNumber (score newX newY s') ->
                     PrimFloat.leb (score newX newY s) (score newX newY s')
                     = true)
      /\ r = positionOf s)
  \/ ((forall s, In s scenarios -> eligible newX newY s ->
                 PrimFloat.ltb (score newX newY s) 50 = false)
      /\ r = Position.mk newX newY).

(** ** Vocabulary of rounding

    A finite double is a sign, a mantissa [m] and an exponent [e], and
    stands for [m * 2^e]; exponents are at least -1074. *)

(** The value [m * 2^e] in units of [2^-1074], the least positive double. *)
Definition scaled (m e : Z) : Z := (m * 2 ^ (e + 1074))%Z.

(** A mantissa and exponent as a positive double has them: at most 53
    bits, exactly 53 above the least exponent. *)
Definition normal (m e : Z) : Prop :=
  (-1074 <= e /\ 0 < m < 2 ^ 53 /\ (-1074 < e -> 2 ^ 52 <= m))%Z.

(** A double that is zero or a positive finite number. *)
Definition regular (f : SpecFloat.spec_float) : Prop :=
  match f with
  | SpecFloat.S754_zero _ => True
  | SpecFloat.S754_finite s m e =>
      s = false /\ normal (Zpos m) e /\ (e <= 971)%Z
  | _ => False
  end.

(** Its value, in units of the least positive double. *)
Definition SFscaled (f : SpecFloat.spec_float) : Z :=
  match f with
  | SpecFloat.S754_finite _ m e => scaled (Zpos m) e
  | _ => 0%Z
  end.

(** After [k] right shifts of [m0] the record holds [m0] without its [k] low
    bits, and its round and sticky bits are clear when those bits were
    zero. *)
Definition shifted (m0 k : Z) (mrs : SpecFloat.shr_record) : Prop :=
  (0 <= SpecFloat.shr_m mrs
   /\ SpecFloat.shr_m mrs * 2 ^ k <= m0 < (SpecFloat.shr_m mrs + 1) * 2 ^ k
   /\ (m0 = SpecFloat.shr_m mrs * 2 ^ k ->
       SpecFloat.shr_r mrs = false /\ SpecFloat.shr_s mrs = false))%Z.

(** What [binary_round_aux] makes of a mantissa and an exponent. *)
Definition rounded (m e : Z) : SpecFloat.spec_float :=
  match m with
  | Z0 => SpecFloat.S754_zero false
  | Zpos p =>
      if (e <=? 971)%Z then SpecFloat.S754_finite false p e
      else SpecFloat.S754_infinity false
  | Zneg _ => SpecFloat.S754_nan
  end.

End Double.

(** * Properties *)

(** ** Comparisons *)

Lemma Qlt_bool_iff (a b : Q) : Qlt_bool a b = true <-> a < b.
Proof.
  unfold Qlt_bool. rewrite negb_true_iff.
  split; intro H.
  - apply Qnot_le_lt. intro L. apply Qle_bool_iff in L. congruence.
  - destruct (Qle_bool b a) eqn:E; trivial.
    apply Qle_bool_iff in E. exfalso. apply (Qlt_not_le _ _ H E).
Qed.

Lemma Qlt_bool_false_iff (a b : Q) : Qlt_bool a b = false <-> b <= a.
Proof.
  unfold Qlt_bool. rewrite negb_false_iff. apply Qle_bool_iff.
Qed.

Lemma Qle_bool_false_iff (a b : Q) : Qle_bool a b = false <-> ~ a <= b.
Proof.
  rewrite <- Qle_bool_iff. destruct (Qle_bool a b); intuition congruence.
Qed.

(** [Math.abs] of a difference, unfolded for linear arithmetic. *)
Ltac split_abs :=
  repeat match goal with
  | |- context [Qabs ?e] =>
      let a := fresh "a" in
      let Ha := fresh "Ha" in
      remember (Qabs e) as a eqn:Ha;
      assert (0 <= a /\ (a == e \/ a == - e))
        by (subst a; split;
            [ apply Qabs_nonneg
            | apply (Qabs_case e (fun r => r == e \/ r == - e));
              intros _; [left | right]; reflexivity ]);
      clear Ha
  | H : context [Qabs ?e] |- _ =>
      let a := fresh "a" in
      let Ha := fresh "Ha" in
      remember (Qabs e) as a eqn:Ha;
      assert (0 <= a /\ (a == e \/ a == - e))
        by (subst a; split;
            [ apply Qabs_nonneg
            | apply (Qabs_case e (fun r => r == e \/ r == - e));
              intros _; [left | right]; reflexivity ]);
      clear Ha
  end.

Ltac abs_lra :=
  split_abs;
  repeat match goal with
  | H : _ /\ _ |- _ => destruct H
  | H : _ \/ _ |- _ => destruct H
  end;
  lra.

(** ** [snapToValue] *)


Lemma first_within_snapToValue (v : Q) (points : list Q) (t p : Q) :
  first_within v points t p -> snapToValue v points t = p.
Proof.
  intros (before & after & -> & Hfar & Hnear).
  induction before as [|q before IH]; cbn [snapToValue app].
  - apply Qle_bool_iff in Hnear. now rewrite Hnear.
  - inversion Hfar as [|? ? Hq Hrest]; subst.
    apply Qle_bool_false_iff in Hq. rewrite Hq. now apply IH.
Qed.


(** ** [getSnapPoints] *)

Lemma id_differs_iff (i : string) (excludeId : option string) :
  id_differs i excludeId = true <-> Some i <> excludeId.
Proof.
  destruct excludeId as [e|]; simpl.
  - rewrite negb_true_iff. destruct (String.eqb_spec i e) as [->|Hne].
    + split; [discriminate | intros H; now elim H].
    + split; [intros _ [=]; contradiction | reflexivity].
  - split; [discriminate | reflexivity].
Qed.

Lemma In_otherImages (st : EditorState) (excludeId : option string)
  (img : CanvasImage.t) :
  In img (otherImages st excludeId)
  <-> In img (canvasImages st) /\ Some (CanvasImage.id img) <> excludeId.
Proof.
  unfold otherImages. rewrite filter_In, id_differs_iff. reflexivity.
Qed.

(** The pushes of the loop, collected. *)
Lemma fold_pushImagePoints (imgs : list CanvasImage.t) (sp : SnapPoints.t) :
  fold_left pushImagePoints imgs sp
  = SnapPoints.mk
      (SnapPoints.vertical sp ++ flat_map verticalPointsOf imgs)
      (SnapPoints.horizontal sp ++ flat_map horizontalPointsOf imgs).
Proof.
  revert sp. induction imgs as [|img imgs IH]; intros [v h].
  - simpl. now rewrite !app_nil_r.
  - cbn [fold_left]. rewrite IH. unfold pushImagePoints, push.
    cbn [SnapPoints.vertical SnapPoints.horizontal flat_map].
    unfold verticalPointsOf, horizontalPointsOf.
    rewrite <- !app_assoc. reflexivity.
Qed.

Lemma getSnapPoints_eq (st : EditorState) (excludeId : option string) :
  getSnapPoints st excludeId
  = SnapPoints.mk
      ([0; Size.width (canvasSize st); Size.width (canvasSize st) / 2]
         ++ flat_map verticalPointsOf (otherImages st excludeId))
      ([0; Size.height (canvasSize st); Size.height (canvasSize st) / 2]
         ++ flat_map horizontalPointsOf (otherImages st excludeId)).
Proof.
  unfold getSnapPoints. rewrite fold_pushImagePoints. reflexivity.
Qed.

Lemma length_flat_map_three {A B : Type} (f : A -> list B) (l : list A) :
  (forall a, List.length (f a) = 3%nat) ->
  List.length (flat_map f l) = (3 * List.length l)%nat.
Proof.
  intros Hf. induction l as [|a l IH]; simpl; trivial.
  rewrite List.length_app, Hf, IH. lia.
Qed.

(** C7.  For every optional [excludeId], the vertical points returned by
    [getSnapPoints] are [0; canvasWidth; canvasWidth/2] followed, for each
    placed object whose id differs from [excludeId], in list order, by its
    [x], [x + width/2], [x + width]; the horizontal points are
    [0; canvasHeight; canvasHeight/2] followed by [y], [y + height/2],
    [y + height] of the same objects.  Nothing is dropped or reordered (three
    points per axis for each such object, duplicates included), and with no
    such object each axis holds exactly the three canvas points. *)
Theorem getSnapPoints_construction :
  forall (st : EditorState) (excludeId : option string),
    let others := otherImages st excludeId in
    (exists keep,
        (forall img, keep img = true <-> Some (CanvasImage.id img) <> excludeId)
        /\ others = filter keep (canvasImages st))
    /\ SnapPoints.vertical (getSnapPoints st excludeId)
       = [0; Size.width (canvasSize st); Size.width (canvasSize st) / 2]
           ++ flat_map
                (fun img => [ CanvasImage.x img;
                              CanvasImage.x img + CanvasImage.width img / 2;
                              CanvasImage.x img + CanvasImage.width img ])
                others
    /\ SnapPoints.horizontal (getSnapPoints st excludeId)
       = [0; Size.height (canvasSize st); Size.height (canvasSize st) / 2]
           ++ flat_map
                (fun img => [ CanvasImage.y img;
                              CanvasImage.y img + CanvasImage.height img / 2;
                              CanvasImage.y img + CanvasImage.height img ])
                others
    /\ List.length (SnapPoints.vertical (getSnapPoints st excludeId))
       = (3 + 3 * List.length others)%nat
    /\ List.length (SnapPoints.horizontal (getSnapPoints st excludeId))
       = (3 + 3 * List.length others)%nat
    /\ (others = [] ->
        getSnapPoints st excludeId
        = SnapPoints.mk
            [0; Size.width (canvasSize st); Size.width (canvasSize st) / 2]
            [0; Size.height (canvasSize st); Size.height (canvasSize st) / 2]).
Proof.
  intros st excludeId others.
  rewrite getSnapPoints_eq. fold others.
  cbn [SnapPoints.vertical SnapPoints.horizontal].
  split.
  { exists (fun img => id_differs (CanvasImage.id img) excludeId).
    split; [intros img; apply id_differs_iff | reflexivity]. }
  repeat split.
  - rewrite List.length_app, (length_flat_map_three verticalPointsOf); trivial.
  - rewrite List.length_app, (length_flat_map_three horizontalPointsOf); trivial.
  - intros ->. reflexivity.
Qed.

Lemma In_withoutId (i : string) (imgs : list CanvasImage.t)
  (img : CanvasImage.t) :
  In img (withoutId i imgs) <-> In img imgs /\ CanvasImage.id img <> i.
Proof.
  unfold withoutId. rewrite filter_In, negb_true_iff.
  destruct (String.eqb_spec (CanvasImage.id img) i); intuition congruence.
Qed.

Lemma otherImages_withoutId (st : EditorState) (i : string) :
  otherImages (withImages st (withoutId i (canvasImages st))) (Some i)
  = otherImages st (Some i).
Proof.
  unfold otherImages, withoutId, withImages, id_differs.
  cbn [canvasImages].
  induction (canvasImages st) as [|img imgs IH]; cbn [filter]; trivial.
  destruct (negb (CanvasImage.id img =? i)%string) eqn:E; cbn [filter].
  - rewrite E. now f_equal.
  - exact IH.
Qed.

(** C5.  [getSnapPoints(id)] holds no point derived from the object called
    [id]: the objects that contribute points all carry another id, every
    point beyond the three canvas points of an axis is one of theirs, and the
    result is the one obtained from the list with the object [id] taken out.
    (A contributing object, or the canvas, may still produce a number that
    equals one of the excluded object's.)  The object need not even be in
    the list. *)
Theorem getSnapPoints_excludes_self :
  forall (st : EditorState) (i : string),
    (exists contributors,
        Forall (fun img => CanvasImage.id img <> i) contributors
        /\ SnapPoints.vertical (getSnapPoints st (Some i))
           = [0; Size.width (canvasSize st); Size.width (canvasSize st) / 2]
               ++ flat_map verticalPointsOf contributors
        /\ SnapPoints.horizontal (getSnapPoints st (Some i))
           = [0; Size.height (canvasSize st); Size.height (canvasSize st) / 2]
               ++ flat_map horizontalPointsOf contributors)
    /\ getSnapPoints st (Some i)
       = getSnapPoints (withImages st (withoutId i (canvasImages st))) (Some i)
    /\ Forall (fun img => CanvasImage.id img <> i)
              (withoutId i (canvasImages st)).
Proof.
  intros st i. split; [|split].
  - exists (otherImages st (Some i)). split.
    + apply Forall_forall. intros img Hin.
      apply In_otherImages in Hin. destruct Hin as [_ Hne].
      congruence.
    + rewrite getSnapPoints_eq. split; reflexivity.
  - rewrite !getSnapPoints_eq, otherImages_withoutId. reflexivity.
  - apply Forall_forall. intros img Hin.
    now apply In_withoutId in Hin.
Qed.

Lemma otherImages_points_geometry (keep : string -> bool)
  (imgs1 imgs2 : list CanvasImage.t) :
  map geometry imgs1 = map geometry imgs2 ->
  flat_map verticalPointsOf
    (filter (fun img => keep (CanvasImage.id img)) imgs1)
  = flat_map verticalPointsOf
      (filter (fun img => keep (CanvasImage.id img)) imgs2)
  /\ flat_map horizontalPointsOf
       (filter (fun img => keep (CanvasImage.id img)) imgs1)
     = flat_map horizontalPointsOf
         (filter (fun img => keep (CanvasImage.id img)) imgs2).
Proof.
  revert imgs2.
  induction imgs1 as [|a imgs1 IH]; intros [|b imgs2] Hmap;
    try discriminate; [split; reflexivity|].
  cbn [map] in Hmap. unfold geometry at 1 3 in Hmap.
  injection Hmap as Hid Hx Hy Hw Hh Hrest.
  destruct (IH _ Hrest) as [IHv IHh].
  cbn [filter]. rewrite Hid.
  destruct (keep (CanvasImage.id b)); [|now split].
  cbn [flat_map]. rewrite IHv, IHh.
  unfold verticalPointsOf at 1 3, horizontalPointsOf at 1 3.
  rewrite Hx, Hy, Hw, Hh. split; reflexivity.
Qed.

Lemma getSnapPoints_geometry (st1 st2 : EditorState)
  (excludeId : option string) :
  map geometry (canvasImages st1) = map geometry (canvasImages st2) ->
  canvasSize st1 = canvasSize st2 ->
  getSnapPoints st1 excludeId = getSnapPoints st2 excludeId.
Proof.
  intros Himgs Hsize. rewrite !getSnapPoints_eq, Hsize. unfold otherImages.
  destruct (otherImages_points_geometry
              (fun i => id_differs i excludeId) _ _ Himgs) as [-> ->].
  reflexivity.
Qed.

(** ** The scenario loop of [applySnapping] *)

Section ScenarioLoop.

Variables newX newY : Q.






End ScenarioLoop.

(** ** [applySnapping] *)








(** C4.  When snapping is switched off, or the canvas is zero wide, or zero
    high, [applySnapping] returns the proposed position as it is. *)
Theorem applySnapping_identity_pass_through :
  forall (st : EditorState) (imageId : string) (newX newY width height : Q),
    snapEnabled st = false
    \/ Size.width (canvasSize st) == 0
    \/ Size.height (canvasSize st) == 0 ->
    applySnapping st imageId newX newY width height = Position.mk newX newY.
Proof.
  intros st imageId newX newY width height H. unfold applySnapping.
  destruct H as [He | [Hw | Hh]].
  - rewrite He. reflexivity.
  - apply Qeq_bool_iff in Hw. rewrite Hw, orb_true_r. reflexivity.
  - apply Qeq_bool_iff in Hh. rewrite Hh, orb_true_r. reflexivity.
Qed.

(** C8.  The result of [applySnapping] is a function of the placed objects'
    ids, positions and sizes, the canvas frame, the snap-enabled flag, and the
    arguments of the call: two states that agree on these give the same
    result for the same call, whatever else they hold (sources, scales,
    rotations, crops, the selection, the active guides).  Two calls in the
    same state are a special case. *)
Theorem applySnapping_deterministic :
  forall (st1 st2 : EditorState) (imageId : string)
         (newX newY width height : Q),
    map geometry (canvasImages st1) = map geometry (canvasImages st2) ->
    canvasSize st1 = canvasSize st2 ->
    snapEnabled st1 = snapEnabled st2 ->
    applySnapping st1 imageId newX newY width height
    = applySnapping st2 imageId newX newY width height.
Proof.
  intros st1 st2 imageId newX newY width height Himgs Hsize Hen.
  unfold applySnapping.
  rewrite (getSnapPoints_geometry st1 st2 _ Himgs Hsize), Hsize, Hen.
  reflexivity.
Qed.

(** ** Worked examples *)


(** C1, the example as the specification has it, refuted: on a canvas of
    800x600 with one other object at (100,100), 200 wide and 150 high, the
    call for the proposed position (105, 98) and size 50x50 does not return
    (100, 100). *)
Lemma applySnapping_example_not_100_100 :
  ~ Position.eqv (applySnapping oneObject "moving" 105 98 50 50)
                 (Position.mk 100 100).
Proof.
  intros [Hx _]. vm_compute in Hx. discriminate Hx.
Qed.

(** C1, as amended.  In that configuration the four scenarios score 7 (left
    edge), 2 (right edge: x stays 105, y snaps to 100), 5 (center) and 5
    (bottom edge), and [applySnapping] returns exactly (105, 100), whether or
    not the moving object is itself in the list of placed objects. *)
Theorem applySnapping_example :
  applySnapping oneObject "moving" 105 98 50 50 = Position.mk 105 100
  /\ applySnapping oneObjectAndMover "moving" 105 98 50 50
     = Position.mk 105 100
  /\ Forall2 Qeq
       (map (adjustedDistance 105 98)
            (snapScenarios (getSnapPoints oneObject (Some "moving"%string))
                           105 98 50 50))
       [7; 2; 5; 5].
Proof.
  split; [vm_compute; reflexivity|].
  split; [vm_compute; reflexivity|].
  repeat constructor; vm_compute; reflexivity.
Qed.

(** ** The theorems at concrete inputs *)


Lemma applySnapping_identity_pass_through_witness :
  (snapEnabled snappingOff = false
   \/ Size.width (canvasSize snappingOff) == 0
   \/ Size.height (canvasSize snappingOff) == 0)
  /\ applySnapping snappingOff "moving" 105 98 50 50 = Position.mk 105 98.
Proof.
  assert (H : snapEnabled snappingOff = false
              \/ Size.width (canvasSize snappingOff) == 0
              \/ Size.height (canvasSize snappingOff) == 0)
    by (left; reflexivity).
  split; [exact H|].
  exact (applySnapping_identity_pass_through snappingOff "moving"
           105 98 50 50 H).
Defined.

Lemma applySnapping_deterministic_witness :
  map geometry (canvasImages oneObject)
  = map geometry (canvasImages oneObjectElsewhere)
  /\ canvasSize oneObject = canvasSize oneObjectElsewhere
  /\ snapEnabled oneObject = snapEnabled oneObjectElsewhere
  /\ applySnapping oneObject "moving" 105 98 50 50
     = applySnapping oneObjectElsewhere "moving" 105 98 50 50.
Proof.
  repeat (split; [reflexivity|]).
  apply (applySnapping_deterministic oneObject oneObjectElsewhere "moving"
           105 98 50 50); reflexivity.
Defined.

(** * Further properties of the program *)

(** ** [snapToGrid] *)

Lemma Math_round_bounds (v : Q) :
  v - (1 # 2) < inject_Z (Math_round v) /\ inject_Z (Math_round v) <= v + (1 # 2).
Proof.
  unfold Math_round.
  pose proof (Qfloor_le (v + (1 # 2))) as Hle.
  pose proof (Qlt_floor (v + (1 # 2))) as Hlt.
  rewrite inject_Z_plus in Hlt. change (inject_Z 1) with 1 in Hlt.
  split; lra.
Qed.

(** [snapToGrid] returns a multiple of the grid size 20 that is at most 10
    away from its argument, and strictly less than 10 below it: a value
    midway between two grid lines goes to the upper one. *)
Theorem snapToGrid_nearest_grid_line :
  forall value : Q,
    (exists k : Z, snapToGrid value = inject_Z k * GRID_SIZE)
    /\ value - 10 < snapToGrid value
    /\ snapToGrid value <= value + 10.
Proof.
  intros value. split; [eexists; reflexivity|].
  unfold snapToGrid.
  destruct (Math_round_bounds (value / GRID_SIZE)) as [Hlo Hhi].
  revert Hlo Hhi. generalize (inject_Z (Math_round (value / GRID_SIZE))).
  intros r Hlo Hhi.
  assert (Hdiv : value / GRID_SIZE * 20 == value)
    by (unfold GRID_SIZE; field).
  unfold GRID_SIZE in *. split; lra.
Qed.

(** A value on a grid line is left where it is, so that [snapToGrid] is
    idempotent. *)
Theorem snapToGrid_idempotent :
  forall value : Q,
    (forall k : Z, snapToGrid (inject_Z k * GRID_SIZE) == inject_Z k * GRID_SIZE)
    /\ snapToGrid (snapToGrid value) == snapToGrid value.
Proof.
  assert (Hgrid : forall k : Z,
             snapToGrid (inject_Z k * GRID_SIZE) == inject_Z k * GRID_SIZE).
  { intros k. unfold snapToGrid, Math_round.
    assert (E : inject_Z k * GRID_SIZE / GRID_SIZE + (1 # 2)
                == inject_Z k + (1 # 2)) by (unfold GRID_SIZE; field).
    rewrite (Qfloor_comp _ _ E). clear E.
    assert (Hk : Qfloor (inject_Z k + (1 # 2)) = k).
    { pose proof (Qfloor_le (inject_Z k + (1 # 2))) as Hle.
      pose proof (Qlt_floor (inject_Z k + (1 # 2))) as Hlt.
      set (f := Qfloor (inject_Z k + (1 # 2))) in *. clearbody f.
      rewrite inject_Z_plus in Hlt. change (inject_Z 1) with 1 in Hlt.
      assert (H1 : inject_Z f < inject_Z (k + 1)).
      { rewrite inject_Z_plus. change (inject_Z 1) with 1. lra. }
      assert (H2 : inject_Z k < inject_Z (f + 1)).
      { rewrite inject_Z_plus. change (inject_Z 1) with 1. lra. }
      rewrite <- Zlt_Qlt in H1, H2. lia. }
    rewrite Hk. reflexivity. }
  intros value. split; [exact Hgrid|].
  unfold snapToGrid at 2. apply Hgrid.
Qed.

(** ** [detectImageRegions] *)

Lemma In_loopIndices (n i : Z) : In i (loopIndices n) <-> (0 <= i < n)%Z.
Proof.
  unfold loopIndices. rewrite in_map_iff. split.
  - intros (k & <- & Hk). apply in_seq in Hk. lia.
  - intros Hi. exists (Z.to_nat i). split; [lia|]. apply in_seq. lia.
Qed.

Lemma length_loopIndices (n : Z) : List.length (loopIndices n) = Z.to_nat n.
Proof.
  unfold loopIndices. now rewrite length_map, length_seq.
Qed.

Lemma flat_map_all_nil {A B : Type} (f : A -> list B) (l : list A) :
  (forall a, In a l -> f a = []) -> flat_map f l = [].
Proof.
  induction l as [|a l IH]; intros H; cbn [flat_map]; trivial.
  rewrite (H a) by (left; reflexivity).
  apply IH. intros b Hb. apply H. now right.
Qed.

Lemma flat_map_all_singleton {A B : Type} (f : A -> list B) (g : A -> B)
  (l : list A) :
  (forall a, In a l -> f a = [g a]) -> flat_map f l = map g l.
Proof.
  induction l as [|a l IH]; intros H; cbn [flat_map map]; trivial.
  rewrite (H a) by (left; reflexivity).
  rewrite IH by (intros b Hb; apply H; now right). reflexivity.
Qed.

Lemma flat_map_ext_in {A B : Type} (f g : A -> list B) (l : list A) :
  (forall a, In a l -> f a = g a) -> flat_map f l = flat_map g l.
Proof.
  induction l as [|a l IH]; intros H; cbn [flat_map]; trivial.
  rewrite (H a) by (left; reflexivity).
  rewrite IH by (intros b Hb; apply H; now right). reflexivity.
Qed.

Lemma length_flat_map_const {A B : Type} (f : A -> list B) (l : list A)
  (n : nat) :
  (forall a, In a l -> List.length (f a) = n) ->
  List.length (flat_map f l) = (List.length l * n)%nat.
Proof.
  induction l as [|a l IH]; intros H; cbn [flat_map List.length]; trivial.
  rewrite List.length_app, (H a) by (left; reflexivity).
  rewrite IH by (intros b Hb; apply H; now right). lia.
Qed.

(** A block that starts at a multiple [i] of the block size, [i] below the
    number of whole blocks, fits into the extent. *)
Lemma whole_block_fits (extent blockSize : Q) (i : Z) :
  0 < blockSize ->
  (0 <= i < Qfloor (extent / blockSize))%Z ->
  0 <= inject_Z i * blockSize
  /\ inject_Z i * blockSize + blockSize <= extent
  /\ Qmin blockSize (extent - inject_Z i * blockSize) == blockSize.
Proof.
  intros Hb [Hi0 Hi].
  assert (H1 : inject_Z (i + 1) <= extent / blockSize).
  { eapply Qle_trans; [|apply Qfloor_le]. rewrite <- Zle_Qle. lia. }
  rewrite inject_Z_plus in H1. change (inject_Z 1) with 1 in H1.
  assert (H0 : 0 <= inject_Z i) by (change 0 with (inject_Z 0); rewrite <- Zle_Qle; lia).
  assert (H2 : (inject_Z i + 1) * blockSize <= extent / blockSize * blockSize).
  { apply Qmult_le_compat_r; [exact H1 | lra]. }
  assert (H3 : extent / blockSize * blockSize == extent) by (field; lra).
  rewrite H3 in H2.
  assert (H4 : 0 <= inject_Z i * blockSize) by (apply Qmult_le_0_compat; lra).
  split; [exact H4|]. split; [lra|].
  destruct (Q.min_spec blockSize (extent - inject_Z i * blockSize))
    as [[_ ->] | [Hle ->]]; [reflexivity | lra].
Qed.

(** On a canvas whose shorter side is at most 200, [detectImageRegions]
    finds nothing: every block is at most 50 wide and is rejected by the
    size test. *)
Theorem detectImageRegions_small_canvas :
  forall (imageData : list Z) (width height : Q),
    0 < width -> 0 < height ->
    Qmin width height <= 200 ->
    detectImageRegions imageData width height = Some [].
Proof.
  intros imageData width height Hw Hh Hsmall.
  unfold detectImageRegions. cbv zeta.
  set (blockSize := Qmin width height / 4) in *.
  assert (Hpos : 0 < Qmin width height).
  { destruct (Q.min_spec width height) as [[_ ->] | [_ ->]]; assumption. }
  assert (Hb : 0 < blockSize /\ blockSize <= 50).
  { unfold blockSize. split.
    - apply Qlt_shift_div_l; lra.
    - apply Qle_shift_div_r; lra. }
  destruct (Qeq_bool blockSize 0) eqn:E;
    [apply Qeq_bool_iff in E; lra|].
  f_equal. apply flat_map_all_nil. intros row _.
  apply flat_map_all_nil. intros col _.
  assert (Hrw : Qlt_bool 50 (Qmin blockSize (width - inject_Z col * blockSize))
                = false).
  { apply Qlt_bool_false_iff.
    eapply Qle_trans; [apply Q.le_min_l | apply Hb]. }
  rewrite Hrw. reflexivity.
Qed.

(** On a canvas whose sides are both longer than 200, [detectImageRegions]
    returns, row by row, one region for every whole block: a square of side
    [Math.min(width, height) / 4], with its corner at a multiple of that
    side, lying inside the canvas.  The shorter side holds exactly four of
    them. *)
Theorem detectImageRegions_tiles :
  forall (imageData : list Z) (width height : Q),
    0 < width -> 0 < height ->
    200 < Qmin width height ->
    let blockSize := Qmin width height / 4 in
    let cols := Qfloor (width / blockSize) in
    let rows := Qfloor (height / blockSize) in
    exists regions,
      detectImageRegions imageData width height = Some regions
      /\ regions
         = flat_map
             (fun row =>
                map (fun col =>
                       Region.mk
                         (inject_Z col * blockSize) (inject_Z row * blockSize)
                         (Qmin blockSize (width - inject_Z col * blockSize))
                         (Qmin blockSize (height - inject_Z row * blockSize)))
                    (loopIndices cols))
             (loopIndices rows)
      /\ List.length regions = (Z.to_nat rows * Z.to_nat cols)%nat
      /\ Z.min cols rows = 4%Z
      /\ Forall (fun r =>
                   Region.width r == blockSize
                   /\ Region.height r == blockSize
                   /\ 0 <= Region.x r
                   /\ Region.x r + Region.width r <= width
                   /\ 0 <= Region.y r
                   /\ Region.y r + Region.height r <= height)
                regions.
Proof.
  intros imageData width height Hw Hh Hbig blockSize cols rows.
  assert (Hb : 50 < blockSize).
  { unfold blockSize. apply Qlt_shift_div_l; lra. }
  assert (Hb0 : 0 < blockSize) by lra.
  assert (Hcell : forall row col,
             In row (loopIndices rows) -> In col (loopIndices cols) ->
             (let x := inject_Z col * blockSize in
              let y := inject_Z row * blockSize in
              let regionWidth := Qmin blockSize (width - x) in
              let regionHeight := Qmin blockSize (height - y) in
              if Qlt_bool 50 regionWidth && Qlt_bool 50 regionHeight
              then [Region.mk x y regionWidth regionHeight]
              else [])
             = [Region.mk
                  (inject_Z col * blockSize) (inject_Z row * blockSize)
                  (Qmin blockSize (width - inject_Z col * blockSize))
                  (Qmin blockSize (height - inject_Z row * blockSize))]).
  { intros row col Hrow Hcol. cbv zeta.
    apply In_loopIndices in Hrow, Hcol.
    destruct (whole_block_fits width blockSize col Hb0 Hcol) as (_ & _ & Ew).
    destruct (whole_block_fits height blockSize row Hb0 Hrow) as (_ & _ & Eh).
    assert (H1 : Qlt_bool 50 (Qmin blockSize (width - inject_Z col * blockSize))
                 = true) by (apply Qlt_bool_iff; rewrite Ew; exact Hb).
    assert (H2 : Qlt_bool 50
                   (Qmin blockSize (height - inject_Z row * blockSize))
                 = true) by (apply Qlt_bool_iff; rewrite Eh; exact Hb).
    rewrite H1, H2. reflexivity. }
  eexists. split; [|split; [reflexivity|]].
  - unfold detectImageRegions. cbv zeta. fold blockSize. fold cols. fold rows.
    destruct (Qeq_bool blockSize 0) eqn:E;
      [apply Qeq_bool_iff in E; lra|].
    f_equal. apply flat_map_ext_in. intros row Hrow.
    apply flat_map_all_singleton. intros col Hcol.
    apply (Hcell row col Hrow Hcol).
  - split; [|split].
    + rewrite (length_flat_map_const _ _ (Z.to_nat cols)).
      * now rewrite length_loopIndices.
      * intros row _. now rewrite length_map, length_loopIndices.
    + assert (Hfour : forall a b, 0 < a -> a <= b ->
                 Qfloor (a / (a / 4)) = 4%Z
                 /\ (4 <= Qfloor (b / (a / 4)))%Z).
      { intros a b Ha Hab.
        assert (E4 : a / (a / 4) == inject_Z 4) by (field; lra).
        assert (F : Qfloor (a / (a / 4)) = 4%Z)
          by (rewrite (Qfloor_comp _ _ E4); apply Qfloor_Z).
        split; [exact F|].
        assert (G : (Qfloor (a / (a / 4)) <= Qfloor (b / (a / 4)))%Z).
        { apply Qfloor_resp_le.
          apply Qmult_le_compat_r; [exact Hab|].
          apply Qlt_le_weak, Qinv_lt_0_compat.
          apply Qlt_shift_div_l; lra. }
        lia. }
      unfold cols, rows, blockSize.
      destruct (Q.min_spec width height) as [[Hlt E] | [Hle E]].
      * destruct (Hfour width height Hw (Qlt_le_weak _ _ Hlt)) as [Ec Er].
        assert (E' : forall e, e / (Qmin width height / 4) == e / (width / 4))
          by (intros e; rewrite E; reflexivity).
        rewrite (Qfloor_comp _ _ (E' width)), (Qfloor_comp _ _ (E' height)).
        lia.
      * destruct (Hfour height width Hh Hle) as [Er Ec].
        assert (E' : forall e, e / (Qmin width height / 4) == e / (height / 4))
          by (intros e; rewrite E; reflexivity).
        rewrite (Qfloor_comp _ _ (E' width)), (Qfloor_comp _ _ (E' height)).
        lia.
    + apply Forall_forall. intros r Hr.
      apply in_flat_map in Hr. destruct Hr as (row & Hrow & Hr).
      apply in_map_iff in Hr. destruct Hr as (col & <- & Hcol).
      apply In_loopIndices in Hrow, Hcol.
      destruct (whole_block_fits width blockSize col Hb0 Hcol)
        as (Hx0 & Hx1 & Ew).
      destruct (whole_block_fits height blockSize row Hb0 Hrow)
        as (Hy0 & Hy1 & Eh).
      cbn [Region.x Region.y Region.width Region.height].
      rewrite Ew, Eh. repeat split; trivial; reflexivity.
Qed.

(** ** Deleting and updating placed objects *)

Lemma truthy_Some (s : option string) :
  truthy s = true <-> exists i, s = Some i /\ i <> EmptyString.
Proof.
  destruct s as [i|]; simpl.
  - rewrite negb_true_iff. destruct (String.eqb_spec i EmptyString) as [->|Hne].
    + split; [discriminate | intros (j & [= <-] & Hj); now elim Hj].
    + split; [intros _; now exists i | reflexivity].
  - split; [discriminate | intros (j & [=] & _)].
Qed.

Lemma filter_all {A : Type} (f : A -> bool) (l : list A) :
  (forall a, f a = true) -> filter f l = l.
Proof.
  intros H. induction l as [|a l IH]; cbn [filter]; trivial.
  now rewrite H, IH.
Qed.

(** After [deleteSelected] no placed object carries the selected id, the
    others are kept in their order, nothing is selected, and the snap points
    of the canvas are the ones the deleted object had while it was moved:
    [getSnapPoints()] after the deletion is [getSnapPoints(id)] before it. *)
Theorem deleteSelected_removes_selected :
  forall (st : EditorState) (i : string),
    selectedImageId st = Some i ->
    i <> EmptyString ->
    canvasImages (deleteSelected st) = withoutId i (canvasImages st)
    /\ (forall img, In img (canvasImages (deleteSelected st))
                    <-> In img (canvasImages st) /\ CanvasImage.id img <> i)
    /\ selectedImageId (deleteSelected st) = None
    /\ getSnapPoints (deleteSelected st) None = getSnapPoints st (Some i)
    /\ cropMode (deleteSelected st) = cropMode st
    /\ snapEnabled (deleteSelected st) = snapEnabled st
    /\ activeSnapGuides (deleteSelected st) = activeSnapGuides st
    /\ canvasSize (deleteSelected st) = canvasSize st.
Proof.
  intros st i Hsel Hne. unfold deleteSelected.
  assert (Ht : truthy (selectedImageId st) = true)
    by (apply truthy_Some; eauto).
  rewrite Ht, Hsel. cbv zeta.
  cbn [setSelectedImageId setCanvasImages canvasImages selectedImageId cropMode
       snapEnabled activeSnapGuides canvasSize id_differs].
  split; [reflexivity|]. split; [apply In_withoutId|].
  split; [reflexivity|]. split; [|repeat split].
  rewrite !getSnapPoints_eq. unfold otherImages.
  cbn [canvasImages canvasSize id_differs].
  rewrite (filter_all (fun img => id_differs (CanvasImage.id img) None))
    by reflexivity.
  reflexivity.
Qed.

Lemma spreadImage_empty (img : CanvasImage.t) :
  spreadImage img PartialImage.empty = img.
Proof. destruct img. reflexivity. Qed.

Lemma map_id_in {A : Type} (f : A -> A) (l : list A) :
  (forall a, In a l -> f a = a) -> map f l = l.
Proof.
  induction l as [|a l IH]; intros H; cbn [map]; trivial.
  rewrite (H a) by (left; reflexivity).
  rewrite IH by (intros b Hb; apply H; now right). reflexivity.
Qed.

(** [updateImage] leaves the objects with another id as they are and keeps
    the length of the list; unless the new attributes carry an [id] it keeps
    the sequence of ids; with no new attributes at all, or with an id that
    no placed object has, it changes nothing. *)
Theorem updateImage_frame :
  forall (st : EditorState) (i : string) (newAttrs : PartialImage.t),
    List.length (canvasImages (updateImage st i newAttrs))
    = List.length (canvasImages st)
    /\ (forall n img,
           nth_error (canvasImages st) n = Some img ->
           nth_error (canvasImages (updateImage st i newAttrs)) n
           = Some (if String.eqb (CanvasImage.id img) i
                   then spreadImage img newAttrs else img))
    /\ (PartialImage.id newAttrs = None ->
        map CanvasImage.id (canvasImages (updateImage st i newAttrs))
        = map CanvasImage.id (canvasImages st))
    /\ updateImage st i PartialImage.empty = st
    /\ ((forall img, In img (canvasImages st) -> CanvasImage.id img <> i) ->
        updateImage st i newAttrs = st).
Proof.
  intros st i newAttrs. unfold updateImage, setCanvasImages.
  cbn [canvasImages].
  split; [apply length_map|].
  split; [intros n img Hn; rewrite nth_error_map, Hn; reflexivity|].
  split; [|split].
  - intros Hid. rewrite map_map. apply map_ext. intros img.
    destruct (CanvasImage.id img =? i)%string; trivial.
    unfold spreadImage. cbn [CanvasImage.id]. now rewrite Hid.
  - rewrite map_id_in; [destruct st; reflexivity|].
    intros img _. rewrite spreadImage_empty. now destruct (_ =? _)%string.
  - intros Hnone. rewrite map_id_in; [destruct st; reflexivity|].
    intros img Hin. destruct (String.eqb_spec (CanvasImage.id img) i) as [E|_];
      [elim (Hnone img Hin E) | reflexivity].
Qed.

(** ** Dragging and transforming a placed object *)



(** [onDragMove] moves the node to the snapped position and leaves the
    state, the active guides included, as it was: the test that guards the
    update of the guides compares the snapped position with the node after
    the node has been moved there. *)
Theorem onDragMove_never_updates_guides :
  forall (st : EditorState) (image : CanvasImage.t) (node : Node.t),
    let snapped :=
      applySnapping st (CanvasImage.id image) (Node.x node) (Node.y node)
        (CanvasImage.width image) (CanvasImage.height image) in
    fst (onDragMove st image node) = st
    /\ snd (onDragMove st image node)
       = Node.mk (Position.x snapped) (Position.y snapped) (Node.width node)
           (Node.height node) (Node.scaleX node) (Node.scaleY node)
           (Node.rotation node).
Proof.
  intros st image node snapped. unfold onDragMove. fold snapped.
  cbv zeta. cbn [Node.x Node.y Node.width Node.height Node.scaleX Node.scaleY
                 Node.rotation].
  assert (Hx : Qlt_bool 1 (Qabs (Position.x snapped - Position.x snapped))
               = false) by (apply Qlt_bool_false_iff; abs_lra).
  assert (Hy : Qlt_bool 1 (Qabs (Position.y snapped - Position.y snapped))
               = false) by (apply Qlt_bool_false_iff; abs_lra).
  rewrite Hx, Hy. split; reflexivity.
Qed.


(** Outside crop mode, [onTransformEnd] gives the placed objects with the id
    of the transformed one the node's size times its scale, but never less
    than 5 in either direction, together with the snapped position and the
    node's rotation; the node's scale is reset to 1. *)
Theorem onTransformEnd_minimum_size :
  forall (st : EditorState) (image : CanvasImage.t) (node : Node.t)
         (n : nat) (img : CanvasImage.t),
    cropMode st = false ->
    nth_error (canvasImages st) n = Some img ->
    CanvasImage.id img = CanvasImage.id image ->
    exists img',
      nth_error (canvasImages (fst (onTransformEnd st image node))) n
      = Some img'
      /\ 5 <= CanvasImage.width img'
      /\ 5 <= CanvasImage.height img'
      /\ CanvasImage.width img'
         = Qmax 5 (Node.width node * Node.scaleX node)
      /\ CanvasImage.height img'
         = Qmax 5 (Node.height node * Node.scaleY node)
      /\ Position.mk (CanvasImage.x img') (CanvasImage.y img')
         = applySnapping st (CanvasImage.id image) (Node.x node) (Node.y node)
             (CanvasImage.width img') (CanvasImage.height img')
      /\ CanvasImage.rotation img' = Node.rotation node
      /\ CanvasImage.id img' = CanvasImage.id img
      /\ CanvasImage.src img' = CanvasImage.src img
      /\ Node.scaleX (snd (onTransformEnd st image node)) = 1
      /\ Node.scaleY (snd (onTransformEnd st image node)) = 1.
Proof.
  intros st image node n img Hcrop Hn Hid.
  unfold onTransformEnd, onChange. rewrite Hcrop. cbv zeta.
  cbn [negb fst snd setActiveSnapGuides updateImage setCanvasImages
       canvasImages Node.x Node.y Node.width Node.height Node.scaleX
       Node.scaleY Node.rotation].
  rewrite nth_error_map, Hn. cbn [option_map].
  rewrite Hid, String.eqb_refl.
  eexists. split; [reflexivity|].
  unfold spreadImage.
  cbn [CanvasImage.width CanvasImage.height CanvasImage.x CanvasImage.y
       CanvasImage.rotation CanvasImage.id CanvasImage.src spreadKey
       PartialImage.id PartialImage.src PartialImage.x PartialImage.y
       PartialImage.width PartialImage.height PartialImage.rotation].
  split; [apply Q.le_max_l|]. split; [apply Q.le_max_l|].
  repeat split.
  - now destruct (applySnapping st _ _ _ _ _).
  - exact Hid.
Qed.

(** In crop mode neither the end of a drag nor the end of a transform of a
    placed object changes the placed objects: only the guides are cleared. *)
Theorem crop_mode_freezes_images :
  forall (st : EditorState) (image : CanvasImage.t) (node : Node.t),
    cropMode st = true ->
    onDragEnd st image node = setActiveSnapGuides st ([], [])
    /\ fst (onTransformEnd st image node) = setActiveSnapGuides st ([], [])
    /\ canvasImages (onDragEnd st image node) = canvasImages st
    /\ canvasImages (fst (onTransformEnd st image node)) = canvasImages st.
Proof.
  intros st image node Hcrop.
  unfold onDragEnd, onTransformEnd, onChange. rewrite Hcrop.
  repeat split.
Qed.

(** [boundBoxFunc] returns the new box when it is at least 5 wide and high
    (in absolute value) and the old box otherwise; so a transformer that
    starts from a box of at least 5 by 5 never gets a smaller one. *)
Theorem boundBoxFunc_minimum_size :
  forall oldBox newBox : Box.t,
    (5 <= Qabs (Box.width newBox) /\ 5 <= Qabs (Box.height newBox) ->
     boundBoxFunc oldBox newBox = newBox)
    /\ (~ (5 <= Qabs (Box.width newBox) /\ 5 <= Qabs (Box.height newBox)) ->
        boundBoxFunc oldBox newBox = oldBox)
    /\ (5 <= Qabs (Box.width oldBox) /\ 5 <= Qabs (Box.height oldBox) ->
        5 <= Qabs (Box.width (boundBoxFunc oldBox newBox))
        /\ 5 <= Qabs (Box.height (boundBoxFunc oldBox newBox))).
Proof.
  intros oldBox newBox. unfold boundBoxFunc.
  destruct (Qlt_bool (Qabs (Box.width newBox)) 5) eqn:Ew;
    destruct (Qlt_bool (Qabs (Box.height newBox)) 5) eqn:Eh; cbn [orb];
    rewrite ?Qlt_bool_iff, ?Qlt_bool_false_iff in *;
    (split; [|split]); trivial; try tauto;
    try (intros [H1 H2]; exfalso; lra);
    try (intros H; exfalso; apply H; split; assumption).
Qed.

(** ** Cropping *)

Lemma find_by_id (imgs : list CanvasImage.t) (i : string) :
  (exists img, In img imgs /\ CanvasImage.id img = i) ->
  exists img,
    find (fun img => id_equals (CanvasImage.id img) (Some i)) imgs = Some img
    /\ In img imgs /\ CanvasImage.id img = i.
Proof.
  intros (img0 & Hin & Hid).
  destruct (find (fun img => id_equals (CanvasImage.id img) (Some i)) imgs)
    as [img|] eqn:E.
  - exists img. split; [reflexivity|].
    apply find_some in E. destruct E as [Hin' Heq]. split; [exact Hin'|].
    cbn [id_equals] in Heq. now apply String.eqb_eq.
  - exfalso. pose proof (find_none _ _ E img0 Hin) as Hn.
    cbn [id_equals] in Hn. rewrite Hid, String.eqb_refl in Hn. discriminate.
Qed.

(** With a placed object selected and crop mode off, [cropImage] switches
    crop mode on and proposes a rectangle that leaves a margin of exactly 20
    on each side of the (first) object with the selected id.  The rectangle
    has a width (height) of at least zero only if the object is at least 40
    wide (high). *)
Theorem cropImage_enters_crop_mode :
  forall (st : EditorState) (cropRect : option Rect.t) (i : string),
    selectedImageId st = Some i ->
    i <> EmptyString ->
    cropMode st = false ->
    (exists img, In img (canvasImages st) /\ CanvasImage.id img = i) ->
    exists img rect,
      In img (canvasImages st)
      /\ CanvasImage.id img = i
      /\ cropImage st cropRect = CropState (setCropMode st true) (Some rect)
      /\ Rect.x rect - CanvasImage.x img == 20
      /\ Rect.y rect - CanvasImage.y img == 20
      /\ (CanvasImage.x img + CanvasImage.width img)
         - (Rect.x rect + Rect.width rect) == 20
      /\ (CanvasImage.y img + CanvasImage.height img)
         - (Rect.y rect + Rect.height rect) == 20
      /\ (0 <= Rect.width rect <-> 40 <= CanvasImage.width img)
      /\ (0 <= Rect.height rect <-> 40 <= CanvasImage.height img).
Proof.
  intros st cropRect i Hsel Hne Hcrop Hex.
  destruct (find_by_id _ _ Hex) as (img & Hfind & Hin & Hid).
  exists img, (insetRect img).
  split; [exact Hin|]. split; [exact Hid|]. split.
  - unfold cropImage.
    assert (Ht : truthy (selectedImageId st) = true)
      by (apply truthy_Some; eauto).
    rewrite Ht, Hcrop, Hsel. cbn [negb andb]. cbv zeta.
    rewrite Hfind. reflexivity.
  - unfold insetRect. cbn [Rect.x Rect.y Rect.width Rect.height].
    repeat split; intros; lra.
Qed.

(** Entering crop mode and cancelling restores the state: with something
    selected, crop mode off and no crop rectangle, [cropImage] followed by
    [cancelCrop] gives back the state and the absent rectangle. *)
Theorem cropImage_cancelCrop_round_trip :
  forall (st : EditorState),
    truthy (selectedImageId st) = true ->
    cropMode st = false ->
    exists st1 rect1,
      cropImage st None = CropState st1 rect1
      /\ cropMode st1 = true
      /\ cancelCrop st1 rect1 = (st, None).
Proof.
  intros st Ht Hcrop. unfold cropImage. rewrite Ht, Hcrop.
  cbn [negb andb]. cbv zeta.
  assert (Hback : setCropMode (setCropMode st true) false = st).
  { destruct st. cbn in Hcrop. subst. reflexivity. }
  destruct (find _ (canvasImages st));
    eexists; eexists; (split; [reflexivity|]);
    (split; [reflexivity|]); unfold cancelCrop; now rewrite Hback.
Qed.

(** Once the image has loaded, [applyCrop] gives every placed object with
    the selected id the position and size of the crop rectangle and the new
    source, leaves the other objects alone, keeps the selection, switches
    crop mode off and discards the rectangle. *)
Theorem applyCrop_takes_rectangle :
  forall (st : EditorState) (rect : Rect.t) (croppedSrc : string) (i : string),
    selectedImageId st = Some i ->
    i <> EmptyString ->
    (exists img, In img (canvasImages st) /\ CanvasImage.id img = i) ->
    canvasImages (fst (applyCrop st (Some rect) croppedSrc))
    = map (fun img =>
             if String.eqb (CanvasImage.id img) i
             then croppedTo rect croppedSrc img else img)
          (canvasImages st)
    /\ cropMode (fst (applyCrop st (Some rect) croppedSrc)) = false
    /\ snd (applyCrop st (Some rect) croppedSrc) = None
    /\ selectedImageId (fst (applyCrop st (Some rect) croppedSrc)) = Some i.
Proof.
  intros st rect croppedSrc i Hsel Hne Hex.
  destruct (find_by_id _ _ Hex) as (img & Hfind & _ & _).
  unfold applyCrop.
  assert (Ht : truthy (selectedImageId st) = true)
    by (apply truthy_Some; eauto).
  rewrite Ht, Hsel, Hfind. cbv zeta.
  cbn [fst snd setCropMode updateImage setCanvasImages canvasImages cropMode
       selectedImageId].
  repeat split; trivial.
Qed.

(** A click on the empty stage clears the selection also in crop mode.
    From then on the crop button hands over to [applyCrop], which does
    nothing: the placed objects, the rectangle and crop mode itself stay as
    they are, and only [cancelCrop] leaves crop mode. *)
Theorem crop_mode_stuck_after_deselect :
  forall (st : EditorState) (cropRect : option Rect.t) (croppedSrc : string),
    cropMode st = true ->
    let st1 := checkDeselect st true in
    selectedImageId st1 = None
    /\ cropMode st1 = true
    /\ cropImage st1 cropRect = CropApply
    /\ applyCrop st1 cropRect croppedSrc = (st1, cropRect)
    /\ cropMode (fst (cancelCrop st1 cropRect)) = false.
Proof.
  intros st cropRect croppedSrc Hcrop st1.
  unfold st1, checkDeselect, cropImage, applyCrop, cancelCrop.
  cbn [setSelectedImageId selectedImageId cropMode truthy andb fst setCropMode].
  rewrite Hcrop. repeat split.
Qed.

(** ** Selecting pages and extracted images *)

Lemma length_mapFrom {A B : Type} (f : A -> nat -> B) (start : nat)
  (l : list A) :
  List.length (mapFrom f start l) = List.length l.
Proof.
  revert start. induction l as [|a l IH]; intros start; cbn; trivial.
  now rewrite IH.
Qed.

Lemma nth_error_mapFrom {A B : Type} (f : A -> nat -> B) (start : nat)
  (l : list A) (n : nat) :
  nth_error (mapFrom f start l) n
  = option_map (fun a => f a (start + n)%nat) (nth_error l n).
Proof.
  revert start n. induction l as [|a l IH]; intros start [|n]; cbn; trivial.
  - now rewrite Nat.add_0_r.
  - rewrite IH. now rewrite Nat.add_succ_r.
Qed.

Lemma mapFrom_ext_in {A B : Type} (f g : A -> nat -> B) (start : nat)
  (l : list A) :
  (forall n a, nth_error l n = Some a -> f a (start + n)%nat = g a (start + n)%nat) ->
  mapFrom f start l = mapFrom g start l.
Proof.
  revert start. induction l as [|a l IH]; intros start H; cbn; trivial.
  f_equal.
  - specialize (H 0%nat a eq_refl). now rewrite Nat.add_0_r in H.
  - apply IH. intros n b Hn. specialize (H (S n) b Hn).
    now rewrite Nat.add_succ_r in H.
Qed.

Lemma mapFrom_mapFrom {A B C : Type} (f : A -> nat -> B) (g : B -> nat -> C)
  (start : nat) (l : list A) :
  mapFrom g start (mapFrom f start l)
  = mapFrom (fun a n => g (f a n) n) start l.
Proof.
  revert start. induction l as [|a l IH]; intros start; cbn; trivial.
  now rewrite IH.
Qed.

Lemma mapFrom_id {A : Type} (f : A -> nat -> A) (start : nat) (l : list A) :
  (forall n a, nth_error l n = Some a -> f a (start + n)%nat = a) ->
  mapFrom f start l = l.
Proof.
  revert start. induction l as [|a l IH]; intros start H; cbn; trivial.
  f_equal.
  - specialize (H 0%nat a eq_refl). now rewrite Nat.add_0_r in H.
  - apply IH. intros n b Hn. specialize (H (S n) b Hn).
    now rewrite Nat.add_succ_r in H.
Qed.

(** In multi-select mode [togglePageSelection] flips the selection of the
    page at the given index and of no other page, leaves the rest of the
    state (the bottom bar included) as it is, does nothing for an index
    beyond the pages, and undoes itself when called again. *)
Theorem togglePageSelection_multi_select :
  forall (st : EditorState) (s : ImportState) (pageIndex : nat),
    multiSelectMode st = true ->
    exists s',
      togglePageSelection st s pageIndex = Some s'
      /\ s' = setPages s (pages s')
      /\ List.length (pages s') = List.length (pages s)
      /\ (forall n page,
             nth_error (pages s) n = Some page ->
             nth_error (pages s') n
             = Some (if Nat.eqb n pageIndex
                     then PageInfo.setSelected page
                            (negb (PageInfo.selected page))
                     else page))
      /\ ((List.length (pages s) <= pageIndex)%nat -> s' = s)
      /\ togglePageSelection st s' pageIndex = Some s.
Proof.
  intros st s pageIndex Hmulti. unfold togglePageSelection. rewrite Hmulti.
  cbv zeta. eexists. split; [reflexivity|].
  unfold mapWithIndex. cbn [pages setPages].
  split; [reflexivity|]. split; [apply length_mapFrom|].
  split; [|split].
  - intros n page Hn. rewrite nth_error_mapFrom, Hn. reflexivity.
  - intros Hout. rewrite mapFrom_id; [destruct s; reflexivity|].
    intros n a Hn. cbn [Nat.add].
    assert (n < List.length (pages s))%nat
      by (apply nth_error_Some; congruence).
    destruct (Nat.eqb_spec n pageIndex); [lia | reflexivity].
  - destruct s as [ps sp bm im ex sx bb sb mo]. unfold setPages.
    cbn [pages selectedPages bulkImportMode imageSelectionMode
         extractedImages selectedExtractedImages bottomBarMultiSelect
         selectedBottomBarImages pageSelectionModalOpen].
    do 2 f_equal. rewrite mapFrom_mapFrom. apply mapFrom_id.
    intros n a _. cbn [Nat.add].
    destruct (Nat.eqb n pageIndex); [|reflexivity].
    destruct a as [pn c sel exs]. cbn. now rewrite negb_involutive.
Qed.

Lemma filter_nil_iff {A : Type} (f : A -> bool) (l : list A) :
  filter f l = [] <-> Forall (fun a => f a = false) l.
Proof.
  induction l as [|a l IH]; cbn [filter].
  - split; [constructor | reflexivity].
  - destruct (f a) eqn:E.
    + split; [discriminate | intros H; inversion H; congruence].
    + rewrite IH. split; [now constructor | intros H; now inversion H].
Qed.

Lemma filter_all_in {A : Type} (f : A -> bool) (l : list A) :
  (forall a, In a l -> f a = true) -> filter f l = l.
Proof.
  induction l as [|a l IH]; intros H; cbn [filter]; trivial.
  rewrite (H a) by (left; reflexivity).
  rewrite IH by (intros b Hb; apply H; now right). reflexivity.
Qed.

Lemma length_zero_iff {A : Type} (l : list A) :
  Nat.eqb (List.length l) 0 = true <-> l = [].
Proof.
  destruct l; cbn; split; trivial; discriminate.
Qed.

(** [importSelectedPagesToBottomBar]: with no page selected the state is
    left alone and the user is alerted.  Otherwise the bottom bar becomes
    the selected pages, in page order and still marked selected, every page
    of the dialog is unmarked (and otherwise unchanged), the dialog is
    closed, and a second call right away only alerts. *)
Theorem importSelectedPagesToBottomBar_effect :
  forall s : ImportState,
    (Forall (fun page => PageInfo.selected page = false) (pages s) ->
     importSelectedPagesToBottomBar s
     = (s, Some "Please select at least one page to import"%string))
    /\ (Exists (fun page => PageInfo.selected page = true) (pages s) ->
        let s' := fst (importSelectedPagesToBottomBar s) in
        snd (importSelectedPagesToBottomBar s) = None
        /\ selectedPages s' = filter PageInfo.selected (pages s)
        /\ pages s'
           = map (fun page => PageInfo.setSelected page false) (pages s)
        /\ Forall (fun page => PageInfo.selected page = false) (pages s')
        /\ map PageInfo.pageNumber (pages s')
           = map PageInfo.pageNumber (pages s)
        /\ pageSelectionModalOpen s' = false
        /\ importSelectedPagesToBottomBar s'
           = (s', Some "Please select at least one page to import"%string)).
Proof.
  intros s.
  assert (Hnone : forall t : ImportState,
             Forall (fun page => PageInfo.selected page = false) (pages t) ->
             importSelectedPagesToBottomBar t
             = (t, Some "Please select at least one page to import"%string)).
  { intros t Hall. unfold importSelectedPagesToBottomBar. cbv zeta.
    apply filter_nil_iff in Hall. rewrite Hall. reflexivity. }
  split; [apply Hnone|].
  intros Hex s'.
  assert (Hsel : Nat.eqb (List.length (filter PageInfo.selected (pages s))) 0
                 = false).
  { destruct (Nat.eqb _ 0) eqn:E; trivial.
    apply length_zero_iff, filter_nil_iff in E.
    apply Exists_exists in Hex. destruct Hex as (p & Hin & Hp).
    rewrite Forall_forall in E. specialize (E p Hin). congruence. }
  assert (Hs' : s' = setPageSelectionModalOpen
                       (setPages
                          (setSelectedPages s
                             (filter PageInfo.selected (pages s)))
                          (map (fun page => PageInfo.setSelected page false)
                               (pages s)))
                       false).
  { unfold s', importSelectedPagesToBottomBar. cbv zeta. rewrite Hsel.
    reflexivity. }
  split.
  { unfold importSelectedPagesToBottomBar. cbv zeta. now rewrite Hsel. }
  clearbody s'. subst s'.
  cbn [pages selectedPages pageSelectionModalOpen setPageSelectionModalOpen
       setPages setSelectedPages].
  assert (Hall : Forall (fun page => PageInfo.selected page = false)
                   (map (fun page => PageInfo.setSelected page false)
                        (pages s))).
  { apply Forall_forall. intros p Hp. apply in_map_iff in Hp.
    destruct Hp as (q & <- & _). reflexivity. }
  split; [reflexivity|]. split; [reflexivity|]. split; [exact Hall|].
  split; [rewrite map_map; apply map_ext; intros p; reflexivity|].
  split; [reflexivity|].
  apply Hnone. exact Hall.
Qed.

(** The list of selected extracted images is kept in step with the marks:
    after [toggleExtractedImageSelection], [selectAllExtractedImages] or
    [deselectAllExtractedImages] it holds exactly the extracted images that
    are marked selected, in their order.  Toggling the same id twice gives
    back the marks, and the whole state if it was in step before. *)
Theorem extracted_selection_in_step :
  forall (s : ImportState) (imageId : string),
    selectedExtractedImages (toggleExtractedImageSelection s imageId)
    = filter ExtractedImage.selected
        (extractedImages (toggleExtractedImageSelection s imageId))
    /\ selectedExtractedImages (selectAllExtractedImages s)
       = filter ExtractedImage.selected
           (extractedImages (selectAllExtractedImages s))
    /\ selectedExtractedImages (deselectAllExtractedImages s)
       = filter ExtractedImage.selected
           (extractedImages (deselectAllExtractedImages s))
    /\ extractedImages
         (toggleExtractedImageSelection
            (toggleExtractedImageSelection s imageId) imageId)
       = extractedImages s
    /\ (selectedExtractedImages s
        = filter ExtractedImage.selected (extractedImages s) ->
        toggleExtractedImageSelection
          (toggleExtractedImageSelection s imageId) imageId = s).
Proof.
  intros s imageId.
  assert (Htwice : map (fun img =>
                          if String.eqb (ExtractedImage.id img) imageId
                          then ExtractedImage.setSelected img
                                 (negb (ExtractedImage.selected img))
                          else img)
                     (map (fun img =>
                             if String.eqb (ExtractedImage.id img) imageId
                             then ExtractedImage.setSelected img
                                    (negb (ExtractedImage.selected img))
                             else img)
                          (extractedImages s))
                   = extractedImages s).
  { rewrite map_map. apply map_id_in. intros img _.
    destruct (String.eqb (ExtractedImage.id img) imageId) eqn:E.
    - cbn [ExtractedImage.setSelected ExtractedImage.id]. rewrite E.
      destruct img. cbn. now rewrite negb_involutive.
    - now rewrite E. }
  split; [reflexivity|]. split; [|split; [|split]].
  - unfold selectAllExtractedImages. cbv zeta.
    cbn [selectedExtractedImages extractedImages setSelectedExtractedImages
         setExtractedImages].
    symmetry. apply filter_all_in. intros img Hin.
    apply in_map_iff in Hin. destruct Hin as (q & <- & _). reflexivity.
  - unfold deselectAllExtractedImages. cbv zeta.
    cbn [selectedExtractedImages extractedImages setSelectedExtractedImages
         setExtractedImages].
    symmetry. apply filter_nil_iff. apply Forall_forall. intros img Hin.
    apply in_map_iff in Hin. destruct Hin as (q & <- & _). reflexivity.
  - unfold toggleExtractedImageSelection. cbv zeta.
    cbn [extractedImages setSelectedExtractedImages setExtractedImages].
    exact Htwice.
  - intros Hstep. unfold toggleExtractedImageSelection. cbv zeta.
    cbn [extractedImages setSelectedExtractedImages setExtractedImages
         pages selectedPages bulkImportMode imageSelectionMode
         bottomBarMultiSelect selectedBottomBarImages pageSelectionModalOpen].
    rewrite Htwice, <- Hstep. destruct s; reflexivity.
Qed.

(** ** The bottom bar *)

Lemma existsb_pageNumber (n : Z) (l : list PageInfo.t) :
  existsb (fun img => Z.eqb (PageInfo.pageNumber img) n) l = true
  <-> In n (map PageInfo.pageNumber l).
Proof.
  rewrite existsb_exists, in_map_iff. split.
  - intros (p & Hin & E). apply Z.eqb_eq in E. eauto.
  - intros (p & E & Hin). exists p. split; [exact Hin | now apply Z.eqb_eq].
Qed.

Lemma In_map_filter_pageNumber (n m : Z) (l : list PageInfo.t) :
  In m (map PageInfo.pageNumber
          (filter (fun img => negb (Z.eqb (PageInfo.pageNumber img) n)) l))
  <-> In m (map PageInfo.pageNumber l) /\ m <> n.
Proof.
  rewrite !in_map_iff. split.
  - intros (p & <- & Hin). apply filter_In in Hin. destruct Hin as [Hin Hne].
    apply negb_true_iff, Z.eqb_neq in Hne. eauto.
  - intros [(p & <- & Hin) Hne]. exists p. split; [reflexivity|].
    apply filter_In. split; [exact Hin|].
    now apply negb_true_iff, Z.eqb_neq.
Qed.

Lemma NoDup_map_filter {A B : Type} (f : A -> B) (g : A -> bool)
  (l : list A) :
  NoDup (map f l) -> NoDup (map f (filter g l)).
Proof.
  induction l as [|a l IH]; cbn [map filter]; intros H; [constructor|].
  inversion H as [|? ? Hnot Hrest]; subst.
  destruct (g a); cbn [map]; [|now apply IH].
  constructor; [|now apply IH].
  intros Hin. apply Hnot. apply in_map_iff in Hin.
  destruct Hin as (b & E & Hb). apply filter_In in Hb.
  apply in_map_iff. exists b. tauto.
Qed.

(** In multi-select mode [toggleBottomBarImageSelection] touches only the
    list of selected bottom bar images: the page number of the clicked page
    is in the list afterwards exactly if it was not before, no other page
    number enters or leaves, page numbers that were unique stay unique, and
    a page that was not in the list is removed again, the list being as
    before, by a second click. *)
Theorem toggleBottomBarImageSelection_multi_select :
  forall (st : EditorState) (s : ImportState) (stamp : string)
         (randomX randomY : Q) (pageInfo : PageInfo.t),
    bottomBarMultiSelect s = true ->
    let result :=
      toggleBottomBarImageSelection st s stamp randomX randomY pageInfo in
    let before := map PageInfo.pageNumber (selectedBottomBarImages s) in
    let after :=
      map PageInfo.pageNumber (selectedBottomBarImages (snd result)) in
    fst result = st
    /\ snd result
       = setSelectedBottomBarImages s (selectedBottomBarImages (snd result))
    /\ (In (PageInfo.pageNumber pageInfo) after
        <-> ~ In (PageInfo.pageNumber pageInfo) before)
    /\ (forall m, m <> PageInfo.pageNumber pageInfo ->
                  (In m after <-> In m before))
    /\ (NoDup before -> NoDup after)
    /\ (~ In (PageInfo.pageNumber pageInfo) before ->
        snd (toggleBottomBarImageSelection st (snd result) stamp
               randomX randomY pageInfo) = s).
Proof.
  intros st s stamp randomX randomY pageInfo Hmulti result before after.
  unfold after, result, toggleBottomBarImageSelection. rewrite Hmulti.
  cbv zeta.
  destruct (existsb _ (selectedBottomBarImages s)) eqn:E.
  - apply existsb_pageNumber in E. fold before in E.
    cbn [fst snd selectedBottomBarImages setSelectedBottomBarImages].
    split; [reflexivity|]. split; [reflexivity|]. split; [|split; [|split]].
    + rewrite In_map_filter_pageNumber. tauto.
    + intros m Hm. rewrite In_map_filter_pageNumber. fold before. tauto.
    + apply NoDup_map_filter.
    + intros Hnot. contradiction.
  - assert (Hnot : ~ In (PageInfo.pageNumber pageInfo) before).
    { intros Hin. apply existsb_pageNumber in Hin. congruence. }
    cbn [fst snd selectedBottomBarImages setSelectedBottomBarImages
         bottomBarMultiSelect].
    rewrite map_app. cbn [map]. fold before.
    split; [reflexivity|]. split; [reflexivity|]. split; [|split; [|split]].
    + rewrite in_app_iff. cbn [In]. tauto.
    + intros m Hm. rewrite in_app_iff. cbn [In]. split; [|tauto].
      intros [H | [H | []]]; [exact H | congruence].
    + intros Hnd. apply NoDup_app; [exact Hnd | repeat constructor; intros [] |].
      intros x Hx [<- | []]. contradiction.
    + intros _. rewrite Hmulti.
      assert (E' : existsb
                     (fun img => Z.eqb (PageInfo.pageNumber img)
                                       (PageInfo.pageNumber pageInfo))
                     (selectedBottomBarImages s ++ [pageInfo]) = true).
      { apply existsb_pageNumber. rewrite map_app, in_app_iff.
        right. left. reflexivity. }
      rewrite E'. cbn [snd]. rewrite filter_app. cbn [filter].
      rewrite Z.eqb_refl. cbn [negb]. rewrite app_nil_r.
      rewrite filter_all_in.
      * destruct s; reflexivity.
      * intros a Ha. apply negb_true_iff, Z.eqb_neq. intros Heq.
        apply Hnot. unfold before. rewrite <- Heq. now apply in_map.
Qed.

(** ** Batch imports *)

Lemma ceilSqrt_spec (n : nat) :
  (0 < n)%nat ->
  (0 < ceilSqrt n)%nat
  /\ (n <= ceilSqrt n * ceilSqrt n)%nat
  /\ ((ceilSqrt n - 1) * (ceilSqrt n - 1) < n)%nat.
Proof.
  intros Hn. unfold ceilSqrt.
  pose proof (Nat.sqrt_up_spec n Hn) as [Hlo Hhi].
  pose proof (proj2 (Nat.sqrt_up_pos n) Hn) as Hpos.
  rewrite <- Nat.sub_1_r in Hlo. auto.
Qed.

Lemma Qnat_inj (a b : nat) : Qnat a == Qnat b -> a = b.
Proof.
  unfold Qnat. intros H. apply Nat2Z.inj. now apply inject_Z_injective.
Qed.

Lemma Qnat_nonneg (a : nat) : 0 <= Qnat a.
Proof.
  unfold Qnat. change 0 with (inject_Z 0). rewrite <- Zle_Qle. lia.
Qed.

(** Two cells of the grid at the same place are the same cell. *)
Lemma grid_cell_injective (cols : nat) (pitchX pitchY : Q) (j k : nat) :
  (0 < cols)%nat -> 0 < pitchX -> 0 < pitchY ->
  Qnat (j mod cols) * pitchX + 50 == Qnat (k mod cols) * pitchX + 50 ->
  Qnat (j / cols) * pitchY + 50 == Qnat (k / cols) * pitchY + 50 ->
  j = k.
Proof.
  intros Hc Hx Hy Ex Ey.
  assert (Hcancel : forall a b p : Q, 0 < p -> a * p + 50 == b * p + 50 -> a == b).
  { intros a b p Hp E. apply (Qmult_inj_r a b p).
    - intros Z. rewrite Z in Hp. discriminate.
    - apply (Qplus_inj_r _ _ 50). exact E. }
  assert (Hm : (j mod cols = k mod cols)%nat)
    by (apply Qnat_inj; exact (Hcancel _ _ _ Hx Ex)).
  assert (Hd : (j / cols = k / cols)%nat)
    by (apply Qnat_inj; exact (Hcancel _ _ _ Hy Ey)).
  rewrite (Nat.div_mod_eq j cols), (Nat.div_mod_eq k cols). congruence.
Qed.

Lemma nth_error_mapWithIndex {A B : Type} (f : A -> nat -> B) (l : list A)
  (n : nat) :
  nth_error (mapWithIndex f l) n = option_map (fun a => f a n) (nth_error l n).
Proof.
  unfold mapWithIndex. now rewrite nth_error_mapFrom.
Qed.

Lemma gridImage_layout {A : Type} (idOf : nat -> string) (srcOf : A -> string)
  (widthOf heightOf : A -> Q) (pitchX pitchY : Q) (l : list A) :
  l <> [] -> 0 < pitchX -> 0 < pitchY ->
  gridLayout srcOf widthOf heightOf pitchX pitchY l
    (mapWithIndex
       (gridImage idOf srcOf widthOf heightOf (ceilSqrt (List.length l))
          pitchX pitchY) l).
Proof.
  intros Hl Hx Hy.
  assert (Hn : (0 < List.length l)%nat) by (destruct l; [congruence | cbn; lia]).
  destruct (ceilSqrt_spec _ Hn) as (Hc & Hhi & Hlo).
  unfold gridLayout. cbv zeta.
  split; [apply length_mapFrom|]. repeat (split; [assumption|]). split.
  - intros k a Hk. rewrite nth_error_mapWithIndex, Hk. cbn [option_map].
    eexists. split; [reflexivity|]. unfold gridImage.
    cbn [CanvasImage.src CanvasImage.x CanvasImage.y CanvasImage.width
         CanvasImage.height CanvasImage.scaleX CanvasImage.scaleY
         CanvasImage.rotation].
    assert (Hkn : (k < List.length l)%nat)
      by (apply nth_error_Some; congruence).
    repeat split.
    + apply Nat.mod_upper_bound. lia.
    + apply Nat.Div0.div_lt_upper_bound. lia.
  - intros j k imgj imgk Hj Hk Ex Ey.
    rewrite nth_error_mapWithIndex in Hj, Hk.
    destruct (nth_error l j) as [aj|]; [|discriminate].
    destruct (nth_error l k) as [ak|]; [|discriminate].
    cbn [option_map] in Hj, Hk. injection Hj as <-. injection Hk as <-.
    unfold gridImage in Ex, Ey. cbn [CanvasImage.x CanvasImage.y] in Ex, Ey.
    exact (grid_cell_injective _ pitchX pitchY j k Hc Hx Hy Ex Ey).
Qed.

Lemma length_nonzero {A : Type} (l : list A) :
  l <> [] -> Nat.eqb (List.length l) 0 = false.
Proof.
  destruct l; [congruence | reflexivity].
Qed.

(** [addSelectedBottomBarImagesToCanvas] with images selected in the bottom
    bar appends one image per selected page to the placed objects, which it
    leaves as they are: the images carry the pages' pictures at 0.3 of
    their size and are laid out on a grid of pitch 350 by 450 (see
    [gridLayout]).  It alerts nothing, empties the selection and leaves
    multi-select mode. *)
Theorem addSelectedBottomBarImagesToCanvas_layout :
  forall (st : EditorState) (s : ImportState) (stamp : nat -> string),
    selectedBottomBarImages s <> [] ->
    exists newImages,
      addSelectedBottomBarImagesToCanvas st s stamp
      = (setCanvasImages st (canvasImages st ++ newImages),
         setBottomBarMultiSelect (setSelectedBottomBarImages s []) false,
         None)
      /\ gridLayout
           (fun page => HTMLCanvas.dataURL (PageInfo.canvas page))
           (fun page => HTMLCanvas.width (PageInfo.canvas page) * (3 # 10))
           (fun page => HTMLCanvas.height (PageInfo.canvas page) * (3 # 10))
           350 450 (selectedBottomBarImages s) newImages.
Proof.
  intros st s stamp Hsel.
  exists (mapWithIndex
            (gridImage
               (fun index =>
                  ("img-" ++ stamp index ++ "-" ++ decimal index)%string)
               (fun page => HTMLCanvas.dataURL (PageInfo.canvas page))
               (fun page => HTMLCanvas.width (PageInfo.canvas page) * (3 # 10))
               (fun page => HTMLCanvas.height (PageInfo.canvas page) * (3 # 10))
               (ceilSqrt (List.length (selectedBottomBarImages s))) 350 450)
            (selectedBottomBarImages s)).
  split.
  - unfold addSelectedBottomBarImagesToCanvas.
    rewrite (length_nonzero _ Hsel). reflexivity.
  - apply gridImage_layout; [exact Hsel | reflexivity | reflexivity].
Qed.

(** [addMultipleImagesToCanvas] with pages selected in the dialog appends
    one image per selected page, laid out like the images of the bottom
    bar.  Afterwards no page is marked selected, the bottom bar is empty,
    and bulk import mode and the dialog are closed. *)
Theorem addMultipleImagesToCanvas_layout :
  forall (st : EditorState) (s : ImportState) (stamp : nat -> string),
    filter PageInfo.selected (pages s) <> [] ->
    exists newImages s',
      addMultipleImagesToCanvas st s stamp
      = (setCanvasImages st (canvasImages st ++ newImages), s', None)
      /\ gridLayout
           (fun page => HTMLCanvas.dataURL (PageInfo.canvas page))
           (fun page => HTMLCanvas.width (PageInfo.canvas page) * (3 # 10))
           (fun page => HTMLCanvas.height (PageInfo.canvas page) * (3 # 10))
           350 450 (filter PageInfo.selected (pages s)) newImages
      /\ pages s' = map (fun page => PageInfo.setSelected page false) (pages s)
      /\ Forall (fun page => PageInfo.selected page = false) (pages s')
      /\ selectedPages s' = []
      /\ bulkImportMode s' = false
      /\ pageSelectionModalOpen s' = false
      /\ selectedBottomBarImages s' = selectedBottomBarImages s
      /\ extractedImages s' = extractedImages s.
Proof.
  intros st s stamp Hsel.
  exists (mapWithIndex
            (gridImage
               (fun index =>
                  ("img-" ++ stamp index ++ "-" ++ decimal index)%string)
               (fun page => HTMLCanvas.dataURL (PageInfo.canvas page))
               (fun page => HTMLCanvas.width (PageInfo.canvas page) * (3 # 10))
               (fun page => HTMLCanvas.height (PageInfo.canvas page) * (3 # 10))
               (ceilSqrt (List.length (filter PageInfo.selected (pages s))))
               350 450)
            (filter PageInfo.selected (pages s))).
  exists (setPageSelectionModalOpen
            (deselectAllPages (setBulkImportMode s false)) false).
  split; [|split].
  - unfold addMultipleImagesToCanvas. cbv zeta.
    rewrite (length_nonzero _ Hsel). reflexivity.
  - apply gridImage_layout; [exact Hsel | reflexivity | reflexivity].
  - cbn. repeat split.
    apply Forall_forall. intros p Hp. apply in_map_iff in Hp.
    destruct Hp as (q & <- & _). reflexivity.
Qed.

(** [addSelectedExtractedImagesToCanvas] with extracted images selected
    appends one image per selected extracted image, at half its size, laid
    out on a grid of pitch 250 by 250.  Afterwards no extracted image is
    marked selected, the list of selected ones is empty, and image selection
    mode is closed. *)
Theorem addSelectedExtractedImagesToCanvas_layout :
  forall (st : EditorState) (s : ImportState) (stamp : nat -> string),
    filter ExtractedImage.selected (extractedImages s) <> [] ->
    exists newImages s',
      addSelectedExtractedImagesToCanvas st s stamp
      = (setCanvasImages st (canvasImages st ++ newImages), s', None)
      /\ gridLayout ExtractedImage.src
           (fun img => ExtractedImage.width img * (1 # 2))
           (fun img => ExtractedImage.height img * (1 # 2))
           250 250 (filter ExtractedImage.selected (extractedImages s))
           newImages
      /\ extractedImages s'
         = map (fun img => ExtractedImage.setSelected img false)
               (extractedImages s)
      /\ Forall (fun img => ExtractedImage.selected img = false)
                (extractedImages s')
      /\ selectedExtractedImages s' = []
      /\ imageSelectionMode s' = false
      /\ pages s' = pages s
      /\ selectedPages s' = selectedPages s.
Proof.
  intros st s stamp Hsel.
  exists (mapWithIndex
            (gridImage
               (fun index =>
                  ("extracted-img-" ++ stamp index ++ "-"
                   ++ decimal index)%string)
               ExtractedImage.src
               (fun img => ExtractedImage.width img * (1 # 2))
               (fun img => ExtractedImage.height img * (1 # 2))
               (ceilSqrt
                  (List.length
                     (filter ExtractedImage.selected (extractedImages s))))
               250 250)
            (filter ExtractedImage.selected (extractedImages s))).
  exists (deselectAllExtractedImages (setImageSelectionMode s false)).
  split; [|split].
  - unfold addSelectedExtractedImagesToCanvas. cbv zeta.
    rewrite (length_nonzero _ Hsel). reflexivity.
  - apply gridImage_layout; [exact Hsel | reflexivity | reflexivity].
  - cbn. repeat split.
    apply Forall_forall. intros p Hp. apply in_map_iff in Hp.
    destruct Hp as (q & <- & _). reflexivity.
Qed.

(** ** The ids of a batch *)

Lemma noDash_digits (d : Decimal.uint) : noDash (NilEmpty.string_of_uint d).
Proof.
  induction d; cbn [NilEmpty.string_of_uint noDash]; trivial;
    (split; [discriminate | assumption]).
Qed.

Lemma noDash_decimal (n : nat) : noDash (decimal n).
Proof.
  unfold decimal, NilZero.string_of_uint.
  destruct (Nat.to_uint n); try apply noDash_digits.
  cbn. split; [discriminate | trivial].
Qed.

Lemma to_uint_not_Nil (n : nat) : Nat.to_uint n <> Decimal.Nil.
Proof.
  intros E. pose proof (Unsigned.of_to n) as H. rewrite E in H.
  cbn in H. subst n. discriminate E.
Qed.

Lemma decimal_inj (j k : nat) : decimal j = decimal k -> j = k.
Proof.
  unfold decimal. intros E. apply Unsigned.to_uint_inj.
  pose proof (NilZero.usu _ (to_uint_not_Nil j)) as Hj.
  pose proof (NilZero.usu _ (to_uint_not_Nil k)) as Hk.
  rewrite E in Hj. congruence.
Qed.

Lemma noDash_append_dash (a e : string) : ~ noDash (a ++ String "-" e).
Proof.
  induction a as [|c a IH]; cbn [append noDash].
  - intros [H _]. now apply H.
  - intros [_ H]. now apply IH.
Qed.

(** What follows the last hyphen of a string determines the string's tail:
    two strings that end in a hyphen and a run of characters without hyphen
    are equal only if the runs are. *)
Lemma after_last_dash (a b d e : string) :
  noDash d -> noDash e ->
  (a ++ String "-" d = b ++ String "-" e)%string -> d = e.
Proof.
  intros Hd He. revert b.
  induction a as [|c a IH]; intros [|c' b]; cbn [append]; intros E.
  - now injection E.
  - injection E as _ E. exfalso. rewrite E in Hd.
    exact (noDash_append_dash _ _ Hd).
  - injection E as _ E. exfalso. rewrite <- E in He.
    exact (noDash_append_dash _ _ He).
  - injection E as _ E. exact (IH _ E).
Qed.

Lemma append_cancel_l (p a b : string) : (p ++ a = p ++ b)%string -> a = b.
Proof.
  induction p as [|c p IH]; cbn [append]; intros E; [exact E|].
  injection E as E. exact (IH E).
Qed.

Lemma batch_id_inj (prefix : string) (stamp : nat -> string) (j k : nat) :
  (prefix ++ stamp j ++ "-" ++ decimal j
   = prefix ++ stamp k ++ "-" ++ decimal k)%string ->
  j = k.
Proof.
  intros E. apply append_cancel_l in E. apply decimal_inj.
  apply (after_last_dash (stamp j) (stamp k)); auto using noDash_decimal.
Qed.

Lemma NoDup_batch_ids {A : Type} (prefix : string) (stamp : nat -> string)
  (srcOf : A -> string) (widthOf heightOf : A -> Q) (cols : nat)
  (pitchX pitchY : Q) (l : list A) :
  NoDup
    (map CanvasImage.id
       (mapWithIndex
          (gridImage
             (fun index =>
                (prefix ++ stamp index ++ "-" ++ decimal index)%string)
             srcOf widthOf heightOf cols pitchX pitchY)
          l)).
Proof.
  apply NoDup_nth_error. intros j k Hj E.
  rewrite length_map in Hj. unfold mapWithIndex in Hj.
  rewrite length_mapFrom in Hj.
  rewrite !nth_error_map, !nth_error_mapWithIndex in E.
  destruct (nth_error l j) as [aj|] eqn:Ej;
    [|apply nth_error_None in Ej; lia].
  destruct (nth_error l k) as [ak|]; [|discriminate].
  cbn [option_map gridImage CanvasImage.id] in E. injection E as E.
  exact (batch_id_inj _ _ _ _ E).
Qed.

(** Whatever the clock and the random number generator return, the images
    that one call of [addSelectedBottomBarImagesToCanvas],
    [addMultipleImagesToCanvas] or [addSelectedExtractedImagesToCanvas]
    appends have pairwise different ids: an id ends in a hyphen and the
    index of the element. *)
Theorem batch_ids_distinct :
  forall (st : EditorState) (s : ImportState) (stamp : nat -> string),
    (exists newImages,
        canvasImages
          (fst (fst (addSelectedBottomBarImagesToCanvas st s stamp)))
        = canvasImages st ++ newImages
        /\ NoDup (map CanvasImage.id newImages))
    /\ (exists newImages,
           canvasImages (fst (fst (addMultipleImagesToCanvas st s stamp)))
           = canvasImages st ++ newImages
           /\ NoDup (map CanvasImage.id newImages))
    /\ (exists newImages,
           canvasImages
             (fst (fst (addSelectedExtractedImagesToCanvas st s stamp)))
           = canvasImages st ++ newImages
           /\ NoDup (map CanvasImage.id newImages)).
Proof.
  intros st s stamp. split; [|split].
  - unfold addSelectedBottomBarImagesToCanvas.
    destruct (Nat.eqb (List.length (selectedBottomBarImages s)) 0).
    + exists []. cbn [fst]. rewrite app_nil_r. split; [reflexivity|constructor].
    + eexists. cbv zeta. cbn [fst setCanvasImages canvasImages].
      split; [reflexivity|].
      apply (NoDup_batch_ids "img-" stamp
               (fun page => HTMLCanvas.dataURL (PageInfo.canvas page))
               (fun page => HTMLCanvas.width (PageInfo.canvas page) * (3 # 10))
               (fun page => HTMLCanvas.height (PageInfo.canvas page) * (3 # 10))
               _ (300 + 50) (400 + 50)).
  - unfold addMultipleImagesToCanvas. cbv zeta.
    destruct (Nat.eqb (List.length (filter PageInfo.selected (pages s))) 0).
    + exists []. cbn [fst]. rewrite app_nil_r. split; [reflexivity|constructor].
    + eexists. cbn [fst setCanvasImages canvasImages].
      split; [reflexivity|].
      apply (NoDup_batch_ids "img-" stamp
               (fun page => HTMLCanvas.dataURL (PageInfo.canvas page))
               (fun page => HTMLCanvas.width (PageInfo.canvas page) * (3 # 10))
               (fun page => HTMLCanvas.height (PageInfo.canvas page) * (3 # 10))
               _ (300 + 50) (400 + 50)).
  - unfold addSelectedExtractedImagesToCanvas. cbv zeta.
    destruct (Nat.eqb
                (List.length
                   (filter ExtractedImage.selected (extractedImages s))) 0).
    + exists []. cbn [fst]. rewrite app_nil_r. split; [reflexivity|constructor].
    + eexists. cbn [fst setCanvasImages canvasImages].
      split; [reflexivity|].
      apply (NoDup_batch_ids "extracted-img-" stamp ExtractedImage.src
               (fun img => ExtractedImage.width img * (1 # 2))
               (fun img => ExtractedImage.height img * (1 # 2))
               _ (200 + 50) (200 + 50)).
Qed.

(** ** Moving an object and its own snap points *)

(** An update of the placed objects called [i] that does not rename them
    leaves the snap points of [i] as they were: an object that is dragged,
    resized or cropped never shifts the lines it is snapped against. *)
Theorem updateImage_keeps_own_snap_points :
  forall (st : EditorState) (i : string) (newAttrs : PartialImage.t),
    PartialImage.id newAttrs = None ->
    getSnapPoints (updateImage st i newAttrs) (Some i)
    = getSnapPoints st (Some i)
    /\ (forall (image : CanvasImage.t) (node : Node.t),
           CanvasImage.id image = i ->
           getSnapPoints (onDragEnd st image node) (Some i)
           = getSnapPoints st (Some i)
           /\ getSnapPoints (fst (onTransformEnd st image node)) (Some i)
              = getSnapPoints st (Some i)).
Proof.
  intros st i newAttrs Hid.
  assert (Hupd : forall attrs, PartialImage.id attrs = None ->
             getSnapPoints (updateImage st i attrs) (Some i)
             = getSnapPoints st (Some i)).
  { intros attrs Ha. rewrite !getSnapPoints_eq. unfold otherImages, updateImage.
    cbn [setCanvasImages canvasImages canvasSize id_differs].
    assert (E : filter (fun img => negb (CanvasImage.id img =? i)%string)
                  (map (fun img =>
                          if (CanvasImage.id img =? i)%string
                          then spreadImage img attrs else img)
                       (canvasImages st))
                = filter (fun img => negb (CanvasImage.id img =? i)%string)
                    (canvasImages st)).
    { induction (canvasImages st) as [|a l IH]; cbn [map filter]; trivial.
      destruct (CanvasImage.id a =? i)%string eqn:Ea.
      - unfold spreadImage at 1. cbn [CanvasImage.id]. rewrite Ha.
        cbn [spreadKey]. rewrite Ea. cbn [negb]. exact IH.
      - rewrite Ea. cbn [negb]. now rewrite IH. }
    rewrite E. reflexivity. }
  assert (Hguides : forall t g e,
             getSnapPoints (setActiveSnapGuides t g) e = getSnapPoints t e)
    by reflexivity.
  split; [now apply Hupd|].
  intros image node <-. unfold onDragEnd, onTransformEnd, onChange.
  cbv zeta. cbn [fst]. rewrite !Hguides.
  destruct (cropMode st); cbn [negb]; split; trivial; now apply Hupd.
Qed.

(** ** The theorems at concrete inputs, continued *)

Lemma detectImageRegions_small_canvas_witness :
  0 < 200 /\ 0 < 150 /\ Qmin 200 150 <= 200
  /\ detectImageRegions [] 200 150 = Some [].
Proof.
  assert (H1 : 0 < 200) by reflexivity.
  assert (H2 : 0 < 150) by reflexivity.
  assert (H3 : Qmin 200 150 <= 200) by (vm_compute; discriminate).
  repeat (split; [assumption|]).
  exact (detectImageRegions_small_canvas [] 200 150 H1 H2 H3).
Defined.

Lemma detectImageRegions_tiles_witness :
  0 < 800 /\ 0 < 600 /\ 200 < Qmin 800 600
  /\ exists regions,
       detectImageRegions [] 800 600 = Some regions
       /\ List.length regions = 20%nat.
Proof.
  assert (H1 : 0 < 800) by reflexivity.
  assert (H2 : 0 < 600) by reflexivity.
  assert (H3 : 200 < Qmin 800 600) by reflexivity.
  repeat (split; [assumption|]).
  destruct (detectImageRegions_tiles [] 800 600 H1 H2 H3)
    as (regions & Hdetect & _ & Hlen & _).
  exists regions. split; [exact Hdetect|].
  rewrite Hlen. reflexivity.
Defined.

Lemma deleteSelected_removes_selected_witness :
  selectedImageId otherSelected = Some "other"%string
  /\ "other"%string <> EmptyString
  /\ canvasImages (deleteSelected otherSelected)
     = [image "moving" 400 400 50 50]
  /\ getSnapPoints (deleteSelected otherSelected) None
     = getSnapPoints otherSelected (Some "other"%string).
Proof.
  assert (H1 : selectedImageId otherSelected = Some "other"%string)
    by reflexivity.
  assert (H2 : "other"%string <> EmptyString) by discriminate.
  repeat (split; [assumption|]).
  destruct (deleteSelected_removes_selected otherSelected "other" H1 H2)
    as (Himgs & _ & _ & Hsnap & _).
  split; [rewrite Himgs; reflexivity | exact Hsnap].
Defined.


Lemma onTransformEnd_minimum_size_witness :
  cropMode oneObject = false
  /\ nth_error (canvasImages oneObject) 0 = Some (image "other" 100 100 200 150)
  /\ exists img',
       nth_error
         (canvasImages
            (fst (onTransformEnd oneObject (image "other" 100 100 200 150)
                    droppedNode))) 0
       = Some img'
       /\ 5 <= CanvasImage.width img'
       /\ 5 <= CanvasImage.height img'.
Proof.
  assert (H1 : cropMode oneObject = false) by reflexivity.
  assert (H2 : nth_error (canvasImages oneObject) 0
               = Some (image "other" 100 100 200 150)) by reflexivity.
  repeat (split; [assumption|]).
  destruct (onTransformEnd_minimum_size oneObject
              (image "other" 100 100 200 150) droppedNode 0
              (image "other" 100 100 200 150) H1 H2 eq_refl)
    as (img' & Hn & Hw & Hh & _).
  exists img'. auto.
Defined.

Lemma crop_mode_freezes_images_witness :
  cropMode otherInCropMode = true
  /\ canvasImages
       (onDragEnd otherInCropMode (image "other" 100 100 200 150) droppedNode)
     = canvasImages otherInCropMode.
Proof.
  assert (H : cropMode otherInCropMode = true) by reflexivity.
  split; [exact H|].
  apply (crop_mode_freezes_images otherInCropMode
           (image "other" 100 100 200 150) droppedNode H).
Defined.

Lemma cropImage_enters_crop_mode_witness :
  selectedImageId otherSelected = Some "other"%string
  /\ cropMode otherSelected = false
  /\ exists img rect,
       In img (canvasImages otherSelected)
       /\ cropImage otherSelected None
          = CropState (setCropMode otherSelected true) (Some rect)
       /\ Rect.x rect - CanvasImage.x img == 20.
Proof.
  assert (H1 : selectedImageId otherSelected = Some "other"%string)
    by reflexivity.
  assert (H2 : "other"%string <> EmptyString) by discriminate.
  assert (H3 : cropMode otherSelected = false) by reflexivity.
  assert (H4 : exists img, In img (canvasImages otherSelected)
                           /\ CanvasImage.id img = "other"%string).
  { exists (image "other" 100 100 200 150). split; [left|]; reflexivity. }
  split; [exact H1|]. split; [exact H3|].
  destruct (cropImage_enters_crop_mode otherSelected None "other" H1 H2 H3 H4)
    as (img & rect & Hin & _ & Hcrop & Hx & _).
  exists img, rect. auto.
Defined.

Lemma cropImage_cancelCrop_round_trip_witness :
  truthy (selectedImageId otherSelected) = true
  /\ cropMode otherSelected = false
  /\ exists st1 rect1,
       cropImage otherSelected None = CropState st1 rect1
       /\ cancelCrop st1 rect1 = (otherSelected, None).
Proof.
  assert (H1 : truthy (selectedImageId otherSelected) = true) by reflexivity.
  assert (H2 : cropMode otherSelected = false) by reflexivity.
  repeat (split; [assumption|]).
  destruct (cropImage_cancelCrop_round_trip otherSelected H1 H2)
    as (st1 & rect1 & Hcrop & _ & Hcancel).
  exists st1, rect1. auto.
Defined.

Lemma applyCrop_takes_rectangle_witness :
  selectedImageId otherInCropMode = Some "other"%string
  /\ canvasImages
       (fst (applyCrop otherInCropMode (Some (Rect.mk 120 120 160 110))
               "data:cropped"))
     = [CanvasImage.mk "other" "data:cropped" 120 120 160 110 1 1 0
          None None None None;
        image "moving" 400 400 50 50]
  /\ cropMode
       (fst (applyCrop otherInCropMode (Some (Rect.mk 120 120 160 110))
               "data:cropped")) = false.
Proof.
  assert (H1 : selectedImageId otherInCropMode = Some "other"%string)
    by reflexivity.
  assert (H2 : "other"%string <> EmptyString) by discriminate.
  assert (H3 : exists img, In img (canvasImages otherInCropMode)
                           /\ CanvasImage.id img = "other"%string).
  { exists (image "other" 100 100 200 150). split; [left|]; reflexivity. }
  split; [exact H1|].
  destruct (applyCrop_takes_rectangle otherInCropMode
              (Rect.mk 120 120 160 110) "data:cropped" "other" H1 H2 H3)
    as (Himgs & Hmode & _).
  split; [rewrite Himgs; reflexivity | exact Hmode].
Defined.

Lemma crop_mode_stuck_after_deselect_witness :
  cropMode otherInCropMode = true
  /\ applyCrop (checkDeselect otherInCropMode true)
       (Some (Rect.mk 120 120 160 110)) "data:cropped"
     = (checkDeselect otherInCropMode true, Some (Rect.mk 120 120 160 110)).
Proof.
  assert (H : cropMode otherInCropMode = true) by reflexivity.
  split; [exact H|].
  apply (crop_mode_stuck_after_deselect otherInCropMode
           (Some (Rect.mk 120 120 160 110)) "data:cropped" H).
Defined.

Lemma updateImage_keeps_own_snap_points_witness :
  PartialImage.id (positionAttrs 7 9) = None
  /\ getSnapPoints (updateImage oneObjectAndMover "moving" (positionAttrs 7 9))
       (Some "moving"%string)
     = getSnapPoints oneObjectAndMover (Some "moving"%string).
Proof.
  assert (H : PartialImage.id (positionAttrs 7 9) = None) by reflexivity.
  split; [exact H|].
  apply (updateImage_keeps_own_snap_points oneObjectAndMover "moving"
           (positionAttrs 7 9) H).
Defined.

Lemma togglePageSelection_multi_select_witness :
  multiSelectMode oneObject = true
  /\ exists s',
       togglePageSelection oneObject exampleImport 1 = Some s'
       /\ map PageInfo.selected (pages s') = [true; true; true]
       /\ togglePageSelection oneObject s' 1 = Some exampleImport.
Proof.
  assert (H : multiSelectMode oneObject = true) by reflexivity.
  split; [exact H|].
  destruct (togglePageSelection_multi_select oneObject exampleImport 1 H)
    as (s' & Htoggle & _ & _ & _ & _ & Hback).
  exists s'. split; [exact Htoggle|]. split; [|exact Hback].
  cbv in Htoggle. injection Htoggle as <-. reflexivity.
Defined.

Lemma toggleBottomBarImageSelection_multi_select_witness :
  bottomBarMultiSelect exampleImport = true
  /\ map PageInfo.pageNumber
       (selectedBottomBarImages
          (snd (toggleBottomBarImageSelection oneObject exampleImport "t-r"
                  0 0 (examplePage 2 true))))
     = [1%Z; 3%Z; 2%Z]
  /\ NoDup
       (map PageInfo.pageNumber
          (selectedBottomBarImages
             (snd (toggleBottomBarImageSelection oneObject exampleImport "t-r"
                     0 0 (examplePage 2 true))))).
Proof.
  assert (H : bottomBarMultiSelect exampleImport = true) by reflexivity.
  split; [exact H|]. split; [reflexivity|].
  apply (toggleBottomBarImageSelection_multi_select oneObject exampleImport
           "t-r" 0 0 (examplePage 2 true) H).
  repeat constructor; cbn; intuition discriminate.
Defined.

Lemma addSelectedBottomBarImagesToCanvas_layout_witness :
  selectedBottomBarImages exampleImport <> []
  /\ exists newImages,
       addSelectedBottomBarImagesToCanvas oneObject exampleImport
         (fun _ => "t-r"%string)
       = (setCanvasImages oneObject (canvasImages oneObject ++ newImages),
          setBottomBarMultiSelect
            (setSelectedBottomBarImages exampleImport []) false,
          None)
       /\ List.length newImages = 2%nat.
Proof.
  assert (H : selectedBottomBarImages exampleImport <> []) by discriminate.
  split; [exact H|].
  destruct (addSelectedBottomBarImagesToCanvas_layout oneObject exampleImport
              (fun _ => "t-r"%string) H) as (newImages & Hadd & Hlen & _).
  exists newImages. split; [exact Hadd | exact Hlen].
Defined.

Lemma addMultipleImagesToCanvas_layout_witness :
  filter PageInfo.selected (pages exampleImport) <> []
  /\ exists newImages s',
       addMultipleImagesToCanvas oneObject exampleImport
         (fun _ => "t-r"%string)
       = (setCanvasImages oneObject (canvasImages oneObject ++ newImages),
          s', None)
       /\ List.length newImages = 2%nat
       /\ selectedPages s' = [].
Proof.
  assert (H : filter PageInfo.selected (pages exampleImport) <> [])
    by discriminate.
  split; [exact H|].
  destruct (addMultipleImagesToCanvas_layout oneObject exampleImport
              (fun _ => "t-r"%string) H)
    as (newImages & s' & Hadd & (Hlen & _) & _ & _ & Hsel & _).
  exists newImages, s'. auto.
Defined.

Lemma addSelectedExtractedImagesToCanvas_layout_witness :
  filter ExtractedImage.selected (extractedImages exampleImport) <> []
  /\ exists newImages s',
       addSelectedExtractedImagesToCanvas oneObject exampleImport
         (fun _ => "t-r"%string)
       = (setCanvasImages oneObject (canvasImages oneObject ++ newImages),
          s', None)
       /\ List.length newImages = 1%nat
       /\ selectedExtractedImages s' = [].
Proof.
  assert (H : filter ExtractedImage.selected (extractedImages exampleImport)
              <> []) by discriminate.
  split; [exact H|].
  destruct (addSelectedExtractedImagesToCanvas_layout oneObject exampleImport
              (fun _ => "t-r"%string) H)
    as (newImages & s' & Hadd & (Hlen & _) & _ & _ & Hsel & _).
  exists newImages, s'. auto.
Defined.

(** * Properties of the program on doubles *)

Module DoubleProperties.

Import PrimFloat.
Local Open Scope float_scope.

(** ** The order of doubles *)

(** Transitivity of [SFcompare], by cases on the three numbers. *)
Ltac SFcompare_transitivity a b c :=
  destruct a as [sa|sa| |sa ma ea], b as [sb|sb| |sb mb eb],
    c as [sc|sc| |sc mc ec]; cbn [SpecFloat.SFcompare];
    try destruct sa; try destruct sb; try destruct sc;
    try discriminate; try reflexivity;
    intros H1 H2; injection H1 as H1; injection H2 as H2; f_equal;
    change (Pos.compare_cont Eq) with Pos.compare in *;
    destruct (Z.compare_spec ea eb), (Z.compare_spec eb ec),
      (Z.compare_spec ea ec); try discriminate; try reflexivity; try lia;
    subst;
    destruct (Pos.compare_spec ma mb), (Pos.compare_spec mb mc),
      (Pos.compare_spec ma mc); cbn in *; try discriminate; try reflexivity;
    lia.

Lemma SFcompare_Lt_trans (a b c : SpecFloat.spec_float) :
  SpecFloat.SFcompare a b = Some Lt ->
  SpecFloat.SFcompare b c = Some Lt ->
  SpecFloat.SFcompare a c = Some Lt.
Proof. SFcompare_transitivity a b c. Qed.

Lemma SFcompare_Lt_Eq_trans (a b c : SpecFloat.spec_float) :
  SpecFloat.SFcompare a b = Some Lt ->
  SpecFloat.SFcompare b c = Some Eq ->
  SpecFloat.SFcompare a c = Some Lt.
Proof. SFcompare_transitivity a b c. Qed.

Lemma SFcompare_Eq_Lt_trans (a b c : SpecFloat.spec_float) :
  SpecFloat.SFcompare a b = Some Eq ->
  SpecFloat.SFcompare b c = Some Lt ->
  SpecFloat.SFcompare a c = Some Lt.
Proof. SFcompare_transitivity a b c. Qed.

Lemma SFcompare_Eq_trans (a b c : SpecFloat.spec_float) :
  SpecFloat.SFcompare a b = Some Eq ->
  SpecFloat.SFcompare b c = Some Eq ->
  SpecFloat.SFcompare a c = Some Eq.
Proof. SFcompare_transitivity a b c. Qed.

Lemma SFcompare_Gt_swap (a b : SpecFloat.spec_float) :
  SpecFloat.SFcompare a b = Some Gt -> SpecFloat.SFcompare b a = Some Lt.
Proof.
  destruct a as [sa|sa| |sa ma ea], b as [sb|sb| |sb mb eb];
    cbn [SpecFloat.SFcompare];
    try destruct sa; try destruct sb;
    try discriminate; try reflexivity;
    intros H1; injection H1 as H1; f_equal;
    change (Pos.compare_cont Eq) with Pos.compare in *;
    destruct (Z.compare_spec ea eb), (Z.compare_spec eb ea);
    try discriminate; try reflexivity; try lia; subst;
    destruct (Pos.compare_spec ma mb), (Pos.compare_spec mb ma);
    cbn in *; try discriminate; try reflexivity; lia.
Qed.

Lemma SFcompare_Eq_swap (a b : SpecFloat.spec_float) :
  SpecFloat.SFcompare a b = Some Eq -> SpecFloat.SFcompare b a = Some Eq.
Proof.
  destruct a as [sa|sa| |sa ma ea], b as [sb|sb| |sb mb eb];
    cbn [SpecFloat.SFcompare];
    try destruct sa; try destruct sb;
    try discriminate; try reflexivity;
    intros H1; injection H1 as H1; f_equal;
    change (Pos.compare_cont Eq) with Pos.compare in *;
    destruct (Z.compare_spec ea eb), (Z.compare_spec eb ea);
    try discriminate; try reflexivity; try lia; subst;
    destruct (Pos.compare_spec ma mb), (Pos.compare_spec mb ma);
    cbn in *; try discriminate; try reflexivity; lia.
Qed.

Lemma SFcompare_None (a b : SpecFloat.spec_float) :
  SpecFloat.SFcompare a b = None ->
  a = SpecFloat.S754_nan \/ b = SpecFloat.S754_nan.
Proof.
  destruct a as [sa|sa| |sa ma ea], b as [sb|sb| |sb mb eb];
    cbn [SpecFloat.SFcompare]; auto;
    try destruct sa; try destruct sb; discriminate.
Qed.

Lemma SFcompare_nan_l (b : SpecFloat.spec_float) :
  SpecFloat.SFcompare SpecFloat.S754_nan b = None.
Proof. reflexivity. Qed.

Lemma SFcompare_nan_r (a : SpecFloat.spec_float) :
  SpecFloat.SFcompare a SpecFloat.S754_nan = None.
Proof. destruct a; reflexivity. Qed.

(** [x < y] and [x <= y] on doubles, through their specification. *)
Lemma ltb_compare (x y : PrimFloat.float) :
  PrimFloat.ltb x y = true
  <-> SpecFloat.SFcompare (FloatOps.Prim2SF x) (FloatOps.Prim2SF y) = Some Lt.
Proof.
  rewrite FloatAxioms.ltb_spec. unfold SpecFloat.SFltb.
  destruct (SpecFloat.SFcompare _ _) as [[ | | ]|]; split;
    congruence.
Qed.

Lemma leb_compare (x y : PrimFloat.float) :
  PrimFloat.leb x y = true
  <-> SpecFloat.SFcompare (FloatOps.Prim2SF x) (FloatOps.Prim2SF y) = Some Lt
      \/ SpecFloat.SFcompare (FloatOps.Prim2SF x) (FloatOps.Prim2SF y)
         = Some Eq.
Proof.
  rewrite FloatAxioms.leb_spec. unfold SpecFloat.SFleb.
  destruct (SpecFloat.SFcompare _ _) as [[ | | ]|]; split;
    try congruence; auto; intros [H|H]; congruence.
Qed.

Lemma ltb_trans (x y z : PrimFloat.float) :
  PrimFloat.ltb x y = true -> PrimFloat.ltb y z = true ->
  PrimFloat.ltb x z = true.
Proof.
  rewrite !ltb_compare. apply SFcompare_Lt_trans.
Qed.

Lemma ltb_leb_trans (x y z : PrimFloat.float) :
  PrimFloat.ltb x y = true -> PrimFloat.leb y z = true ->
  PrimFloat.ltb x z = true.
Proof.
  rewrite !ltb_compare, leb_compare. intros H [H'|H'].
  - eapply SFcompare_Lt_trans; eassumption.
  - eapply SFcompare_Lt_Eq_trans; eassumption.
Qed.

Lemma leb_ltb_trans (x y z : PrimFloat.float) :
  PrimFloat.leb x y = true -> PrimFloat.ltb y z = true ->
  PrimFloat.ltb x z = true.
Proof.
  rewrite !ltb_compare, leb_compare. intros [H|H] H'.
  - eapply SFcompare_Lt_trans; eassumption.
  - eapply SFcompare_Eq_Lt_trans; eassumption.
Qed.

Lemma ltb_leb (x y : PrimFloat.float) :
  PrimFloat.ltb x y = true -> PrimFloat.leb x y = true.
Proof.
  rewrite ltb_compare, leb_compare. auto.
Qed.

(** A double that takes part in a true comparison is a number. *)
Lemma ltb_isNumber (x y : PrimFloat.float) :
  PrimFloat.ltb x y = true -> Double.isNumber x /\ Double.isNumber y.
Proof.
  rewrite ltb_compare. unfold Double.isNumber. intros H.
  split; intros E; rewrite E in H;
    [rewrite SFcompare_nan_l in H | rewrite SFcompare_nan_r in H];
    discriminate.
Qed.

Lemma leb_isNumber (x y : PrimFloat.float) :
  PrimFloat.leb x y = true -> Double.isNumber x /\ Double.isNumber y.
Proof.
  rewrite leb_compare. unfold Double.isNumber. intros H.
  split; intros E; rewrite E in H;
    [rewrite SFcompare_nan_l in H | rewrite SFcompare_nan_r in H];
    destruct H; discriminate.
Qed.

(** Numbers are totally ordered. *)
Lemma not_ltb_leb (x y : PrimFloat.float) :
  Double.isNumber x -> Double.isNumber y ->
  PrimFloat.ltb x y = false -> PrimFloat.leb y x = true.
Proof.
  unfold Double.isNumber. intros Hx Hy H. apply leb_compare.
  destruct (SpecFloat.SFcompare (FloatOps.Prim2SF x) (FloatOps.Prim2SF y))
    as [[ | | ]|] eqn:E.
  - right. now apply SFcompare_Eq_swap.
  - apply ltb_compare in E. congruence.
  - left. now apply SFcompare_Gt_swap.
  - apply SFcompare_None in E. tauto.
Qed.

(** ** Signs and differences of doubles *)

(** The sign given to [binary_round_aux] shows only in the sign of its
    result. *)
Lemma SFabs_binary_round_aux (prec emax : Z) (s : bool) (m e : Z)
  (l : SpecFloat.location) :
  SpecFloat.SFabs (SpecFloat.binary_round_aux prec emax s m e l)
  = SpecFloat.SFabs (SpecFloat.binary_round_aux prec emax false m e l).
Proof.
  unfold SpecFloat.binary_round_aux.
  destruct (SpecFloat.shr_fexp prec emax m e l) as [mrs' e'].
  destruct (SpecFloat.shr_fexp prec emax _ e' SpecFloat.loc_Exact)
    as [mrs'' e''].
  destruct (SpecFloat.shr_m mrs''); trivial.
  destruct (Z.leb e'' (Z.sub emax prec)); reflexivity.
Qed.

Lemma SFabs_binary_round (prec emax : Z) (s : bool) (m : positive) (e : Z) :
  SpecFloat.SFabs (SpecFloat.binary_round prec emax s m e)
  = SpecFloat.SFabs (SpecFloat.binary_round prec emax false m e).
Proof.
  unfold SpecFloat.binary_round.
  destruct (SpecFloat.shl_align m e _) as [mz ez].
  apply SFabs_binary_round_aux.
Qed.

Lemma SFabs_binary_normalize_opp (prec emax : Z) (m e : Z) (sz sz' : bool) :
  SpecFloat.SFabs (SpecFloat.binary_normalize prec emax (- m) e sz)
  = SpecFloat.SFabs (SpecFloat.binary_normalize prec emax m e sz').
Proof.
  destruct m as [|p|p]; cbn [Z.opp SpecFloat.binary_normalize];
    trivial.
  - apply SFabs_binary_round.
  - symmetry. apply SFabs_binary_round.
Qed.

(** [|a - b| = |b - a|]. *)
Lemma SFabs_sub_swap (prec emax : Z) (a b : SpecFloat.spec_float) :
  SpecFloat.SFabs (SpecFloat.SFsub prec emax a b)
  = SpecFloat.SFabs (SpecFloat.SFsub prec emax b a).
Proof.
  destruct a as [sa|sa| |sa ma ea], b as [sb|sb| |sb mb eb];
    cbn [SpecFloat.SFsub]; try reflexivity;
    try (destruct sa, sb; reflexivity).
  cbv zeta. rewrite (Z.min_comm eb ea).
  rewrite <- (SFabs_binary_normalize_opp prec emax _ _ false false).
  f_equal. f_equal. lia.
Qed.

(** [a - a] is zero, or NaN when [a] is infinite or NaN. *)
Lemma SFabs_sub_diag (prec emax : Z) (a : SpecFloat.spec_float) :
  SpecFloat.SFabs (SpecFloat.SFsub prec emax a a) = SpecFloat.S754_zero false
  \/ SpecFloat.SFabs (SpecFloat.SFsub prec emax a a) = SpecFloat.S754_nan.
Proof.
  destruct a as [sa|sa| |sa ma ea]; cbn [SpecFloat.SFsub].
  - left. destruct sa; reflexivity.
  - right. destruct sa; reflexivity.
  - right. reflexivity.
  - left. cbv zeta. rewrite Z.sub_diag. reflexivity.
Qed.

Lemma SFnonneg_abs (f : SpecFloat.spec_float) : Double.SFnonneg (SpecFloat.SFabs f).
Proof. destruct f; cbn; trivial. Qed.

Lemma SFnonneg_binary_round_aux (prec emax : Z) (m e : Z)
  (l : SpecFloat.location) :
  Double.SFnonneg (SpecFloat.binary_round_aux prec emax false m e l).
Proof.
  unfold SpecFloat.binary_round_aux.
  destruct (SpecFloat.shr_fexp prec emax m e l) as [mrs' e'].
  destruct (SpecFloat.shr_fexp prec emax _ e' SpecFloat.loc_Exact)
    as [mrs'' e''].
  destruct (SpecFloat.shr_m mrs''); cbn; trivial.
  destruct (Z.leb e'' (Z.sub emax prec)); reflexivity.
Qed.

Lemma SFnonneg_binary_round (prec emax : Z) (m : positive) (e : Z) :
  Double.SFnonneg (SpecFloat.binary_round prec emax false m e).
Proof.
  unfold SpecFloat.binary_round.
  destruct (SpecFloat.shl_align m e _) as [mz ez].
  apply SFnonneg_binary_round_aux.
Qed.

Lemma SFnonneg_add (prec emax : Z) (a b : SpecFloat.spec_float) :
  Double.SFnonneg a -> Double.SFnonneg b -> Double.SFnonneg (SpecFloat.SFadd prec emax a b).
Proof.
  destruct a as [sa|sa| |sa ma ea], b as [sb|sb| |sb mb eb];
    intros Ha Hb; cbn in Ha, Hb; subst;
    try exact I; try reflexivity;
    try (destruct sa, sb; exact I);
    try (destruct sa; exact I);
    try (destruct sb; exact I).
  unfold SpecFloat.SFadd. cbv zeta.
  cbn [SpecFloat.cond_Zopp].
  exact (SFnonneg_binary_round prec emax _ _).
Qed.

Lemma SFnonneg_not_below_zero (f : SpecFloat.spec_float) (s : bool) :
  Double.SFnonneg f ->
  SpecFloat.SFcompare f (SpecFloat.S754_zero s) <> Some Lt.
Proof.
  destruct f as [sf|sf| |sf mf ef]; cbn; intros H; subst; discriminate.
Qed.

(** The same facts on doubles. *)
Lemma abs_sub_swap (x y : PrimFloat.float) :
  PrimFloat.abs (PrimFloat.sub x y) = PrimFloat.abs (PrimFloat.sub y x).
Proof.
  apply FloatAxioms.Prim2SF_inj.
  rewrite !FloatAxioms.abs_spec, !FloatAxioms.sub_spec.
  apply SFabs_sub_swap.
Qed.

Lemma abs_sub_diag (x t : PrimFloat.float) :
  PrimFloat.leb (PrimFloat.abs (PrimFloat.sub x x)) t = true ->
  PrimFloat.abs (PrimFloat.sub x x) = PrimFloat.zero.
Proof.
  intros H. apply leb_isNumber in H. destruct H as [H _]. unfold Double.isNumber in H.
  apply FloatAxioms.Prim2SF_inj.
  rewrite FloatAxioms.abs_spec, FloatAxioms.sub_spec in *.
  destruct (SFabs_sub_diag FloatOps.prec FloatOps.emax (FloatOps.Prim2SF x))
    as [E|E]; unfold FloatAxioms.SF64sub in *; [|congruence].
  rewrite E. reflexivity.
Qed.

Lemma nonneg_abs (x : PrimFloat.float) : Double.nonneg (PrimFloat.abs x).
Proof.
  unfold Double.nonneg. rewrite FloatAxioms.abs_spec. apply SFnonneg_abs.
Qed.

Lemma nonneg_add (x y : PrimFloat.float) :
  Double.nonneg x -> Double.nonneg y -> Double.nonneg (PrimFloat.add x y).
Proof.
  unfold Double.nonneg. rewrite FloatAxioms.add_spec. apply SFnonneg_add.
Qed.

Lemma nonneg_not_below_zero (x : PrimFloat.float) :
  Double.nonneg x -> PrimFloat.ltb x PrimFloat.zero = false.
Proof.
  intros H. destruct (PrimFloat.ltb x PrimFloat.zero) eqn:E; trivial.
  apply ltb_compare in E. exfalso.
  revert E. apply (SFnonneg_not_below_zero _ false). exact H.
Qed.

(** ** Rounding

    The sum of two positive doubles is rounded to a double; rounding does
    not cross a double: a bound on the exact sum that is itself a double
    bounds the rounded sum. *)

Section Rounding.

Local Open Scope Z_scope.

Lemma fexp_eq (e : Z) :
  SpecFloat.fexp FloatOps.prec FloatOps.emax e = Z.max (e - 53) (-1074).
Proof. reflexivity. Qed.

Lemma digits2_pos_bounds (m : positive) :
  2 ^ (Zpos (SpecFloat.digits2_pos m) - 1) <= Zpos m
  < 2 ^ Zpos (SpecFloat.digits2_pos m).
Proof.
  induction m as [m IH|m IH|]; cbn [SpecFloat.digits2_pos].
  - rewrite Pos2Z.inj_succ. change (Zpos m~1) with (2 * Zpos m + 1).
    replace (Z.succ (Zpos (SpecFloat.digits2_pos m)) - 1)
      with (Z.succ (Zpos (SpecFloat.digits2_pos m) - 1)) by lia.
    rewrite !Z.pow_succ_r by lia. lia.
  - rewrite Pos2Z.inj_succ. change (Zpos m~0) with (2 * Zpos m).
    replace (Z.succ (Zpos (SpecFloat.digits2_pos m)) - 1)
      with (Z.succ (Zpos (SpecFloat.digits2_pos m) - 1)) by lia.
    rewrite !Z.pow_succ_r by lia. lia.
  - cbn. lia.
Qed.

Lemma pow2_pos (k : Z) : 0 <= k -> 0 < 2 ^ k.
Proof. intros. apply Z.pow_pos_nonneg; lia. Qed.

Lemma pow2_le (a b : Z) : 0 <= a <= b -> 2 ^ a <= 2 ^ b.
Proof. intros. apply Z.pow_le_mono_r; lia. Qed.

Lemma pow2_split (a b : Z) : 0 <= a -> 0 <= b -> 2 ^ (a + b) = 2 ^ a * 2 ^ b.
Proof. intros. apply Z.pow_add_r; lia. Qed.

(** A bounded mantissa and exponent are normal. *)
Lemma bounded_normal (m : positive) (e : Z) :
  SpecFloat.bounded FloatOps.prec FloatOps.emax m e = true ->
  Double.normal (Zpos m) e /\ e <= 971.
Proof.
  unfold SpecFloat.bounded, SpecFloat.canonical_mantissa.
  rewrite andb_true_iff, Z.eqb_eq, Z.leb_le, fexp_eq.
  change (FloatOps.emax - FloatOps.prec) with 971.
  intros [Hc He]. split; [|exact He].
  pose proof (digits2_pos_bounds m) as Hd.
  set (d := Zpos (SpecFloat.digits2_pos m)) in *.
  assert (0 < d) by (unfold d; lia).
  unfold Double.normal. split; [lia|]. split.
  - split; [lia|]. apply Z.lt_le_trans with (2 ^ d); [lia|].
    apply pow2_le. lia.
  - intros Hn. replace 52 with (d - 1) by lia. lia.
Qed.

(** A number with a smaller exponent is smaller. *)
Lemma scaled_lt_exponent (m1 m2 e1 e2 : Z) :
  Double.normal m1 e1 -> Double.normal m2 e2 -> e1 < e2 ->
  Double.scaled m1 e1 < Double.scaled m2 e2.
Proof.
  unfold Double.normal, Double.scaled.
  intros (He1 & Hm1 & Hn1) (He2 & Hm2 & Hn2) Hlt.
  replace (e2 + 1074) with ((e1 + 1074) + (e2 - e1)) by lia.
  rewrite (pow2_split (e1 + 1074) (e2 - e1)) by lia.
  pose proof (pow2_pos (e1 + 1074) ltac:(lia)) as HP.
  pose proof (pow2_le 1 (e2 - e1) ltac:(lia)) as HQ.
  change (2 ^ 1) with 2 in HQ.
  specialize (Hn2 ltac:(lia)).
  set (P := 2 ^ (e1 + 1074)) in *. set (Q := 2 ^ (e2 - e1)) in *.
  assert (m1 * P < 2 ^ 53 * P) by (apply Z.mul_lt_mono_pos_r; lia).
  assert (2 ^ 52 * P <= m2 * P) by (apply Z.mul_le_mono_nonneg_r; lia).
  assert (m2 * P * 2 <= m2 * P * Q) by (apply Z.mul_le_mono_nonneg_l; nia).
  change (2 ^ 53) with (2 * 2 ^ 52) in *. lia.
Qed.

(** Normal numbers compare as their values do. *)
Lemma SFcompare_normal (m1 m2 : positive) (e1 e2 : Z) :
  Double.normal (Zpos m1) e1 -> Double.normal (Zpos m2) e2 ->
  SpecFloat.SFcompare (SpecFloat.S754_finite false m1 e1)
    (SpecFloat.S754_finite false m2 e2)
  = Some (Double.scaled (Zpos m1) e1 ?= Double.scaled (Zpos m2) e2).
Proof.
  intros N1 N2.
  cbn [SpecFloat.SFcompare]. f_equal.
  change (Pos.compare_cont Eq m1 m2) with (Zpos m1 ?= Zpos m2).
  destruct (Z.compare_spec e1 e2) as [->|Hlt|Hgt].
  - unfold Double.scaled.
    pose proof (pow2_pos (e2 + 1074) ltac:(unfold Double.normal in N2; lia)).
    symmetry.
    destruct (Z.compare_spec (Zpos m1) (Zpos m2)) as [E|E|E];
      [apply Z.compare_eq_iff; now rewrite E
      |apply Z.compare_lt_iff; nia
      |apply Z.compare_gt_iff; nia].
  - symmetry. apply Z.compare_lt_iff. now apply scaled_lt_exponent.
  - symmetry. apply Z.compare_gt_iff. now apply scaled_lt_exponent.
Qed.

Lemma shr_1_shifted (m0 k : Z) (mrs : SpecFloat.shr_record) :
  0 <= k -> Double.shifted m0 k mrs ->
  Double.shifted m0 (k + 1) (SpecFloat.shr_1 mrs).
Proof.
  intros Hk. destruct mrs as [m r s]. unfold Double.shifted.
  cbn [SpecFloat.shr_m SpecFloat.shr_r SpecFloat.shr_s].
  rewrite (pow2_split k 1) by lia. change (2 ^ 1) with 2.
  pose proof (pow2_pos k Hk) as HP. set (P := 2 ^ k) in *.
  intros (Hm & Hb & Hx).
  destruct m as [|[p|p|]|p]; cbn [SpecFloat.shr_1 SpecFloat.shr_m
                                    SpecFloat.shr_r SpecFloat.shr_s].
  - split; [lia|]. split; [lia|]. intros E.
    destruct Hx as [-> ->]; [lia | split; reflexivity].
  - change (Zpos p~1) with (2 * Zpos p + 1) in *.
    split; [lia|]. split; [lia|]. intros E. lia.
  - change (Zpos p~0) with (2 * Zpos p) in *.
    split; [lia|]. split; [lia|]. intros E.
    destruct Hx as [-> ->]; [lia | split; reflexivity].
  - split; [lia|]. split; [lia|]. intros E. lia.
  - lia.
Qed.

Lemma iter_pos_shr_1_shifted (n : positive) :
  forall (m0 k : Z) (mrs : SpecFloat.shr_record),
    0 <= k -> Double.shifted m0 k mrs ->
    Double.shifted m0 (k + Zpos n)
      (SpecFloat.iter_pos SpecFloat.shr_1 n mrs).
Proof.
  induction n as [n IH|n IH|]; intros m0 k mrs Hk H;
    cbn [SpecFloat.iter_pos].
  - replace (k + Zpos n~1) with (k + 1 + Zpos n + Zpos n) by lia.
    apply IH; [lia|]. apply IH; [lia|]. now apply shr_1_shifted.
  - replace (k + Zpos n~0) with (k + Zpos n + Zpos n) by lia.
    apply IH; [lia|]. now apply IH.
  - now apply shr_1_shifted.
Qed.

(** [shr_fexp] from an exact location shifts by the difference between the
    exponent the format asks for and the exponent given, when that is
    positive. *)
Lemma shr_fexp_shifted (m e : Z) :
  0 <= m ->
  let k := Z.max 0 (SpecFloat.fexp FloatOps.prec FloatOps.emax
                      (SpecFloat.Zdigits2 m + e) - e) in
  snd (SpecFloat.shr_fexp FloatOps.prec FloatOps.emax m e SpecFloat.loc_Exact)
  = e + k
  /\ Double.shifted m k
       (fst (SpecFloat.shr_fexp FloatOps.prec FloatOps.emax m e
               SpecFloat.loc_Exact)).
Proof.
  intros Hm k. unfold SpecFloat.shr_fexp, SpecFloat.shr.
  cbn [SpecFloat.shr_record_of_loc].
  assert (H0 : Double.shifted m 0
                 {| SpecFloat.shr_m := m; SpecFloat.shr_r := false;
                    SpecFloat.shr_s := false |}).
  { unfold Double.shifted. cbn. repeat split; lia. }
  fold (SpecFloat.fexp FloatOps.prec FloatOps.emax (SpecFloat.Zdigits2 m + e)).
  subst k.
  destruct (SpecFloat.fexp FloatOps.prec FloatOps.emax
              (SpecFloat.Zdigits2 m + e) - e) as [|n|n] eqn:E;
    cbn [fst snd].
  - rewrite Z.max_l by lia. split; [lia | exact H0].
  - rewrite Z.max_r by lia. split; [reflexivity|].
    apply (iter_pos_shr_1_shifted n m 0); [lia | exact H0].
  - rewrite Z.max_l by lia. split; [lia | exact H0].
Qed.

Lemma round_nearest_even_cases (mrs : SpecFloat.shr_record) :
  let m := SpecFloat.shr_m mrs in
  let m' := SpecFloat.round_nearest_even m (SpecFloat.loc_of_shr_record mrs) in
  m' = m
  \/ (m' = m + 1
      /\ (SpecFloat.shr_r mrs = true \/ SpecFloat.shr_s mrs = true)).
Proof.
  destruct mrs as [m [|] [|]];
    cbn [SpecFloat.shr_m SpecFloat.shr_r SpecFloat.shr_s
         SpecFloat.loc_of_shr_record SpecFloat.round_nearest_even]; auto.
  destruct (Z.even m); auto.
Qed.

(** The first shift of [binary_round_aux] leaves a mantissa of at most 53
    bits, of exactly 53 above the least exponent. *)
Lemma first_shift_normal (mz : positive) (ez : Z) (mrs : SpecFloat.shr_record) :
  let d := Zpos (SpecFloat.digits2_pos mz) in
  let e1 := Z.max (d + ez - 53) (-1074) in
  ez <= e1 ->
  Double.shifted (Zpos mz) (e1 - ez) mrs ->
  SpecFloat.shr_m mrs < 2 ^ 53
  /\ (-1074 < e1 -> 2 ^ 52 <= SpecFloat.shr_m mrs).
Proof.
  intros d e1 Hle (Hm & Hb & _).
  pose proof (digits2_pos_bounds mz) as Hd. fold d in Hd.
  pose proof (pow2_pos (e1 - ez) ltac:(lia)) as HN.
  set (N := 2 ^ (e1 - ez)) in *. set (m1 := SpecFloat.shr_m mrs) in *.
  split.
  - assert (H : 2 ^ d <= 2 ^ 53 * N).
    { unfold N. rewrite <- pow2_split by lia. apply pow2_le. lia. }
    assert (m1 * N < 2 ^ 53 * N) by lia.
    apply Z.mul_lt_mono_pos_r in H0; lia.
  - intros Hn.
    assert (H : 2 ^ (d - 1) = 2 ^ 52 * N).
    { unfold N. rewrite <- pow2_split by lia. f_equal. lia. }
    assert (2 ^ 52 * N < (m1 + 1) * N) by lia.
    apply Z.mul_lt_mono_pos_r in H0; lia.
Qed.

(** The second shift of [binary_round_aux] is exact and leaves a normal
    number. *)
Lemma second_shift_normal (m1 m2 e1 : Z) (mrs : SpecFloat.shr_record) :
  -1074 <= e1 ->
  0 <= m1 < 2 ^ 53 ->
  (-1074 < e1 -> 2 ^ 52 <= m1) ->
  m1 <= m2 <= m1 + 1 ->
  let k := Z.max 0 (SpecFloat.fexp FloatOps.prec FloatOps.emax
                      (SpecFloat.Zdigits2 m2 + e1) - e1) in
  Double.shifted m2 k mrs ->
  let m3 := SpecFloat.shr_m mrs in
  Double.scaled m3 (e1 + k) = Double.scaled m2 e1
  /\ (0 < m3 -> Double.normal m3 (e1 + k)).
Proof.
  intros He1 Hm1 Hn1 Hm2 k (Hm & Hb & _) m3. fold m3 in Hm, Hb.
  assert (Hkdef : k = Z.max 0 (Z.max (SpecFloat.Zdigits2 m2 + e1 - 53)
                                     (-1074) - e1)) by reflexivity.
  clearbody k.
  destruct m2 as [|p2|p2]; [| |lia].
  - cbn [SpecFloat.Zdigits2] in Hkdef.
    assert (Hk : k = 0) by lia.
    rewrite Hk in *. change (2 ^ 0) with 1 in Hb.
    assert (m3 = 0) by lia.
    split; [|lia]. rewrite Z.add_0_r. now rewrite H.
  - cbn [SpecFloat.Zdigits2] in Hkdef.
    pose proof (digits2_pos_bounds p2) as Hd.
    set (d2 := Zpos (SpecFloat.digits2_pos p2)) in *.
    assert (Hd2 : d2 <= 54).
    { destruct (Z_le_gt_dec d2 54) as [H|H]; [exact H|].
      pose proof (pow2_le 54 (d2 - 1) ltac:(lia)).
      change (2 ^ 54) with (2 * 2 ^ 53) in *. lia. }
    destruct (Z_le_gt_dec d2 53) as [Hs|Hs].
    + assert (Hk : k = 0) by lia.
      rewrite Hk in *. change (2 ^ 0) with 1 in Hb.
      assert (E : m3 = Zpos p2) by lia.
      rewrite Z.add_0_r, E. split; [reflexivity|]. intros _.
      pose proof (pow2_le d2 53 ltac:(unfold d2; lia)).
      unfold Double.normal. split; [lia|]. split; [lia|].
      intros Hn. specialize (Hn1 Hn). lia.
    + assert (Hk : k = 1) by lia.
      rewrite Hk in *. change (2 ^ 1) with 2 in Hb.
      assert (E2 : Zpos p2 = 2 ^ 53).
      { replace (d2 - 1) with 53 in Hd by lia. lia. }
      rewrite E2 in *.
      assert (E : m3 = 2 ^ 52).
      { change (2 ^ 53) with (2 ^ 52 * 2) in Hb. lia. }
      rewrite E. split.
      * unfold Double.scaled.
        replace (e1 + 1 + 1074) with ((e1 + 1074) + 1) by lia.
        rewrite (pow2_split (e1 + 1074) 1) by lia.
        change (2 ^ 1) with 2. change (2 ^ 53) with (2 ^ 52 * 2). ring.
      * intros _. unfold Double.normal.
        split; [lia|]. split; [|lia].
        change (2 ^ 53) with (2 * 2 ^ 52). lia.
Qed.

(** Rounding to the grid of exponent [e1] does not cross a normal number:
    [m2] is [mz] without its low bits, or one more when bits were lost. *)
Lemma grid_round_monotone (mz ez e1 m1 m2 mb eb : Z) :
  -1074 <= ez <= e1 ->
  m1 * 2 ^ (e1 - ez) <= mz < (m1 + 1) * 2 ^ (e1 - ez) ->
  m2 = m1 \/ (m2 = m1 + 1 /\ mz <> m1 * 2 ^ (e1 - ez)) ->
  0 <= m1 < 2 ^ 53 ->
  (-1074 < e1 -> 2 ^ 52 <= m1) ->
  Double.normal mb eb ->
  (Double.scaled mz ez <= Double.scaled mb eb ->
   Double.scaled m2 e1 <= Double.scaled mb eb)
  /\ (Double.scaled mb eb <= Double.scaled mz ez ->
      Double.scaled mb eb <= Double.scaled m2 e1).
Proof.
  intros He Hb Hm2 Hm1 Hn1 Hnb.
  assert (Hs : forall m, Double.scaled m e1
                         = m * 2 ^ (e1 - ez) * 2 ^ (ez + 1074)).
  { intros m. unfold Double.scaled.
    replace (e1 + 1074) with ((e1 - ez) + (ez + 1074)) by lia.
    rewrite (pow2_split (e1 - ez) (ez + 1074)) by lia. ring. }
  pose proof (pow2_pos (e1 - ez) ltac:(lia)) as HN.
  pose proof (pow2_pos (ez + 1074) ltac:(lia)) as HU.
  assert (H12 : m1 <= m2) by lia.
  destruct (Z_le_gt_dec e1 eb) as [Hge|Hlt].
  - assert (Hsb : Double.scaled mb eb
                  = mb * 2 ^ (eb - e1) * 2 ^ (e1 - ez) * 2 ^ (ez + 1074)).
    { unfold Double.scaled.
      replace (eb + 1074) with ((eb - e1) + ((e1 - ez) + (ez + 1074))) by lia.
      rewrite (pow2_split (eb - e1)), (pow2_split (e1 - ez) (ez + 1074))
        by lia. ring. }
    rewrite Hsb, !Hs. unfold Double.scaled.
    set (N := 2 ^ (e1 - ez)) in *. set (U := 2 ^ (ez + 1074)) in *.
    set (X := mb * 2 ^ (eb - e1)) in *.
    split; intros H.
    + apply Z.mul_le_mono_pos_r in H; [|exact HU].
      apply Z.mul_le_mono_nonneg_r; [lia|].
      destruct Hm2 as [->|[-> Hne]].
      * lia.
      * assert (m1 * N < X * N) by lia.
        apply Z.mul_lt_mono_pos_r in H0; [|exact HN].
        apply Z.mul_le_mono_nonneg_r; lia.
    + apply Z.mul_le_mono_pos_r in H; [|exact HU].
      apply Z.mul_le_mono_nonneg_r; [lia|].
      assert (X * N < (m1 + 1) * N) by lia.
      apply Z.mul_lt_mono_pos_r in H0; [|exact HN].
      apply Z.mul_le_mono_nonneg_r; lia.
  - assert (Hn : Double.normal m1 e1).
    { unfold Double.normal in *. specialize (Hn1 ltac:(lia)).
      split; [lia|]. split; [lia|]. intros _. exact Hn1. }
    pose proof (scaled_lt_exponent mb m1 eb e1 Hnb Hn ltac:(lia)) as Hlt'.
    assert (H1z : Double.scaled m1 e1 <= Double.scaled mz ez).
    { rewrite Hs. unfold Double.scaled.
      apply Z.mul_le_mono_nonneg_r; lia. }
    assert (H1m : Double.scaled m1 e1 <= Double.scaled m2 e1).
    { rewrite !Hs. apply Z.mul_le_mono_nonneg_r; [lia|].
      apply Z.mul_le_mono_nonneg_r; lia. }
    split; intros H; lia.
Qed.

(** [binary_round_aux] on a positive mantissa that is long enough: the
    result is normal and rounding does not cross a normal number. *)
Lemma binary_round_aux_monotone (mz : positive) (ez : Z) :
  -1074 <= ez ->
  ez <= Z.max (Zpos (SpecFloat.digits2_pos mz) + ez - 53) (-1074) ->
  exists m3 e3,
    SpecFloat.binary_round_aux FloatOps.prec FloatOps.emax false (Zpos mz) ez
      SpecFloat.loc_Exact
    = Double.rounded m3 e3
    /\ 0 <= m3
    /\ (0 < m3 -> Double.normal m3 e3)
    /\ (forall mb eb, Double.normal mb eb ->
          (Double.scaled (Zpos mz) ez <= Double.scaled mb eb ->
           Double.scaled m3 e3 <= Double.scaled mb eb)
          /\ (Double.scaled mb eb <= Double.scaled (Zpos mz) ez ->
              Double.scaled mb eb <= Double.scaled m3 e3)).
Proof.
  intros Hez Hlong. unfold SpecFloat.binary_round_aux.
  destruct (shr_fexp_shifted (Zpos mz) ez ltac:(lia)) as [He1 Hs1].
  destruct (SpecFloat.shr_fexp FloatOps.prec FloatOps.emax (Zpos mz) ez
              SpecFloat.loc_Exact) as [mrs1 e1].
  cbn [fst snd] in He1, Hs1. cbn [SpecFloat.Zdigits2] in He1, Hs1.
  rewrite fexp_eq in He1, Hs1.
  set (d := Zpos (SpecFloat.digits2_pos mz)) in *.
  rewrite Z.max_r in He1, Hs1 by lia.
  assert (E1 : e1 = Z.max (d + ez - 53) (-1074)) by lia.
  destruct (first_shift_normal mz ez mrs1) as [Hlt53 H52].
  { fold d. lia. }
  { fold d. exact Hs1. }
  fold d in H52. rewrite <- E1 in H52.
  pose proof (round_nearest_even_cases mrs1) as Hround. cbv zeta in Hround.
  set (m1 := SpecFloat.shr_m mrs1) in *.
  set (m2 := SpecFloat.round_nearest_even m1
               (SpecFloat.loc_of_shr_record mrs1)) in *.
  assert (Hm1 : 0 <= m1) by apply Hs1.
  assert (Hm2 : m1 <= m2 <= m1 + 1) by lia.
  destruct (shr_fexp_shifted m2 e1 ltac:(lia)) as [He3 Hs3].
  destruct (SpecFloat.shr_fexp FloatOps.prec FloatOps.emax m2 e1
              SpecFloat.loc_Exact) as [mrs3 e3].
  cbn [fst snd] in He3, Hs3.
  destruct (second_shift_normal m1 m2 e1 mrs3 ltac:(lia) ltac:(lia) H52 Hm2
              Hs3) as [Hval Hnormal].
  rewrite <- He3 in Hval, Hnormal.
  exists (SpecFloat.shr_m mrs3), e3.
  split; [unfold Double.rounded; destruct (SpecFloat.shr_m mrs3); reflexivity|].
  split; [apply Hs3|]. split; [exact Hnormal|].
  intros mb eb Hnb. rewrite Hval.
  apply (grid_round_monotone (Zpos mz) ez e1 m1 m2 mb eb); trivial.
  - lia.
  - replace (e1 - ez) with (Z.max (d + ez - 53) (-1074) - ez) by lia.
    apply Hs1.
  - destruct Hround as [Hr|[Hr Hbits]]; [left; exact Hr|right].
    split; [exact Hr|]. intros Hx.
    destruct Hs1 as (_ & _ & Hexact).
    replace (Z.max (d + ez - 53) (-1074) - ez) with (e1 - ez) in Hexact by lia.
    destruct (Hexact Hx) as [Hr0 Hs0].
    destruct Hbits; congruence.
  - lia.
Qed.

Lemma iter_xO_shift (p d : positive) :
  Zpos (Pos.iter xO p d) = Zpos p * 2 ^ Zpos d
  /\ Zpos (SpecFloat.digits2_pos (Pos.iter xO p d))
     = Zpos (SpecFloat.digits2_pos p) + Zpos d.
Proof.
  induction d as [|d IH] using Pos.peano_ind.
  - cbn [Pos.iter SpecFloat.digits2_pos]. rewrite Pos2Z.inj_succ.
    change (Zpos p~0) with (2 * Zpos p). change (2 ^ 1) with 2. lia.
  - rewrite Pos.iter_succ. cbn [SpecFloat.digits2_pos].
    rewrite !Pos2Z.inj_succ.
    change (Zpos (Pos.iter xO p d)~0) with (2 * Zpos (Pos.iter xO p d)).
    destruct IH as [-> ->]. rewrite Z.pow_succ_r by lia. lia.
Qed.

(** [shl_align] lowers the exponent to the one asked for, when that is
    lower, and keeps the value. *)
Lemma shl_align_value (m : positive) (e e' : Z) :
  let r := SpecFloat.shl_align m e e' in
  snd r = Z.min e e'
  /\ Zpos (fst r) = Zpos m * 2 ^ (e - Z.min e e')
  /\ Zpos (SpecFloat.digits2_pos (fst r)) + snd r
     = Zpos (SpecFloat.digits2_pos m) + e.
Proof.
  unfold SpecFloat.shl_align.
  destruct (e' - e) as [|d|d] eqn:E; cbn [fst snd].
  - rewrite Z.min_l by lia. rewrite Z.sub_diag. cbn. lia.
  - rewrite Z.min_l by lia. rewrite Z.sub_diag. cbn. lia.
  - rewrite Z.min_r by lia.
    destruct (iter_xO_shift m d) as [-> ->].
    replace (e - e') with (Zpos d) by lia. lia.
Qed.

(** [binary_round] on a positive mantissa: the result is normal and
    rounding does not cross a normal number. *)
Lemma binary_round_monotone (p : positive) (e : Z) :
  -1074 <= e ->
  exists m3 e3,
    SpecFloat.binary_round FloatOps.prec FloatOps.emax false p e
    = Double.rounded m3 e3
    /\ 0 <= m3
    /\ (0 < m3 -> Double.normal m3 e3)
    /\ (forall mb eb, Double.normal mb eb ->
          (Double.scaled (Zpos p) e <= Double.scaled mb eb ->
           Double.scaled m3 e3 <= Double.scaled mb eb)
          /\ (Double.scaled mb eb <= Double.scaled (Zpos p) e ->
              Double.scaled mb eb <= Double.scaled m3 e3)).
Proof.
  intros He. unfold SpecFloat.binary_round. rewrite fexp_eq.
  set (f := Z.max (Zpos (SpecFloat.digits2_pos p) + e - 53) (-1074)).
  destruct (shl_align_value p e f) as (He' & Hm & Hd).
  destruct (SpecFloat.shl_align p e f) as [mz ez]. cbn [fst snd] in *.
  assert (Hval : Double.scaled (Zpos mz) ez = Double.scaled (Zpos p) e).
  { unfold Double.scaled. rewrite Hm, He'.
    replace (e + 1074) with ((e - Z.min e f) + (Z.min e f + 1074)) by lia.
    rewrite (pow2_split (e - Z.min e f)) by lia. ring. }
  rewrite <- Hval.
  apply binary_round_aux_monotone; lia.
Qed.

(** The sum of two positive finite doubles. *)
Lemma SFadd_finite_monotone (ma mb : positive) (ea eb : Z) :
  -1074 <= ea -> -1074 <= eb ->
  exists m3 e3,
    SpecFloat.SFadd FloatOps.prec FloatOps.emax
      (SpecFloat.S754_finite false ma ea) (SpecFloat.S754_finite false mb eb)
    = Double.rounded m3 e3
    /\ 0 <= m3
    /\ (0 < m3 -> Double.normal m3 e3)
    /\ (forall mc ec, Double.normal mc ec ->
          (Double.scaled (Zpos ma) ea + Double.scaled (Zpos mb) eb
           <= Double.scaled mc ec ->
           Double.scaled m3 e3 <= Double.scaled mc ec)
          /\ (Double.scaled mc ec
              <= Double.scaled (Zpos ma) ea + Double.scaled (Zpos mb) eb ->
              Double.scaled mc ec <= Double.scaled m3 e3)).
Proof.
  intros Ha Hb. cbn [SpecFloat.SFadd]. cbv zeta.
  cbn [SpecFloat.cond_Zopp].
  set (ez := Z.min ea eb).
  destruct (shl_align_value ma ea ez) as (_ & Hma & _).
  destruct (shl_align_value mb eb ez) as (_ & Hmb & _).
  set (pa := fst (SpecFloat.shl_align ma ea ez)) in *.
  set (pb := fst (SpecFloat.shl_align mb eb ez)) in *.
  change (Zpos pa + Zpos pb) with (Zpos (pa + pb)).
  cbn [SpecFloat.binary_normalize].
  assert (Hval : Double.scaled (Zpos (pa + pb)) ez
                 = Double.scaled (Zpos ma) ea + Double.scaled (Zpos mb) eb).
  { unfold Double.scaled. rewrite Pos2Z.inj_add, Hma, Hmb.
    replace (Z.min ea ez) with ez by (unfold ez; lia).
    replace (Z.min eb ez) with ez by (unfold ez; lia).
    replace (ea + 1074) with ((ea - ez) + (ez + 1074)) by lia.
    replace (eb + 1074) with ((eb - ez) + (ez + 1074)) by lia.
    rewrite (pow2_split (ea - ez)), (pow2_split (eb - ez))
      by (unfold ez; lia).
    ring. }
  rewrite <- Hval.
  apply binary_round_monotone. unfold ez. lia.
Qed.

Lemma scaled_pos (m e : Z) : 0 < m -> -1074 <= e -> 0 < Double.scaled m e.
Proof.
  intros Hm He. unfold Double.scaled.
  apply Z.mul_pos_pos; [exact Hm | apply pow2_pos; lia].
Qed.

Lemma SFscaled_nonneg (f : SpecFloat.spec_float) :
  Double.regular f -> 0 <= Double.SFscaled f.
Proof.
  destruct f as [s|s| |s m e]; cbn [Double.regular Double.SFscaled];
    try lia.
  intros (_ & Hn & _). apply Z.lt_le_incl. apply scaled_pos.
  - lia.
  - apply Hn.
Qed.

(** Regular doubles compare as their values do. *)
Lemma SFcompare_regular (x y : SpecFloat.spec_float) :
  Double.regular x -> Double.regular y ->
  SpecFloat.SFcompare x y = Some (Double.SFscaled x ?= Double.SFscaled y).
Proof.
  destruct x as [sx|sx| |sx mx ex], y as [sy|sy| |sy my ey];
    cbn [Double.regular Double.SFscaled]; try contradiction.
  - reflexivity.
  - intros _ (-> & Hn & _). cbn [SpecFloat.SFcompare].
    pose proof (scaled_pos (Zpos my) ey ltac:(lia) ltac:(apply Hn)).
    f_equal. symmetry. apply Z.compare_lt_iff. lia.
  - intros (-> & Hn & _) _. cbn [SpecFloat.SFcompare].
    pose proof (scaled_pos (Zpos mx) ex ltac:(lia) ltac:(apply Hn)).
    f_equal. symmetry. apply Z.compare_gt_iff. lia.
  - intros (-> & Hx & _) (-> & Hy & _). now apply SFcompare_normal.
Qed.

(** The rounded sum of two regular doubles stays on the same side of a
    regular double as the exact sum. *)
Lemma SFadd_regular (a b c : SpecFloat.spec_float) :
  Double.regular a -> Double.regular b -> Double.regular c ->
  let r := SpecFloat.SFadd FloatOps.prec FloatOps.emax a b in
  (Double.SFscaled a + Double.SFscaled b <= Double.SFscaled c ->
   Double.regular r /\ Double.SFscaled r <= Double.SFscaled c)
  /\ (Double.SFscaled c <= Double.SFscaled a + Double.SFscaled b ->
      r = SpecFloat.S754_infinity false
      \/ (Double.regular r /\ Double.SFscaled c <= Double.SFscaled r)).
Proof.
  intros Ha Hb Hc r. pose proof (SFscaled_nonneg c Hc) as Hc0.
  destruct a as [sa|sa| |sa ma ea]; try contradiction;
    destruct b as [sb|sb| |sb mb eb]; try contradiction.
  - assert (Hr : Double.regular r /\ Double.SFscaled r = 0)
      by (destruct sa, sb; split; exact I || reflexivity).
    destruct Hr as [Hr Hv]. cbn [Double.SFscaled]. rewrite Hv.
    split; intros H; [split; [exact Hr | lia] | right; split; [exact Hr | lia]].
  - subst r. cbn [SpecFloat.SFadd Double.SFscaled].
    split; intros H; [split; [exact Hb | lia] | right; split; [exact Hb | lia]].
  - subst r. cbn [SpecFloat.SFadd Double.SFscaled].
    split; intros H; [split; [exact Ha | lia] | right; split; [exact Ha | lia]].
  - destruct Ha as (-> & Hna & Hea), Hb as (-> & Hnb & Heb).
    destruct (SFadd_finite_monotone ma mb ea eb) as (m3 & e3 & Hr & Hm3 & Hn3 & Hmono);
      [apply Hna | apply Hnb |].
    subst r. rewrite Hr. cbn [Double.SFscaled].
    pose proof (scaled_pos (Zpos ma) ea ltac:(lia) ltac:(apply Hna)) as Hpa.
    pose proof (scaled_pos (Zpos mb) eb ltac:(lia) ltac:(apply Hnb)) as Hpb.
    assert (Hle : Double.scaled (Zpos ma) ea + Double.scaled (Zpos mb) eb
                  <= Double.SFscaled c ->
                  Double.scaled m3 e3 <= Double.SFscaled c
                  /\ (0 < m3 -> e3 <= 971)).
    { intros H. destruct c as [sc|sc| |sc mc ec]; try contradiction.
      - cbn [Double.SFscaled] in H. lia.
      - destruct Hc as (-> & Hnc & Hec). cbn [Double.SFscaled] in *.
        destruct (Hmono (Zpos mc) ec Hnc) as [Hl _]. specialize (Hl H).
        split; [exact Hl|]. intros Hpos.
        destruct (Z_le_gt_dec e3 971) as [Hs|Hs]; [exact Hs|].
        pose proof (scaled_lt_exponent (Zpos mc) m3 ec e3 Hnc (Hn3 Hpos)
                      ltac:(lia)). lia. }
    assert (Hge : Double.SFscaled c
                  <= Double.scaled (Zpos ma) ea + Double.scaled (Zpos mb) eb ->
                  0 < m3 -> Double.SFscaled c <= Double.scaled m3 e3).
    { intros H Hpos. destruct c as [sc|sc| |sc mc ec]; try contradiction.
      - cbn [Double.SFscaled]. apply Z.lt_le_incl. apply scaled_pos; trivial.
        apply (Hn3 Hpos).
      - destruct Hc as (-> & Hnc & Hec). cbn [Double.SFscaled] in *.
        now apply (Hmono (Zpos mc) ec Hnc). }
    assert (Hzero : Double.SFscaled c
                    <= Double.scaled (Zpos ma) ea + Double.scaled (Zpos mb) eb ->
                    m3 = 0 -> Double.SFscaled c <= 0).
    { intros H ->. destruct c as [sc|sc| |sc mc ec]; try contradiction.
      - cbn [Double.SFscaled]. lia.
      - destruct Hc as (-> & Hnc & Hec). cbn [Double.SFscaled] in *.
        destruct (Hmono (Zpos mc) ec Hnc) as [_ Hg]. specialize (Hg H).
        unfold Double.scaled in Hg at 2. lia. }
    destruct m3 as [|p3|p3]; [| |lia]; cbn [Double.rounded].
    + cbn [Double.regular Double.SFscaled].
      split; intros H; [split; [exact I | lia]|].
      right. split; [exact I | now apply Hzero].
    + specialize (Hn3 ltac:(lia)).
      destruct (Z.leb_spec e3 971) as [Hs|Hs];
        cbn [Double.regular Double.SFscaled].
      * split; intros H.
        -- destruct (Hle H) as [Hv _]. repeat split; trivial; apply Hn3.
        -- right. repeat split; trivial; try apply Hn3.
           apply Hge; [exact H | lia].
      * split; intros H; [|now left].
        destruct (Hle H) as [_ He3]. specialize (He3 ltac:(lia)). lia.
Qed.

End Rounding.

(** ** Sums of distances *)

(** A double that is not negative and at most a regular double is
    regular. *)
Lemma regular_below (x c : float) :
  Double.nonneg x -> leb x c = true ->
  Double.regular (FloatOps.Prim2SF c) -> Double.regular (FloatOps.Prim2SF x).
Proof.
  unfold Double.nonneg. intros Hx Hle Hc.
  apply leb_compare in Hle.
  pose proof (FloatAxioms.Prim2SF_valid x) as Hv.
  destruct (FloatOps.Prim2SF x) as [s|s| |s m e].
  - exact I.
  - cbn in Hx. subst s. exfalso.
    destruct (FloatOps.Prim2SF c) as [sc|sc| |sc mc ec]; try contradiction;
      cbn in Hle; destruct Hle; discriminate.
  - exfalso. cbn in Hle. destruct Hle; discriminate.
  - cbn in Hx. subst s. cbn in Hv. apply bounded_normal in Hv.
    cbn. tauto.
Qed.

Lemma leb_regular (x y : float) :
  Double.regular (FloatOps.Prim2SF x) -> Double.regular (FloatOps.Prim2SF y) ->
  leb x y = true
  <-> (Double.SFscaled (FloatOps.Prim2SF x)
       <= Double.SFscaled (FloatOps.Prim2SF y))%Z.
Proof.
  intros Hx Hy. rewrite leb_compare, (SFcompare_regular _ _ Hx Hy).
  destruct (Z.compare_spec (Double.SFscaled (FloatOps.Prim2SF x))
              (Double.SFscaled (FloatOps.Prim2SF y))) as [E|E|E];
    split; intros H; try lia; auto;
    destruct H; discriminate.
Qed.

(** Two distances of at most [ca] and [cb] add up to at most [c], when
    [ca + cb <= c] holds exactly. *)
Lemma add_below (a b ca cb c : float) :
  Double.nonneg a -> Double.nonneg b ->
  leb a ca = true -> leb b cb = true ->
  Double.regular (FloatOps.Prim2SF ca) ->
  Double.regular (FloatOps.Prim2SF cb) ->
  Double.regular (FloatOps.Prim2SF c) ->
  (Double.SFscaled (FloatOps.Prim2SF ca)
   + Double.SFscaled (FloatOps.Prim2SF cb)
   <= Double.SFscaled (FloatOps.Prim2SF c))%Z ->
  leb (a + b) c = true.
Proof.
  intros Ha Hb Hla Hlb Hca Hcb Hc Hsum.
  pose proof (regular_below a ca Ha Hla Hca) as Hra.
  pose proof (regular_below b cb Hb Hlb Hcb) as Hrb.
  apply (leb_regular a ca Hra Hca) in Hla.
  apply (leb_regular b cb Hrb Hcb) in Hlb.
  destruct (SFadd_regular _ _ _ Hra Hrb Hc) as [Hle _].
  destruct Hle as [Hr Hv]; [lia|].
  apply leb_compare. rewrite FloatAxioms.add_spec.
  unfold FloatAxioms.SF64add.
  rewrite (SFcompare_regular _ _ Hr Hc).
  destruct (Z.compare_spec
              (Double.SFscaled
                 (SpecFloat.SFadd FloatOps.prec FloatOps.emax
                    (FloatOps.Prim2SF a) (FloatOps.Prim2SF b)))
              (Double.SFscaled (FloatOps.Prim2SF c))); auto; lia.
Qed.

(** Adding a regular double to a sum of distances does not make it
    smaller. *)
Lemma add_above (t c : float) :
  Double.nonneg t -> Double.isNumber t ->
  Double.regular (FloatOps.Prim2SF c) ->
  leb t (t + c) = true.
Proof.
  unfold Double.nonneg, Double.isNumber. intros Ht Hn Hc.
  apply leb_compare. rewrite FloatAxioms.add_spec.
  unfold FloatAxioms.SF64add.
  pose proof (FloatAxioms.Prim2SF_valid t) as Hv.
  destruct (FloatOps.Prim2SF t) as [s|s| |s m e] eqn:E.
  - assert (Hr : Double.regular (SpecFloat.S754_zero s)) by exact I.
    destruct (SFadd_regular _ _ _ Hr Hc Hr) as [_ Hge].
    pose proof (SFscaled_nonneg _ Hc).
    destruct Hge as [->|[Hr' Hv']]; [cbn; lia | left; reflexivity |].
    rewrite (SFcompare_regular _ _ Hr Hr').
    destruct (Z.compare_spec (Double.SFscaled (SpecFloat.S754_zero s))
                (Double.SFscaled
                   (SpecFloat.SFadd FloatOps.prec FloatOps.emax
                      (SpecFloat.S754_zero s) (FloatOps.Prim2SF c))));
      auto; lia.
  - cbn in Ht. subst s. right.
    destruct (FloatOps.Prim2SF c) as [sc|sc| |sc mc ec]; try contradiction;
      reflexivity.
  - contradiction.
  - cbn in Ht. subst s. cbn in Hv. apply bounded_normal in Hv.
    assert (Hr : Double.regular (SpecFloat.S754_finite false m e))
      by (cbn; tauto).
    destruct (SFadd_regular _ _ _ Hr Hc Hr) as [_ Hge].
    pose proof (SFscaled_nonneg _ Hc).
    destruct Hge as [->|[Hr' Hv']]; [lia | left; reflexivity |].
    rewrite (SFcompare_regular _ _ Hr Hr').
    destruct (Z.compare_spec
                (Double.SFscaled (SpecFloat.S754_finite false m e))
                (Double.SFscaled
                   (SpecFloat.SFadd FloatOps.prec FloatOps.emax
                      (SpecFloat.S754_finite false m e) (FloatOps.Prim2SF c))));
      auto; lia.
Qed.

(** A sum that is a number has summands that are numbers. *)
Lemma add_isNumber (x y : float) :
  Double.isNumber (x + y) -> Double.isNumber x /\ Double.isNumber y.
Proof.
  unfold Double.isNumber. rewrite FloatAxioms.add_spec.
  unfold FloatAxioms.SF64add.
  destruct (FloatOps.Prim2SF x) as [sx|sx| |sx mx ex],
    (FloatOps.Prim2SF y) as [sy|sy| |sy my ey];
    cbn [SpecFloat.SFadd]; intros H; split; congruence.
Qed.

Lemma leb_trans (x y z : PrimFloat.float) :
  PrimFloat.leb x y = true -> PrimFloat.leb y z = true ->
  PrimFloat.leb x z = true.
Proof.
  intros Hxy Hyz.
  destruct (PrimFloat.ltb x y) eqn:E.
  - apply ltb_leb. eapply ltb_leb_trans; eassumption.
  - destruct (PrimFloat.ltb y z) eqn:E'.
    + apply ltb_leb. eapply leb_ltb_trans; eassumption.
    + rewrite leb_compare in *. rewrite <- not_true_iff_false in E, E'.
      rewrite ltb_compare in E, E'.
      destruct Hxy as [Hxy|Hxy]; [contradiction|].
      destruct Hyz as [Hyz|Hyz]; [contradiction|].
      right. eapply SFcompare_Eq_trans; eassumption.
Qed.

(** ** [snapToValue] on doubles *)

Lemma snapToValue_double_cases (v : PrimFloat.float)
  (points : list PrimFloat.float) (t : PrimFloat.float) :
  Double.first_within v points t (Double.snapToValue v points t)
  \/ (Forall (fun q => PrimFloat.leb (PrimFloat.abs (PrimFloat.sub v q)) t
                       = false) points
      /\ Double.snapToValue v points t = v).
Proof.
  induction points as [|p rest IH]; cbn [Double.snapToValue].
  - right. split; [constructor | reflexivity].
  - destruct (PrimFloat.leb (PrimFloat.abs (PrimFloat.sub v p)) t) eqn:E.
    + left. exists [], rest. repeat split; [constructor | exact E].
    + destruct IH as [(before & after & Heq & Hfar & Hnear) | [Hfar Hv]].
      * left. exists (p :: before), after. rewrite Heq at 1.
        repeat split; [constructor; assumption | exact Hnear].
      * right. split; [constructor; assumption | exact Hv].
Qed.

Lemma first_within_snapToValue_double (v : PrimFloat.float)
  (points : list PrimFloat.float) (t p : PrimFloat.float) :
  Double.first_within v points t p -> Double.snapToValue v points t = p.
Proof.
  intros (before & after & -> & Hfar & Hnear).
  induction before as [|q before IH]; cbn [Double.snapToValue app].
  - now rewrite Hnear.
  - inversion Hfar as [|? ? Hq Hrest]; subst.
    rewrite Hq. now apply IH.
Qed.

(** What [snapToValue] returns is within the tolerance of its argument, the
    distance taken either way round, when the argument is finite. *)
Lemma snapToValue_double_near (v : PrimFloat.float)
  (points : list PrimFloat.float) (t : PrimFloat.float) :
  PrimFloat.leb (PrimFloat.abs (PrimFloat.sub v v)) t = true ->
  PrimFloat.leb
    (PrimFloat.abs (PrimFloat.sub (Double.snapToValue v points t) v)) t
  = true.
Proof.
  intros Hv.
  destruct (snapToValue_double_cases v points t)
    as [(before & after & _ & _ & Hnear) | [_ ->]]; [|exact Hv].
  rewrite abs_sub_swap. exact Hnear.
Qed.

(** ** The loop over the scenarios, on doubles *)

Section DoubleScenarioLoop.

Variables newX newY : PrimFloat.float.

Local Abbreviation adjusted := (Double.adjustedDistance newX newY).
Local Abbreviation step := (Double.considerScenario newX newY).

Lemma qualifies_double_number (s : Double.Scenario.t) :
  Double.qualifies newX newY s -> Double.isNumber (adjusted s).
Proof.
  intros [_ H]. apply ltb_isNumber in H. apply H.
Qed.

(** One run of the callback either accepts the scenario, which then is
    within tolerance and strictly better than the best so far, or changes
    nothing. *)
Lemma considerScenario_double_cases (best : Double.Position.t)
  (d : PrimFloat.float) (s : Double.Scenario.t) :
  (Double.qualifies newX newY s
   /\ PrimFloat.ltb (adjusted s) d = true
   /\ step (best, d) s = (Double.positionOf s, adjusted s))
  \/ ((Double.qualifies newX newY s -> PrimFloat.ltb (adjusted s) d = false)
      /\ step (best, d) s = (best, d)).
Proof.
  unfold Double.considerScenario, Double.qualifies.
  cbn [snd].
  destruct (Double.withinTolerance newX newY s).
  - destruct (PrimFloat.ltb (Double.adjustedDistance newX newY s) d) eqn:E.
    + destruct (PrimFloat.ltb (Double.adjustedDistance newX newY s) 50%float)
        eqn:E'; cbn [andb].
      * left. repeat split.
      * right. split; [intros [_ H]; discriminate | reflexivity].
    + right. split; [reflexivity | reflexivity].
  - right. split; [intros [H _]; discriminate | reflexivity].
Qed.

(** The loop from any state: either nothing is accepted, or the result is
    the earliest of the best qualifying scenarios. *)
Lemma fold_considerScenario_double (scenarios : list Double.Scenario.t) :
  forall (best : Double.Position.t) (d : PrimFloat.float),
    ((forall s, In s scenarios -> Double.qualifies newX newY s ->
                PrimFloat.ltb (adjusted s) d = false)
     /\ fold_left step scenarios (best, d) = (best, d))
    \/ (exists before s after,
           scenarios = before ++ s :: after
           /\ Double.qualifies newX newY s
           /\ PrimFloat.ltb (adjusted s) d = true
           /\ (forall s', In s' before -> Double.qualifies newX newY s' ->
                          PrimFloat.ltb (adjusted s) (adjusted s') = true)
           /\ (forall s', In s' after -> Double.qualifies newX newY s' ->
                          PrimFloat.ltb (adjusted s') (adjusted s) = false)
           /\ fold_left step scenarios (best, d)
              = (Double.positionOf s, adjusted s)).
Proof.
  induction scenarios as [|a rest IH]; intros best d; cbn [fold_left].
  - left. split; [intros s [] | reflexivity].
  - destruct (considerScenario_double_cases best d a)
      as [(Hq & Hlt & ->) | (Hno & ->)].
    + right.
      destruct (IH (Double.positionOf a) (adjusted a))
        as [(Hnone & ->) | (before & s & after & -> & Hqs & Hlts & Hb & Ha & ->)].
      * exists [], a, rest. repeat split; trivial; try apply Hq.
        intros s' [].
      * exists (a :: before), s, after. repeat split; trivial; try apply Hqs.
        -- eapply ltb_trans; eassumption.
        -- intros s' [<- | Hin] Hq'; [exact Hlts | now apply Hb].
    + destruct (IH best d)
        as [(Hnone & ->) | (before & s & after & -> & Hqs & Hlts & Hb & Ha & ->)].
      * left. split; [|reflexivity].
        intros s [<- | Hin] Hq'; [now apply Hno | now apply Hnone].
      * right. exists (a :: before), s, after.
        repeat split; trivial; try apply Hqs.
        intros s' [<- | Hin] Hq'; [|now apply Hb].
        specialize (Hno Hq').
        apply ltb_leb_trans with (y := d); [exact Hlts|].
        apply not_ltb_leb; trivial.
        -- now apply qualifies_double_number.
        -- apply ltb_isNumber in Hlts. apply Hlts.
Qed.

Lemma ltb_50_infinity : PrimFloat.ltb 50%float PrimFloat.infinity = true.
Proof. reflexivity. Qed.

(** The whole loop of [applySnapping]. *)
Lemma findBestSnap_double_cases (scenarios : list Double.Scenario.t) :
  ((forall s, In s scenarios -> ~ Double.qualifies newX newY s)
   /\ Double.findBestSnap newX newY scenarios
      = (Double.Position.mk newX newY, PrimFloat.infinity))
  \/ (exists before s after,
         scenarios = before ++ s :: after
         /\ Double.qualifies newX newY s
         /\ (forall s', In s' before -> Double.qualifies newX newY s' ->
                        PrimFloat.ltb (adjusted s) (adjusted s') = true)
         /\ (forall s', In s' after -> Double.qualifies newX newY s' ->
                        PrimFloat.leb (adjusted s) (adjusted s') = true)
         /\ Double.findBestSnap newX newY scenarios
            = (Double.positionOf s, adjusted s)).
Proof.
  unfold Double.findBestSnap.
  destruct (fold_considerScenario_double scenarios
              (Double.Position.mk newX newY) PrimFloat.infinity)
    as [(Hnone & ->) | (before & s & after & -> & Hqs & _ & Hb & Ha & ->)].
  - left. split; [|reflexivity]. intros s Hin Hq.
    specialize (Hnone s Hin Hq).
    assert (PrimFloat.ltb (adjusted s) PrimFloat.infinity = true).
    { eapply ltb_trans; [apply Hq | apply ltb_50_infinity]. }
    congruence.
  - right. exists before, s, after. repeat split; trivial; try apply Hqs.
    intros s' Hin Hq'. apply not_ltb_leb.
    + now apply qualifies_double_number.
    + now apply qualifies_double_number.
    + now apply Ha.
Qed.

Lemma withinTolerance_double_iff (s : Double.Scenario.t) :
  Double.withinTolerance newX newY s = true <-> Double.eligible newX newY s.
Proof.
  unfold Double.withinTolerance, Double.eligible, Double.distanceX,
    Double.distanceY.
  rewrite orb_true_iff. reflexivity.
Qed.

(** The result of the loop is the position of the earliest of the eligible
    scenarios of least score, or the proposed position when no eligible
    scenario scores under 50. *)
Lemma findBestSnap_double_earliest_minimum
  (scenarios : list Double.Scenario.t) :
  Double.earliest_minimum newX newY scenarios
    (fst (Double.findBestSnap newX newY scenarios)).
Proof.
  destruct (findBestSnap_double_cases scenarios)
    as [(Hnone & ->) | (before & s & after & -> & Hqs & Hb & Ha & ->)].
  - right. split; [|reflexivity]. intros s Hin He.
    destruct (PrimFloat.ltb (Double.score newX newY s) 50%float) eqn:E; trivial.
    exfalso. apply (Hnone s Hin). split.
    + now apply withinTolerance_double_iff.
    + exact E.
  - left. exists before, s, after.
    assert (Hout : forall s', Double.eligible newX newY s' ->
               Double.isNumber (adjusted s') ->
               ~ Double.qualifies newX newY s' ->
               PrimFloat.ltb (adjusted s) (adjusted s') = true).
    { intros s' He Hn Hnq.
      apply ltb_leb_trans with (y := 50%float); [apply Hqs|].
      apply not_ltb_leb; trivial.
      - intros E. vm_compute in E. discriminate.
      - destruct (PrimFloat.ltb (adjusted s') 50%float) eqn:E; trivial.
        elim Hnq. split; [now apply withinTolerance_double_iff | exact E]. }
    split; [reflexivity|].
    split; [apply withinTolerance_double_iff; apply Hqs|].
    split; [apply Hqs|].
    split; [|split; [|reflexivity]].
    + intros s' Hin He Hn.
      destruct (PrimFloat.ltb (adjusted s') 50%float) eqn:E.
      * apply Hb; [exact Hin|].
        split; [now apply withinTolerance_double_iff | exact E].
      * apply Hout; trivial. intros [_ H].
        congruence.
    + intros s' Hin He Hn.
      destruct (PrimFloat.ltb (adjusted s') 50%float) eqn:E.
      * apply Ha; [exact Hin|].
        split; [now apply withinTolerance_double_iff | exact E].
      * apply ltb_leb. apply Hout; trivial. intros [_ H].
        congruence.
Qed.

End DoubleScenarioLoop.

Lemma applySnapping_double_active (st : Double.EditorState)
  (imageId : string) (newX newY width height : PrimFloat.float) :
  Double.snapEnabled st = true ->
  Double.falsy (Double.Size.width (Double.canvasSize st)) = false ->
  Double.falsy (Double.Size.height (Double.canvasSize st)) = false ->
  Double.applySnapping st imageId newX newY width height
  = fst (Double.findBestSnap newX newY
           (Double.snapScenarios (Double.getSnapPoints st (Some imageId))
              newX newY width height)).
Proof.
  intros He Hw Hh. unfold Double.applySnapping.
  rewrite He, Hw, Hh. reflexivity.
Qed.

(** Once the best distance is zero nothing replaces it: a sum of absolute
    values and a penalty that is not negative is not below zero. *)
Lemma considerScenario_double_at_zero (newX newY : float)
  (best : Double.Position.t) (s : Double.Scenario.t) :
  Double.nonneg ((Double.Scenario.priority s - 1) * 5) ->
  Double.considerScenario newX newY (best, 0) s = (best, 0).
Proof.
  intros Hp. unfold Double.considerScenario. cbn [snd].
  assert (H : ltb (Double.adjustedDistance newX newY s) 0 = false).
  { apply nonneg_not_below_zero. unfold Double.adjustedDistance.
    apply nonneg_add; [|exact Hp].
    unfold Double.totalDistance, Double.distanceX, Double.distanceY.
    apply nonneg_add; apply nonneg_abs. }
  rewrite H. cbn [andb]. now destruct (Double.withinTolerance newX newY s).
Qed.

(** ** Finite coordinates *)

Lemma SFcompare_refl (f : SpecFloat.spec_float) :
  f <> SpecFloat.S754_nan -> SpecFloat.SFcompare f f = Some Eq.
Proof.
  destruct f as [s|s| |s m e]; cbn [SpecFloat.SFcompare]; intros H.
  - reflexivity.
  - now destruct s.
  - now elim H.
  - change (Pos.compare_cont Eq m m) with (Pos.compare m m).
    rewrite Z.compare_refl, Pos.compare_refl. now destruct s.
Qed.

Lemma leb_refl (x : float) : Double.isNumber x -> leb x x = true.
Proof.
  intros H. apply leb_compare. right. now apply SFcompare_refl.
Qed.

(** A finite double is at distance zero from itself. *)
Lemma is_finite_sub_diag (x : float) :
  is_finite x = true -> abs (x - x) = 0.
Proof.
  unfold is_finite, is_nan, is_infinity.
  rewrite negb_true_iff, orb_false_iff, negb_false_iff.
  rewrite !FloatAxioms.eqb_spec, FloatAxioms.abs_spec.
  intros [Hn Hi].
  apply FloatAxioms.Prim2SF_inj.
  rewrite FloatAxioms.abs_spec, FloatAxioms.sub_spec.
  unfold FloatAxioms.SF64sub.
  destruct (FloatOps.Prim2SF x) as [s|s| |s m e].
  - now destruct s.
  - now destruct s.
  - discriminate.
  - cbn [SpecFloat.SFsub]. cbv zeta. rewrite Z.sub_diag. reflexivity.
Qed.

Lemma regular_0 : Double.regular (FloatOps.Prim2SF 0).
Proof. exact I. Qed.

Lemma regular_5 : Double.regular (FloatOps.Prim2SF 5).
Proof. vm_compute. repeat split; discriminate. Qed.

Lemma regular_10 : Double.regular (FloatOps.Prim2SF 10).
Proof. vm_compute. repeat split; discriminate. Qed.

Lemma regular_20 : Double.regular (FloatOps.Prim2SF 20).
Proof. vm_compute. repeat split; discriminate. Qed.

(** Two distances of at most 10 add up to at most 20. *)
Lemma add_below_20 (a b : float) :
  leb (abs a) 10 = true -> leb (abs b) 10 = true ->
  leb (abs a + abs b) 20 = true.
Proof.
  intros Ha Hb.
  apply (add_below (abs a) (abs b) 10 10 20); trivial;
    try apply nonneg_abs;
    try apply regular_10; try apply regular_20.
  vm_compute. discriminate.
Qed.

(** The penalty of a scenario of [applySnapping] is 0 or 5, and adding it
    does not lower the score. *)
Lemma total_below_adjusted (newX newY : float) (s : Double.Scenario.t) :
  Double.Scenario.priority s = 1 \/ Double.Scenario.priority s = 2 ->
  Double.isNumber (Double.adjustedDistance newX newY s) ->
  leb (Double.totalDistance newX newY s) (Double.adjustedDistance newX newY s)
  = true.
Proof.
  intros Hp Hn. unfold Double.adjustedDistance in *.
  assert (Hpen : Double.regular
                   (FloatOps.Prim2SF ((Double.Scenario.priority s - 1) * 5))).
  { destruct Hp as [-> | ->]; [apply regular_0 | apply regular_5]. }
  apply add_above; trivial.
  - unfold Double.totalDistance, Double.distanceX, Double.distanceY.
    apply nonneg_add; apply nonneg_abs.
  - apply add_isNumber in Hn. apply Hn.
Qed.

Lemma snapScenarios_priority (snapPoints : Double.SnapPoints.t)
  (newX newY width height : float) (s : Double.Scenario.t) :
  In s (Double.snapScenarios snapPoints newX newY width height) ->
  Double.Scenario.priority s = 1 \/ Double.Scenario.priority s = 2.
Proof.
  unfold Double.snapScenarios. cbv zeta. cbn [In].
  intros [<- | [<- | [<- | [<- | []]]]]; cbn; auto.
Qed.

(** The left-edge scenario of a finite position: within the tolerance on
    both axes, with a score of at most 20. *)
Lemma left_edge_qualifies (vertical horizontal : list float)
  (newX newY : float) :
  is_finite newX = true -> is_finite newY = true ->
  let leftEdge :=
    Double.Scenario.mk (Double.snapToValue newX vertical Double.SNAP_TOLERANCE)
      (Double.snapToValue newY horizontal Double.SNAP_TOLERANCE) 1 in
  leb (Double.distanceX newX leftEdge) Double.SNAP_TOLERANCE = true
  /\ leb (Double.distanceY newY leftEdge) Double.SNAP_TOLERANCE = true
  /\ leb (Double.adjustedDistance newX newY leftEdge) 20 = true
  /\ Double.qualifies newX newY leftEdge.
Proof.
  intros Hx Hy leftEdge.
  apply is_finite_sub_diag in Hx, Hy.
  assert (HdX : leb (Double.distanceX newX leftEdge) Double.SNAP_TOLERANCE
                = true).
  { unfold Double.distanceX, leftEdge. cbn [Double.Scenario.x].
    apply snapToValue_double_near. rewrite Hx. reflexivity. }
  assert (HdY : leb (Double.distanceY newY leftEdge) Double.SNAP_TOLERANCE
                = true).
  { unfold Double.distanceY, leftEdge. cbn [Double.Scenario.y].
    apply snapToValue_double_near. rewrite Hy. reflexivity. }
  assert (Hadj : leb (Double.adjustedDistance newX newY leftEdge) 20 = true).
  { unfold Double.adjustedDistance.
    apply (add_below _ _ 20 0 20).
    - unfold Double.totalDistance, Double.distanceX, Double.distanceY.
      apply nonneg_add; apply nonneg_abs.
    - exact I.
    - unfold Double.totalDistance. apply add_below_20; assumption.
    - reflexivity.
    - apply regular_20.
    - apply regular_0.
    - apply regular_20.
    - vm_compute. discriminate. }
  repeat split; trivial.
  - unfold Double.withinTolerance. rewrite HdX. reflexivity.
  - apply leb_ltb_trans with (y := 20); [exact Hadj | reflexivity].
Qed.


(** ** Scores that are numbers *)

Lemma is_finite_spec (x : float) :
  is_finite x = true
  <-> match FloatOps.Prim2SF x with
      | SpecFloat.S754_zero _ | SpecFloat.S754_finite _ _ _ => True
      | _ => False
      end.
Proof.
  unfold is_finite, is_nan, is_infinity.
  rewrite negb_true_iff, orb_false_iff, negb_false_iff.
  rewrite !FloatAxioms.eqb_spec, FloatAxioms.abs_spec.
  destruct (FloatOps.Prim2SF x) as [s|s| |s m e]; cbn.
  - tauto.
  - split; [intros [_ H]; discriminate | tauto].
  - split; [intros [H _]; discriminate | tauto].
  - unfold SpecFloat.SFeqb. cbn [SpecFloat.SFcompare].
    change (Pos.compare_cont Eq m m) with (Pos.compare m m).
    rewrite Z.compare_refl, Pos.compare_refl. destruct s; tauto.
Qed.

(** A value within the tolerance of some point is finite. *)
Lemma near_is_finite (v p : float) :
  leb (abs (v - p)) 10 = true -> is_finite v = true.
Proof.
  rewrite leb_compare, is_finite_spec.
  rewrite FloatAxioms.abs_spec, FloatAxioms.sub_spec.
  unfold FloatAxioms.SF64sub.
  change (FloatOps.Prim2SF 10)
    with (SpecFloat.S754_finite false 5629499534213120 (-49)).
  destruct (FloatOps.Prim2SF v) as [s|s| |s m e]; trivial;
    destruct (FloatOps.Prim2SF p) as [sp|sp| |sp mp ep];
    try destruct s; try destruct sp; cbn; intros [H|H]; discriminate.
Qed.

(** A value that is not finite is not snapped. *)
Lemma snapToValue_not_finite (v : float) (points : list float) :
  is_finite v = false -> Double.snapToValue v points 10 = v.
Proof.
  intros Hv. induction points as [|p rest IH]; cbn [Double.snapToValue].
  - reflexivity.
  - destruct (leb (abs (v - p)) 10) eqn:E; [|exact IH].
    apply near_is_finite in E. congruence.
Qed.

(** From a position that is not finite no distance is a number, whatever is
    added before the snap and taken off after it. *)
Lemma SFdistance_not_finite (v a : SpecFloat.spec_float) :
  match v with
  | SpecFloat.S754_infinity _ | SpecFloat.S754_nan => True
  | _ => False
  end ->
  let moved := SpecFloat.SFadd FloatOps.prec FloatOps.emax v a in
  match moved with
  | SpecFloat.S754_infinity _ | SpecFloat.S754_nan => True
  | _ => False
  end
  /\ SpecFloat.SFsub FloatOps.prec FloatOps.emax
       (SpecFloat.SFsub FloatOps.prec FloatOps.emax moved a) v
     = SpecFloat.S754_nan.
Proof.
  destruct v as [s|s| |s m e]; try contradiction; intros _;
    destruct a as [sa|sa| |sa ma ea];
    try destruct s; try destruct sa; cbv zeta; cbn; split; trivial.
Qed.

Lemma distance_not_finite (v a : float) (points : list float) :
  is_finite v = false ->
  ~ Double.isNumber (abs (Double.snapToValue (v + a) points 10 - a - v)).
Proof.
  intros Hv.
  assert (Hv' : match FloatOps.Prim2SF v with
                | SpecFloat.S754_infinity _ | SpecFloat.S754_nan => True
                | _ => False
                end).
  { pose proof (is_finite_spec v) as H. rewrite Hv in H.
    destruct (FloatOps.Prim2SF v); trivial; destruct H as [_ H];
      discriminate (H I). }
  destruct (SFdistance_not_finite _ (FloatOps.Prim2SF a) Hv') as [Hm Hd].
  rewrite snapToValue_not_finite.
  - unfold Double.isNumber.
    rewrite FloatAxioms.abs_spec, !FloatAxioms.sub_spec, FloatAxioms.add_spec.
    unfold FloatAxioms.SF64sub, FloatAxioms.SF64add. rewrite Hd.
    intros H. now apply H.
  - destruct (is_finite (v + a)) eqn:E; trivial.
    apply is_finite_spec in E. rewrite FloatAxioms.add_spec in E.
    unfold FloatAxioms.SF64add in E.
    destruct (SpecFloat.SFadd _ _ _ _); contradiction.
Qed.

Lemma distance_not_finite_0 (v : float) (points : list float) :
  is_finite v = false ->
  ~ Double.isNumber (abs (Double.snapToValue v points 10 - v)).
Proof.
  intros Hv. rewrite snapToValue_not_finite by exact Hv.
  unfold Double.isNumber.
  rewrite FloatAxioms.abs_spec, FloatAxioms.sub_spec.
  unfold FloatAxioms.SF64sub.
  pose proof (is_finite_spec v) as H. rewrite Hv in H.
  destruct (FloatOps.Prim2SF v) as [s|s| |s m e];
    try (destruct H as [_ H]; discriminate (H I)).
  - destruct s; cbn; intros H'; now apply H'.
  - cbn. intros H'; now apply H'.
Qed.

(** A scenario of [applySnapping] has a score that is a number only when
    both proposed coordinates are finite. *)
Lemma score_number_finite (snapPoints : Double.SnapPoints.t)
  (newX newY width height : float) (s : Double.Scenario.t) :
  In s (Double.snapScenarios snapPoints newX newY width height) ->
  Double.isNumber (Double.score newX newY s) ->
  is_finite newX = true /\ is_finite newY = true.
Proof.
  intros Hin Hn. unfold Double.score in Hn.
  apply add_isNumber in Hn. destruct Hn as [Hn _].
  apply add_isNumber in Hn. destruct Hn as [Hx Hy].
  unfold Double.snapScenarios in Hin. cbv zeta in Hin. cbn [In] in Hin.
  split.
  - destruct (is_finite newX) eqn:E; trivial. exfalso.
    destruct Hin as [<- | [<- | [<- | [<- | []]]]];
      cbn [Double.Scenario.x] in Hx; revert Hx;
      first [ now apply distance_not_finite_0
            | now apply distance_not_finite ].
  - destruct (is_finite newY) eqn:E; trivial. exfalso.
    destruct Hin as [<- | [<- | [<- | [<- | []]]]];
      cbn [Double.Scenario.y] in Hy; revert Hy;
      first [ now apply distance_not_finite_0
            | now apply distance_not_finite ].
Qed.

(** From a proposed position that is not finite nothing is accepted, and
    the proposed position is returned. *)
Lemma findBestSnap_not_finite (snapPoints : Double.SnapPoints.t)
  (newX newY width height : float) :
  is_finite newX = false \/ is_finite newY = false ->
  Double.findBestSnap newX newY
    (Double.snapScenarios snapPoints newX newY width height)
  = (Double.Position.mk newX newY, infinity).
Proof.
  intros Hnf.
  destruct (findBestSnap_double_cases newX newY
              (Double.snapScenarios snapPoints newX newY width height))
    as [(_ & E) | (before & s & after & Hsplit & Hqs & _)]; [exact E|].
  exfalso.
  assert (Hin : In s (Double.snapScenarios snapPoints newX newY width height))
    by (rewrite Hsplit; apply in_elt).
  destruct (score_number_finite snapPoints newX newY width height s Hin)
    as [Hx Hy].
  - now apply qualifies_double_number.
  - destruct Hnf; congruence.
Qed.

Lemma applySnapping_not_finite (st : Double.EditorState) (imageId : string)
  (newX newY width height : float) :
  is_finite newX = false \/ is_finite newY = false ->
  Double.applySnapping st imageId newX newY width height
  = Double.Position.mk newX newY.
Proof.
  intros Hnf. unfold Double.applySnapping.
  destruct (negb (Double.snapEnabled st)
            || Double.falsy (Double.Size.width (Double.canvasSize st))
            || Double.falsy (Double.Size.height (Double.canvasSize st)));
    [reflexivity|].
  cbv zeta. now rewrite findBestSnap_not_finite.
Qed.

(** A settled finite value is the first point the scan accepts. *)
Lemma settled_first_within (x : float) (points : list float) :
  is_finite x = true -> Double.settled x points ->
  Double.first_within x points Double.SNAP_TOLERANCE x.
Proof.
  intros Hx (before & after & Heq & Hfar).
  exists before, after. repeat split; trivial.
  rewrite (is_finite_sub_diag x Hx). reflexivity.
Qed.

Lemma ltb_irrefl (x : float) : ltb x x = false.
Proof.
  destruct (ltb x x) eqn:E; trivial.
  apply ltb_compare in E.
  destruct (FloatOps.Prim2SF x) as [s|s| |s m e] eqn:Ex.
  - discriminate.
  - destruct s; discriminate.
  - discriminate.
  - rewrite SFcompare_refl in E; discriminate.
Qed.

Lemma leb_neq_ltb (x y : float) :
  leb x y = true -> eqb x y = false -> ltb x y = true.
Proof.
  rewrite leb_compare, ltb_compare, FloatAxioms.eqb_spec.
  unfold SpecFloat.SFeqb. intros [H|H]; rewrite H; [trivial | discriminate].
Qed.

(** Two places in one list: the same place, or one before the other. *)
Lemma split_compare {A : Type} (b1 b2 a1 a2 : list A) (x1 x2 : A) :
  b1 ++ x1 :: a1 = b2 ++ x2 :: a2 ->
  (b1 = b2 /\ x1 = x2 /\ a1 = a2)
  \/ (In x1 b2 /\ In x2 a1)
  \/ (In x2 b1 /\ In x1 a2).
Proof.
  revert b2. induction b1 as [|y b1 IH]; intros [|z b2]; cbn [app]; intros E.
  - injection E as E1 E2. subst. now left.
  - injection E as E1 E2. subst. right. left.
    split; [now left | apply in_elt].
  - injection E as E1 E2. subst. right. right.
    split; [now left | apply in_elt].
  - injection E as -> E. destruct (IH b2 E) as [(-> & -> & ->) | [[H1 H2] | [H1 H2]]].
    + now left.
    + right. left. split; [now right | exact H2].
    + right. right. split; [now right | exact H2].
Qed.

(** The tie-break in the words of the specification: a scenario that is
    eligible with the least score of all, no earlier eligible scenario
    having the same score, is the one returned. *)
Lemma earliest_of_the_best (snapPoints : Double.SnapPoints.t)
  (newX newY width height : float)
  (before after : list Double.Scenario.t) (s : Double.Scenario.t) :
  let scenarios := Double.snapScenarios snapPoints newX newY width height in
  scenarios = before ++ s :: after ->
  Double.eligible newX newY s ->
  Double.isNumber (Double.score newX newY s) ->
  (forall s', In s' scenarios -> Double.eligible newX newY s' ->
              Double.isNumber (Double.score newX newY s') ->
              leb (Double.score newX newY s) (Double.score newX newY s')
              = true) ->
  (forall s', In s' before -> Double.eligible newX newY s' ->
              eqb (Double.score newX newY s) (Double.score newX newY s')
              = false) ->
  fst (Double.findBestSnap newX newY scenarios) = Double.positionOf s.
Proof.
  intros scenarios Hsplit He Hn Hmin Hfirst.
  assert (Hin : In s scenarios) by (rewrite Hsplit; apply in_elt).
  destruct (score_number_finite snapPoints newX newY width height s Hin Hn)
    as [Hx Hy].
  destruct (left_edge_qualifies (Double.SnapPoints.vertical snapPoints)
              (Double.SnapPoints.horizontal snapPoints) newX newY Hx Hy)
    as (_ & _ & _ & Hq).
  destruct (findBestSnap_double_cases newX newY scenarios)
    as [(Hnone & _) | (bw & w & aw & Hsplitw & Hqw & Hbw & Haw & ->)].
  { elim (Hnone _ (or_introl eq_refl) Hq). }
  cbn [fst].
  assert (Hew : Double.eligible newX newY w)
    by (apply withinTolerance_double_iff; apply Hqw).
  assert (Hnw : Double.isNumber (Double.score newX newY w))
    by (now apply qualifies_double_number).
  assert (Hinw : In w scenarios) by (rewrite Hsplitw; apply in_elt).
  assert (Hsw : leb (Double.score newX newY s) (Double.score newX newY w)
                = true) by (now apply Hmin).
  assert (Hqs : Double.qualifies newX newY s).
  { split; [now apply withinTolerance_double_iff|].
    eapply leb_ltb_trans; [exact Hsw | apply Hqw]. }
  rewrite Hsplit in Hsplitw.
  destruct (split_compare _ _ _ _ _ _ Hsplitw)
    as [(_ & -> & _) | [[H1 H2] | [H1 H2]]].
  - reflexivity.
  - exfalso. specialize (Hbw s H1 Hqs).
    assert (E : ltb (Double.score newX newY s) (Double.score newX newY s)
                = true) by (eapply leb_ltb_trans; eassumption).
    rewrite ltb_irrefl in E. discriminate.
  - exfalso. specialize (Haw s H2 Hqs).
    assert (Hlt : ltb (Double.score newX newY s) (Double.score newX newY w)
                  = true).
    { apply leb_neq_ltb; [exact Hsw | now apply Hfirst]. }
    assert (E : ltb (Double.score newX newY s) (Double.score newX newY s)
                = true) by (eapply ltb_leb_trans; eassumption).
    rewrite ltb_irrefl in E. discriminate.
Qed.

(** ** The claims on doubles *)

(** C6.  [snapToValue(v, points, t)] returns the first point [p] of
    [points], in sequence order, for which the program's test
    [Math.abs(v - p) <= t] succeeds, the difference being the rounded
    difference of doubles, and [v] itself when the test fails for every
    point of the sequence (as it does for each point when [v] or [t] is
    NaN).  The point returned need not be the one nearest to [v]: among the
    points [0; 5], with tolerance 10, the value 5 is sent to 0 although 5 is
    in the sequence. *)
Theorem snapToValue_first_match :
  (forall (v : float) (points : list float) (t : float),
      (exists before p after,
          points = before ++ p :: after
          /\ Forall (fun q => leb (abs (v - q)) t = false) before
          /\ leb (abs (v - p)) t = true
          /\ Double.snapToValue v points t = p)
      \/ (Forall (fun q => leb (abs (v - q)) t = false) points
          /\ Double.snapToValue v points t = v))
  /\ (exists (v : float) (points : list float) (t nearer : float),
         In nearer points
         /\ ltb (abs (v - nearer)) (abs (v - Double.snapToValue v points t))
            = true).
Proof.
  split.
  - intros v points t.
    destruct (snapToValue_double_cases v points t)
      as [(before & after & Heq & Hfar & Hnear) | H].
    + left. exists before, (Double.snapToValue v points t), after. auto.
    + right. exact H.
  - exists 5, [0; 5], 10, 5. split.
    + simpl. auto.
    + vm_compute. reflexivity.
Qed.

(** C2, as amended.  If the proposed [x] is a member of the vertical snap
    point sequence and no earlier member of the sequence is within the
    tolerance of it (the program's test [Math.abs(x - q) <= 10], on the
    rounded difference, fails for each), and the proposed [y] likewise in
    the horizontal sequence, then [applySnapping] returns exactly [(x, y)]. *)
Theorem applySnapping_settled :
  forall (st : Double.EditorState) (imageId : string)
         (x y width height : float),
    Double.settled x
      (Double.SnapPoints.vertical (Double.getSnapPoints st (Some imageId))) ->
    Double.settled y
      (Double.SnapPoints.horizontal (Double.getSnapPoints st (Some imageId)))
    ->
    Double.applySnapping st imageId x y width height = Double.Position.mk x y.
Proof.
  intros st imageId x y width height Hsx Hsy.
  destruct (is_finite x) eqn:Hfx;
    [|apply applySnapping_not_finite; now left].
  destruct (is_finite y) eqn:Hfy;
    [|apply applySnapping_not_finite; now right].
  pose proof (settled_first_within x _ Hfx Hsx) as Hx.
  pose proof (settled_first_within y _ Hfy Hsy) as Hy.
  pose proof (is_finite_sub_diag x Hfx) as Hx0.
  pose proof (is_finite_sub_diag y Hfy) as Hy0.
  apply first_within_snapToValue_double in Hx, Hy.
  unfold Double.applySnapping.
  destruct (negb (Double.snapEnabled st)
            || Double.falsy (Double.Size.width (Double.canvasSize st))
            || Double.falsy (Double.Size.height (Double.canvasSize st)));
    [reflexivity|].
  cbv zeta. unfold Double.snapScenarios. cbv zeta. rewrite Hx, Hy.
  unfold Double.findBestSnap. cbn [fold_left].
  assert (Hfirst : Double.considerScenario x y
                     (Double.Position.mk x y, infinity)
                     (Double.Scenario.mk x y 1)
                   = (Double.Position.mk x y, 0)).
  { unfold Double.considerScenario, Double.withinTolerance,
      Double.adjustedDistance, Double.totalDistance, Double.distanceX,
      Double.distanceY.
    cbn [Double.Scenario.x Double.Scenario.y Double.Scenario.priority snd].
    rewrite Hx0, Hy0. reflexivity. }
  rewrite Hfirst.
  rewrite !considerScenario_double_at_zero;
    [reflexivity | | | ]; cbn [Double.Scenario.priority]; vm_compute; trivial.
Qed.

(** C9, as amended.  With snapping enabled, a canvas whose width and height
    are truthy, and a proposed position whose coordinates are finite
    (neither NaN nor an infinity), the returned position is at most
    [2 * tolerance] away from the proposed one, summed over both axes as the
    program sums them (20 for the tolerance 10).  The left-edge scenario is
    within the tolerance on both axes, so it is eligible with a score of at
    most 20, under the ceiling of 50; the returned position is therefore the
    position of one of the four scenarios, and the loop does not end without
    having accepted one. *)
Theorem applySnapping_bounded_displacement :
  forall (st : Double.EditorState) (imageId : string)
         (newX newY width height : float),
    Double.snapEnabled st = true ->
    Double.falsy (Double.Size.width (Double.canvasSize st)) = false ->
    Double.falsy (Double.Size.height (Double.canvasSize st)) = false ->
    is_finite newX = true ->
    is_finite newY = true ->
    let snapPoints := Double.getSnapPoints st (Some imageId) in
    let scenarios :=
      Double.snapScenarios snapPoints newX newY width height in
    let leftEdge :=
      Double.Scenario.mk
        (Double.snapToValue newX (Double.SnapPoints.vertical snapPoints)
           Double.SNAP_TOLERANCE)
        (Double.snapToValue newY (Double.SnapPoints.horizontal snapPoints)
           Double.SNAP_TOLERANCE)
        1 in
    let r := Double.applySnapping st imageId newX newY width height in
    leb (abs (Double.Position.x r - newX) + abs (Double.Position.y r - newY))
        (2 * Double.SNAP_TOLERANCE) = true
    /\ 2 * Double.SNAP_TOLERANCE = 20
    /\ hd_error scenarios = Some leftEdge
    /\ leb (Double.distanceX newX leftEdge) Double.SNAP_TOLERANCE = true
    /\ leb (Double.distanceY newY leftEdge) Double.SNAP_TOLERANCE = true
    /\ Double.withinTolerance newX newY leftEdge = true
    /\ leb (Double.adjustedDistance newX newY leftEdge) 20 = true
    /\ (exists s, In s scenarios /\ r = Double.positionOf s)
    /\ snd (Double.findBestSnap newX newY scenarios) <> infinity.
Proof.
  intros st imageId newX newY width height He Hw Hh Hx Hy snapPoints
    scenarios leftEdge r.
  destruct (left_edge_qualifies (Double.SnapPoints.vertical snapPoints)
              (Double.SnapPoints.horizontal snapPoints) newX newY Hx Hy)
    as (HdX & HdY & Hadj & Hq).
  fold leftEdge in HdX, HdY, Hadj, Hq.
  assert (Hleft : In leftEdge scenarios) by (left; reflexivity).
  destruct (findBestSnap_double_cases newX newY scenarios)
    as [(Hnone & _) | (before & s & after & Hsplit & Hqs & Hb & Ha & Hr)].
  { elim (Hnone leftEdge Hleft Hq). }
  assert (Hr' : r = Double.positionOf s).
  { unfold r. rewrite applySnapping_double_active by assumption.
    fold snapPoints. fold scenarios. now rewrite Hr. }
  assert (Hin : In s scenarios) by (rewrite Hsplit; apply in_elt).
  assert (Hns : Double.isNumber (Double.adjustedDistance newX newY s)).
  { now apply qualifies_double_number. }
  assert (Hle : leb (Double.adjustedDistance newX newY s)
                    (Double.adjustedDistance newX newY leftEdge) = true).
  { rewrite Hsplit in Hleft. apply in_app_or in Hleft.
    destruct Hleft as [Hl | [<- | Hl]].
    - apply ltb_leb. now apply Hb.
    - now apply leb_refl.
    - now apply Ha. }
  assert (Htot : leb (Double.totalDistance newX newY s) 20 = true).
  { apply leb_trans with (y := Double.adjustedDistance newX newY s).
    - apply total_below_adjusted; [|exact Hns].
      eapply snapScenarios_priority. exact Hin.
    - eapply leb_trans; eassumption. }
  split; [rewrite Hr'; exact Htot|].
  split; [reflexivity|].
  split; [reflexivity|].
  split; [exact HdX|]. split; [exact HdY|].
  split; [apply Hq|]. split; [exact Hadj|].
  split; [exists s; split; assumption|].
  fold scenarios in Hr. rewrite Hr. cbn [snd]. intros E.
  destruct Hqs as [_ Hlt]. rewrite E in Hlt. discriminate.
Qed.

(** C10.  [applySnapping] runs through its scenarios in the order left
    edge, right edge, center, bottom edge, and the callback replaces the
    best so far only by a scenario within tolerance whose adjusted distance
    is strictly smaller.  Hence, with snapping enabled and a canvas whose
    width and height are truthy, a scenario that is eligible with the least
    adjusted distance of all eligible scenarios, no earlier eligible
    scenario having the same adjusted distance, is the one whose position is
    returned: among several that share the least adjusted distance, the
    earliest.  All distances are those the program computes on doubles; a
    distance that is NaN compares with nothing and takes no part. *)
Theorem applySnapping_tie_break :
  forall (st : Double.EditorState) (imageId : string)
         (newX newY width height : float),
    Double.snapEnabled st = true ->
    Double.falsy (Double.Size.width (Double.canvasSize st)) = false ->
    Double.falsy (Double.Size.height (Double.canvasSize st)) = false ->
    let vertical :=
      Double.SnapPoints.vertical (Double.getSnapPoints st (Some imageId)) in
    let horizontal :=
      Double.SnapPoints.horizontal (Double.getSnapPoints st (Some imageId)) in
    let snap := fun v points => Double.snapToValue v points 10 in
    let scenarios :=
      Double.snapScenarios (Double.getSnapPoints st (Some imageId))
        newX newY width height in
    let r := Double.applySnapping st imageId newX newY width height in
    scenarios
    = [ Double.Scenario.mk (snap newX vertical) (snap newY horizontal) 1;
        Double.Scenario.mk (snap (newX + width) vertical - width)
                           (snap newY horizontal) 1;
        Double.Scenario.mk (snap (newX + width / 2) vertical - width / 2)
                           (snap (newY + height / 2) horizontal - height / 2)
                           2;
        Double.Scenario.mk (snap newX vertical)
                           (snap (newY + height) horizontal - height) 1 ]
    /\ (forall best d s,
           Double.considerScenario newX newY (best, d) s <> (best, d) ->
           Double.eligible newX newY s
           /\ ltb (Double.score newX newY s) d = true)
    /\ (forall before s after,
           scenarios = before ++ s :: after ->
           Double.eligible newX newY s ->
           Double.isNumber (Double.score newX newY s) ->
           (forall s', In s' scenarios -> Double.eligible newX newY s' ->
                       Double.isNumber (Double.score newX newY s') ->
                       leb (Double.score newX newY s)
                           (Double.score newX newY s') = true) ->
           (forall s', In s' before -> Double.eligible newX newY s' ->
                       eqb (Double.score newX newY s)
                           (Double.score newX newY s') = false) ->
           r = Double.positionOf s)
    /\ Double.earliest_minimum newX newY scenarios r.
Proof.
  intros st imageId newX newY width height He Hw Hh vertical horizontal snap
    scenarios r.
  split; [reflexivity|]. split; [|split].
  - intros best d s Hchange.
    destruct (considerScenario_double_cases newX newY best d s)
      as [(Hq & Hlt & _) | (_ & Hsame)]; [|contradiction].
    split; [apply withinTolerance_double_iff; apply Hq | exact Hlt].
  - intros before s after Hsplit Hel Hn Hmin Hfirst. unfold r.
    rewrite applySnapping_double_active by assumption.
    now apply (earliest_of_the_best _ _ _ _ _ before after s).
  - unfold r. rewrite applySnapping_double_active by assumption.
    apply findBestSnap_double_earliest_minimum.
Qed.

(** The guides [onDragStart] shows are the snap points of the dragged
    object for which the program's test [Math.abs(p - node.x()) <= 30]
    succeeds on doubles (resp. [node.y()]), in the order of the snap points
    and with their repetitions; nothing else of the state changes.  Every
    line the left or top edge would snap to at that position is among
    them. *)
Theorem onDragStart_guides :
  forall (st : Double.EditorState) (image : Double.CanvasImage.t)
         (node : Double.Node.t),
    let snapPoints :=
      Double.getSnapPoints st (Some (Double.CanvasImage.id image)) in
    let st' := Double.onDragStart st image node in
    let guides := Double.activeSnapGuides st' in
    guides
    = (filter (fun p => leb (abs (p - Double.Node.x node)) 30)
              (Double.SnapPoints.vertical snapPoints),
       filter (fun p => leb (abs (p - Double.Node.y node)) 30)
              (Double.SnapPoints.horizontal snapPoints))
    /\ (forall p, In p (fst guides)
                  <-> In p (Double.SnapPoints.vertical snapPoints)
                      /\ leb (abs (p - Double.Node.x node)) 30 = true)
    /\ (forall p, In p (snd guides)
                  <-> In p (Double.SnapPoints.horizontal snapPoints)
                      /\ leb (abs (p - Double.Node.y node)) 30 = true)
    /\ (forall p,
           Double.first_within (Double.Node.x node)
             (Double.SnapPoints.vertical snapPoints) Double.SNAP_TOLERANCE p ->
           In p (fst guides))
    /\ (forall p,
           Double.first_within (Double.Node.y node)
             (Double.SnapPoints.horizontal snapPoints) Double.SNAP_TOLERANCE p
           -> In p (snd guides))
    /\ Double.canvasImages st' = Double.canvasImages st
    /\ Double.selectedImageId st' = Double.selectedImageId st
    /\ Double.cropMode st' = Double.cropMode st
    /\ Double.snapEnabled st' = Double.snapEnabled st
    /\ Double.multiSelectMode st' = Double.multiSelectMode st
    /\ Double.canvasSize st' = Double.canvasSize st.
Proof.
  intros st image node snapPoints st' guides.
  assert (E30 : Double.SNAP_TOLERANCE * 3 = 30) by reflexivity.
  assert (Hg : guides
               = (filter (fun p => leb (abs (p - Double.Node.x node)) 30)
                    (Double.SnapPoints.vertical snapPoints),
                  filter (fun p => leb (abs (p - Double.Node.y node)) 30)
                    (Double.SnapPoints.horizontal snapPoints))).
  { unfold guides, st', Double.onDragStart. cbv zeta.
    cbn [Double.activeSnapGuides Double.setActiveSnapGuides].
    rewrite E30. reflexivity. }
  assert (Hsnap : forall c points p,
             Double.first_within c points Double.SNAP_TOLERANCE p ->
             In p (filter (fun p => leb (abs (p - c)) 30) points)).
  { intros c points p (before & after & -> & _ & Hnear).
    apply filter_In. split; [apply in_elt|].
    rewrite abs_sub_swap. apply leb_trans with (y := 10); [exact Hnear|].
    reflexivity. }
  rewrite Hg. cbn [fst snd].
  split; [reflexivity|].
  split; [intros p; exact (filter_In _ _ _)|].
  split; [intros p; exact (filter_In _ _ _)|].
  split; [intros p; apply Hsnap|].
  split; [intros p; apply Hsnap|].
  repeat split.
Qed.

(** ** The program's arithmetic at concrete inputs *)

(** The test is the program's: 10.3 is sent to 0.3, the difference of the
    two doubles rounding to 10, and 16.1 is not sent to 6.1, their
    difference rounding to the double above 10. *)
Example snapToValue_at_the_tolerance :
  Double.snapToValue 0x1.499999999999ap+3 [0x1.3333333333333p-2] 10
  = 0x1.3333333333333p-2
  /\ 0x1.499999999999ap+3 - 0x1.3333333333333p-2 = 10
  /\ Double.snapToValue 0x1.019999999999ap+4 [0x1.8666666666666p+2] 10
     = 0x1.019999999999ap+4
  /\ 0x1.019999999999ap+4 - 0x1.8666666666666p+2 = 0x1.4000000000001p+3.
Proof. vm_compute. repeat split. Qed.

(** Where a difference rounds onto the tolerance the program snaps: with
    objects at x = 0.3 and x = 10.3, the left edge of [mover], proposed at
    (10.3, 0), is sent to 0.3, the two being exactly 10 apart as doubles;
    the right-edge scenario, 5 away, wins. *)
Example applySnapping_at_the_tolerance :
  let scenarios :=
    Double.snapScenarios
      (Double.getSnapPoints Double.atTolerance (Some "mover"%string))
      0x1.499999999999ap+3 0 5 50 in
  map Double.positionOf scenarios
  = [Double.Position.mk 0x1.3333333333333p-2 0;
     Double.Position.mk 0x1.5333333333334p+2 0;
     Double.Position.mk 0x1.f333333333334p+2 0;
     Double.Position.mk 0x1.3333333333333p-2 0]
  /\ map (Double.score 0x1.499999999999ap+3 0) scenarios
     = [10; 5; 0x1.ep+2; 10]
  /\ Double.applySnapping Double.atTolerance "mover" 0x1.499999999999ap+3 0
       5 50
     = Double.Position.mk 0x1.5333333333334p+2 0.
Proof. vm_compute. repeat split. Qed.

(** Where the program's scores differ in the last bit there is no tie: at
    (203, 172) with size 144.9 by 114 the right-edge scenario has x =
    202.99999999999997 and scores a little over 3, the bottom-edge scenario
    scores 3 and wins. *)
Example applySnapping_rounded_scores :
  let scenarios :=
    Double.snapScenarios
      (Double.getSnapPoints Double.oneObject (Some "moving"%string))
      203 172 0x1.21ccccccccccdp+7 114 in
  map Double.positionOf scenarios
  = [Double.Position.mk 200 175;
     Double.Position.mk 0x1.95fffffffffffp+7 175;
     Double.Position.mk 203 172;
     Double.Position.mk 200 172]
  /\ map (Double.score 203 172) scenarios
     = [6; 0x1.8000000000040p+1; 5; 3]
  /\ Double.applySnapping Double.oneObject "moving" 203 172
       0x1.21ccccccccccdp+7 114
     = Double.Position.mk 200 172.
Proof. vm_compute. repeat split. Qed.

(** The bound of 20 is a bound on what the program computes.  With an
    object at (0.3, 0.3) an object of no extent proposed at (10.3, 10.3) is
    moved to (0.3, 0.3); the program computes the distance 10 + 10 = 20,
    while the doubles 10.3 and 0.3 are a little more than 10 apart (in
    units of the least positive double, as exact integers). *)
Example applySnapping_bound_is_computed :
  let x := 0x1.499999999999ap+3 in
  let p := 0x1.3333333333333p-2 in
  let r := Double.applySnapping Double.cornerObject "moving" x x 0 0 in
  r = Double.Position.mk p p
  /\ abs (Double.Position.x r - x) + abs (Double.Position.y r - x) = 20
  /\ (Double.SFscaled (FloatOps.Prim2SF x)
      - Double.SFscaled (FloatOps.Prim2SF p)
      > Double.SFscaled (FloatOps.Prim2SF 10))%Z.
Proof. vm_compute. repeat split. Qed.

(** A guide at the edge of the window: from a node at x = 30.3 the line at
    0.3 is exactly 30 away as doubles, and is shown. *)
Example onDragStart_at_three_tolerances :
  let mover := Double.image "mover" 0x1.e4ccccccccccdp+4 0 5 50 in
  Double.activeSnapGuides
    (Double.onDragStart Double.atTolerance mover
       (Double.nodeAt 0x1.e4ccccccccccdp+4 0 mover))
  = ([0x1.3333333333333p-2; 0x1.499999999999ap+3], [0; 0; 25; 0; 25]).
Proof. vm_compute. reflexivity. Qed.

(** ** Counterexamples to the claims as the specification has them *)

(** C2, the claim as the specification has it, refuted: [mover] sits at
    (5, 0), where 5 is a vertical snap point (the left edge of another
    object) and 0 a horizontal one (the top of the canvas), its width and
    height are positive, and [applySnapping] moves it to (0, 0): the canvas
    edge 0 comes first in the vertical sequence and is within the tolerance
    of 5. *)
Lemma applySnapping_moves_off_a_snap_point :
  let r := Double.applySnapping Double.sharedEdge "mover" 5 0 5 50 in
  ltb 0 5 = true /\ ltb 0 50 = true
  /\ In 5 (Double.SnapPoints.vertical
             (Double.getSnapPoints Double.sharedEdge (Some "mover"%string)))
  /\ In 0 (Double.SnapPoints.horizontal
             (Double.getSnapPoints Double.sharedEdge (Some "mover"%string)))
  /\ r = Double.Position.mk 0 0
  /\ eqb (Double.Position.x r) 5 = false.
Proof.
  split; [reflexivity|]. split; [reflexivity|].
  split; [vm_compute; tauto|]. split; [vm_compute; tauto|].
  split; vm_compute; reflexivity.
Qed.

(** C9, the claim as the specification has it, refuted: snapping is
    enabled and the canvas is 800 by 600, and the proposed x is NaN.  Every
    score is NaN, no scenario is accepted ([minDistance] is still
    [Infinity] after the loop), and the proposed position comes back by the
    fallback, at a distance that is not at most 20.  The same happens from
    an infinite x. *)
Lemma applySnapping_not_a_number_falls_back :
  let st := Double.oneObject in
  let scenarios :=
    Double.snapScenarios (Double.getSnapPoints st (Some "moving"%string))
      nan 98 50 50 in
  let r := Double.applySnapping st "moving" nan 98 50 50 in
  Double.snapEnabled st = true
  /\ Double.falsy (Double.Size.width (Double.canvasSize st)) = false
  /\ Double.falsy (Double.Size.height (Double.canvasSize st)) = false
  /\ map (Double.adjustedDistance nan 98) scenarios = [nan; nan; nan; nan]
  /\ Double.findBestSnap nan 98 scenarios
     = (Double.Position.mk nan 98, infinity)
  /\ r = Double.Position.mk nan 98
  /\ leb (abs (Double.Position.x r - nan) + abs (Double.Position.y r - 98))
         (2 * Double.SNAP_TOLERANCE) = false
  /\ Double.findBestSnap infinity 98
       (Double.snapScenarios (Double.getSnapPoints st (Some "moving"%string))
          infinity 98 50 50)
     = (Double.Position.mk infinity 98, infinity).
Proof. vm_compute. repeat split. Qed.

(** ** The theorems at concrete inputs *)

Lemma applySnapping_settled_witness :
  Double.settled 400
    (Double.SnapPoints.vertical
       (Double.getSnapPoints Double.oneObject (Some "moving"%string)))
  /\ Double.settled 100
       (Double.SnapPoints.horizontal
          (Double.getSnapPoints Double.oneObject (Some "moving"%string)))
  /\ Double.applySnapping Double.oneObject "moving" 400 100 50 50
     = Double.Position.mk 400 100.
Proof.
  assert (Hx : Double.settled 400
                 (Double.SnapPoints.vertical
                    (Double.getSnapPoints Double.oneObject
                       (Some "moving"%string)))).
  { exists [0; 800], [100; 200; 300]. split; [reflexivity|].
    repeat constructor. }
  assert (Hy : Double.settled 100
                 (Double.SnapPoints.horizontal
                    (Double.getSnapPoints Double.oneObject
                       (Some "moving"%string)))).
  { exists [0; 600; 300], [175; 250]. split; [reflexivity|].
    repeat constructor. }
  split; [exact Hx|]. split; [exact Hy|].
  exact (applySnapping_settled Double.oneObject "moving" 400 100 50 50 Hx Hy).
Defined.

Lemma applySnapping_bounded_displacement_witness :
  is_finite 105 = true
  /\ is_finite 98 = true
  /\ Double.applySnapping Double.oneObject "moving" 105 98 50 50
     = Double.Position.mk 105 100
  /\ leb (abs (105 - 105) + abs (100 - 98)) (2 * Double.SNAP_TOLERANCE) = true
  /\ snd (Double.findBestSnap 105 98
            (Double.snapScenarios
               (Double.getSnapPoints Double.oneObject (Some "moving"%string))
               105 98 50 50))
     <> infinity.
Proof.
  assert (He : Double.snapEnabled Double.oneObject = true) by reflexivity.
  assert (Hw : Double.falsy
                 (Double.Size.width (Double.canvasSize Double.oneObject))
               = false) by reflexivity.
  assert (Hh : Double.falsy
                 (Double.Size.height (Double.canvasSize Double.oneObject))
               = false) by reflexivity.
  assert (Hx : is_finite 105 = true) by reflexivity.
  assert (Hy : is_finite 98 = true) by reflexivity.
  split; [exact Hx|]. split; [exact Hy|].
  split; [vm_compute; reflexivity|].
  destruct (applySnapping_bounded_displacement Double.oneObject "moving"
              105 98 50 50 He Hw Hh Hx Hy)
    as (Hbound & _ & _ & _ & _ & _ & _ & _ & Hacc).
  split; [vm_compute; reflexivity | exact Hacc].
Defined.

Lemma applySnapping_tie_break_witness :
  let scenarios :=
    Double.snapScenarios
      (Double.getSnapPoints Double.oneObject (Some "moving"%string))
      101 100 98 71 in
  Double.snapEnabled Double.oneObject = true
  /\ map Double.positionOf scenarios
     = [Double.Position.mk 100 100; Double.Position.mk 102 100;
        Double.Position.mk 101 100; Double.Position.mk 100 104]
  /\ map (Double.score 101 100) scenarios = [1; 1; 5; 5]
  /\ Double.applySnapping Double.oneObject "moving" 101 100 98 71
     = Double.Position.mk 100 100
  /\ Double.earliest_minimum 101 100 scenarios
       (Double.applySnapping Double.oneObject "moving" 101 100 98 71).
Proof.
  assert (He : Double.snapEnabled Double.oneObject = true) by reflexivity.
  assert (Hw : Double.falsy
                 (Double.Size.width (Double.canvasSize Double.oneObject))
               = false) by reflexivity.
  assert (Hh : Double.falsy
                 (Double.Size.height (Double.canvasSize Double.oneObject))
               = false) by reflexivity.
  split; [exact He|].
  split; [vm_compute; reflexivity|].
  split; [vm_compute; reflexivity|].
  split; [vm_compute; reflexivity|].
  apply (applySnapping_tie_break Double.oneObject "moving" 101 100 98 71
           He Hw Hh).
Defined.

End DoubleProperties.
